(** * mimic3-textmining: patient-level aggregation, note encoding and data loading

    A shallow embedding of [lib.py].  Python functions become Rocq
    functions; a Python call that can raise returns a value of [res A],
    i.e. either the exception raised or the value returned.  NumPy and
    Torch float arrays are modelled with exact rationals ([Q]): every
    statement below is about shapes, ordering, which reduction is applied
    to which entries, and which exception is raised, never about rounding. *)

From Stdlib Require Import String Ascii Bool Arith ZArith QArith Qminmax Lia List.
Import ListNotations.

Local Open Scope nat_scope.
Local Open Scope list_scope.

#[local] Set Warnings "-register-all".

(* ===================================================================== *)
(** ** Python exceptions and the result monad *)
(* ===================================================================== *)

Module Py.

Inductive exn : Type :=
| KeyError
| AttributeError
| IndexError
| TypeError
| ValueError
| RuntimeError
| RuntimeWarning
| ZeroDivisionError
| NameError.

Definition res (A : Type) : Type := (exn + A)%type.

Definition ret {A} (a : A) : res A := inr a.
Definition raise {A} (e : exn) : res A := inl e.

Definition bind {A B} (c : res A) (k : A -> res B) : res B :=
  match c with
  | inl e => inl e
  | inr a => k a
  end.

(** [try: c except e: h] *)
Definition try_except {A} (c : res A) (e : exn) (h : res A) : res A :=
  match c with
  | inl e' => match e, e' with
              | KeyError, KeyError | IndexError, IndexError => h
              | _, _ => inl e'
              end
  | inr a => inr a
  end.

Definition returns {A} (c : res A) : Prop := exists a, c = inr a.
Definition raises {A} (c : res A) : Prop := exists e, c = inl e.

(** A [for] loop whose body can raise: the state is threaded left to right
    and the first exception ends the loop. *)
Fixpoint for_each {A S} (body : S -> A -> res S) (xs : list A) (s : S) : res S :=
  match xs with
  | [] => ret s
  | x :: xs' => bind (body s x) (for_each body xs')
  end.

(** [zip(xs, ys, zs)]: as long as the shortest argument. *)
Fixpoint zip3 {A B C} (xs : list A) (ys : list B) (zs : list C)
  : list (A * B * C) :=
  match xs, ys, zs with
  | x :: xs', y :: ys', z :: zs' => (x, y, z) :: zip3 xs' ys' zs'
  | _, _, _ => []
  end.

End Py.

Import Py.

Declare Scope py_scope.
Delimit Scope py_scope with py.
Notation "x <- c ;; k" := (bind c (fun x => k))
  (at level 61, c at next level, right associativity) : py_scope.
Notation "' p <- c ;; k" := (bind c (fun x => let p := x in k))
  (at level 61, p pattern, c at next level, right associativity) : py_scope.
Local Open Scope py_scope.

(* ===================================================================== *)
(** ** NumPy reductions used by the source *)
(* ===================================================================== *)

Module Np.

(** A floating-point entry is modelled by the rational it denotes.  Sums
    and quotients are exact here, where NumPy rounds to the precision of
    the array; [max] and [min] select an entry and are exact in both. *)
Definition vec := list Q.
Definition mat := list vec.

Fixpoint zip_with {A B C} (f : A -> B -> C) (xs : list A) (ys : list B) : list C :=
  match xs, ys with
  | x :: xs', y :: ys' => f x y :: zip_with f xs' ys'
  | _, _ => []
  end.

Definition zeros (n : nat) : vec := repeat 0%Q n.

Definition qlen {A} (l : list A) : Q := inject_Z (Z.of_nat (length l)).

Definition qsum (l : vec) : Q := fold_right Qplus 0%Q l.

(** [np.mean(v)] of a 1-D array: one scalar.  (For an array without
    entries NumPy gives NaN; the quotient by zero is 0 here, and no
    statement below relies on that case.) *)
Definition mean (v : vec) : Q := (qsum v / qlen v)%Q.

(** [np.max(v)] of a 1-D array; NumPy raises [ValueError] on an empty one. *)
Definition max (v : vec) : res Q :=
  match v with
  | [] => raise ValueError
  | x :: t => ret (fold_left Qmax t x)
  end.

(** Reductions along axis 0 of a 2-D array with at least one row: the
    rows are combined entry by entry. *)
Definition reduce0 (f : Q -> Q -> Q) (r : vec) (rs : mat) : vec :=
  fold_left (zip_with f) rs r.

Definition mean0 (r : vec) (rs : mat) : vec :=
  map (fun s => (s / qlen (r :: rs))%Q) (reduce0 Qplus r rs).
Definition max0 (r : vec) (rs : mat) : vec := reduce0 Qmax r rs.
Definition min0 (r : vec) (rs : mat) : vec := reduce0 Qmin r rs.

Definition column (j : nat) (m : mat) : vec := map (fun r => nth j r 0%Q) m.

(** The value of a reduction: a 0-d scalar or a 1-D array. *)
Inductive npval : Type :=
| NScalar (q : Q)
| NVec (v : vec).

(** [X[i,:] = value] for a row of [width] entries, with NumPy broadcasting:
    a scalar or a one-entry array fills the row, an array of [width]
    entries is copied, any other length raises [ValueError]. *)
Definition assign_row (width : nat) (value : npval) : res vec :=
  match value with
  | NScalar q => ret (repeat q width)
  | NVec v =>
      if length v =? width then ret v
      else match v with
           | [q] => ret (repeat q width)
           | _ => raise ValueError
           end
  end.

End Np.

(* ===================================================================== *)
(** ** Insertion-ordered dictionaries (Python [dict]) *)
(* ===================================================================== *)

Module Dict.

Section Dict.
Context {K V : Type} (eqb : K -> K -> bool).

Definition dict := list (K * V).

Fixpoint dict_get (d : dict) (k : K) : option V :=
  match d with
  | [] => None
  | (k', v) :: d' => if eqb k' k then Some v else dict_get d' k
  end.

(** [d[k] = v]: an existing key keeps its position, a new key goes last. *)
Fixpoint dict_set (d : dict) (k : K) (v : V) : dict :=
  match d with
  | [] => [(k, v)]
  | (k', v') :: d' =>
      if eqb k' k then (k', v) :: d' else (k', v') :: dict_set d' k v
  end.

Definition dict_keys (d : dict) : list K := map fst d.
Definition dict_values (d : dict) : list V := map snd d.
End Dict.

End Dict.

(* ===================================================================== *)
(** ** Word2Vec pipeline *)
(* ===================================================================== *)

Module W2V.

Import Np Dict.

(** The trained embedding [self.embedding.wv]: [vector_size] and the
    lookup [word_vectors[word]], which raises [KeyError] for a word that
    is not in the vocabulary. *)
Record KeyedVectors : Type := {
  vector_size : nat;
  vocab : string -> option vec
}.

Definition wv_getitem (wv : KeyedVectors) (word : string) : res vec :=
  match vocab wv word with
  | Some v => ret v
  | None => raise KeyError
  end.

(** Every stored vector has [vector_size] entries. *)
Definition wf_embedding (wv : KeyedVectors) : Prop :=
  forall w v, vocab wv w = Some v -> length v = vector_size wv.

(** The inner loop of [transform]:
    [try: note_list.append(word_vectors[word]) except KeyError: continue] *)
Fixpoint collect_vectors (wv : KeyedVectors) (note : list string) (note_list : mat)
  : res mat :=
  match note with
  | [] => ret note_list
  | word :: rest =>
      nl <- try_except (v <- wv_getitem wv word ;; ret (note_list ++ [v]))
                       KeyError (ret note_list) ;;
      collect_vectors wv rest nl
  end.

(** [np.array(note_list).reshape((len(note_list), dim))] *)
Definition reshape_rows (dim : nat) (note_list : mat) : res mat :=
  if forallb (fun v => length v =? dim) note_list
  then ret note_list else raise ValueError.

(** [_concat_aggreg]: mean, max, min along axis 0, concatenated. *)
Definition _concat_aggreg (arr : mat) : res vec :=
  match arr with
  | [] => raise ValueError
  | r :: rs => ret (mean0 r rs ++ max0 r rs ++ min0 r rs)
  end.

Definition transform_row (wv : KeyedVectors) (note : list string) : res vec :=
  let dim := vector_size wv in
  note_list <- collect_vectors wv note [] ;;
  if length note_list =? 0
  then assign_row (dim * 3) (NVec (zeros (dim * 3)))
  else note_array <- reshape_rows dim note_list ;;
       row <- _concat_aggreg note_array ;;
       assign_row (dim * 3) (NVec row).

(** [W2VEmbedAggregate.transform]: one row of [X] per note. *)
Fixpoint transform (wv : KeyedVectors) (text : list (list string)) : res mat :=
  match text with
  | [] => ret []
  | note :: rest =>
      row <- transform_row wv note ;;
      X <- transform wv rest ;;
      ret (row :: X)
  end.

(** The token vectors of a note that resolve in the vocabulary, in order. *)
Definition resolved (wv : KeyedVectors) (note : list string) : mat :=
  flat_map (fun w => match vocab wv w with Some v => [v] | None => [] end) note.

(** The row the specification asks for: zeros when nothing resolves,
    otherwise mean, max and min over the resolved vectors, concatenated. *)
Definition note_row (wv : KeyedVectors) (note : list string) : vec :=
  match resolved wv note with
  | [] => zeros (3 * vector_size wv)
  | r :: rs => mean0 r rs ++ max0 r rs ++ min0 r rs
  end.

(** [list(dict.fromkeys(l))]: the distinct entries in first-seen order. *)
Definition unique_ids (l : list string) : list string :=
  dict_keys (fold_left (fun d p => dict_set String.eqb d p tt) l []).

(* --------------------------------------------------------------------- *)
(** *** [W2VEmbedAggregate.fit]: the keyword arguments of [Word2Vec] *)

(** [self.arg_names] *)
Definition arg_names : list string :=
  ["sg"; "size"; "window"; "min_count"; "alpha"; "iter"; "workers"]%string.

(** [set_params] and [fit] both keep the entries whose key is in
    [arg_names]; [fit] passes them on as [Word2Vec(text, **w2v_kwargs)]. *)
Definition w2v_kwargs {V} (attrs : list (string * V)) : list (string * V) :=
  filter (fun kv => existsb (String.eqb (fst kv)) arg_names) attrs.

(* --------------------------------------------------------------------- *)
(** *** [_patient_aggregation] *)

(** What a patient's dictionary entry holds: the first note's 1-D vector,
    or the 2-D array that [np.vstack] builds from the second note on. *)
Inductive ndarray : Type :=
| Arr1 (v : vec)
| Arr2 (rows : mat).

(** [np.vstack((a, v))] *)
Definition vstack (a : ndarray) (v : vec) : res ndarray :=
  let rows := match a with Arr1 u => [u] | Arr2 rows => rows end in
  if forallb (fun r => length r =? length v) rows
  then ret (Arr2 (rows ++ [v]))
  else raise ValueError.

(** [np.mean(array, 0)]: the mean of all entries of a 1-D array (a
    scalar), the column means of a 2-D array. *)
Definition mean_axis0 (a : ndarray) : npval :=
  match a with
  | Arr1 v => NScalar (mean v)
  | Arr2 [] => NVec []
  | Arr2 (r :: rs) => NVec (mean0 r rs)
  end.

Definition agg_state : Type := (dict (K:=string) (V:=ndarray) * list Z)%type.

(** One iteration of the grouping loop; [lab] is [None] in the loop
    without labels. *)
Definition group_step (st : agg_state) (item : string * vec * option Z)
  : res agg_state :=
  let '(patient_to_nv_map, patient_labels) := st in
  let '(p_id, vector, lab) := item in
  match dict_get String.eqb patient_to_nv_map p_id with
  | None =>
      ret (dict_set String.eqb patient_to_nv_map p_id (Arr1 vector),
           match lab with
           | Some l => patient_labels ++ [l]
           | None => patient_labels
           end)
  | Some a =>
      stacked <- vstack a vector ;;
      ret (dict_set String.eqb patient_to_nv_map p_id stacked, patient_labels)
  end.

(** The patient of a loop item. *)
Definition item_id (it : string * vec * option Z) : string := fst (fst it).
Definition item_vector (it : string * vec * option Z) : vec := snd (fst it).
Definition item_label (it : string * vec * option Z) : list Z :=
  match snd it with Some l => [l] | None => [] end.

(** An entry that holds more than one note. *)
Definition is_stacked (a : ndarray) : Prop :=
  match a with Arr2 _ => True | Arr1 _ => False end.

(** All vectors held by an entry have [w] entries. *)
Definition arr_width (w : nat) (a : ndarray) : Prop :=
  match a with
  | Arr1 v => length v = w
  | Arr2 rows => rows <> [] /\ Forall (fun r => length r = w) rows
  end.

(** The final loop: [X[i,:] = np.mean(array, 0)] on rows of [dim] entries. *)
Fixpoint fill_rows (dim : nat) (arrays : list ndarray) : res mat :=
  match arrays with
  | [] => ret []
  | a :: rest =>
      row <- assign_row dim (mean_axis0 a) ;;
      X <- fill_rows dim rest ;;
      ret (row :: X)
  end.

(** The items of the grouping loop: [zip(ids, note_vectors, labels)] when
    labels are given, [zip(ids, note_vectors)] otherwise. *)
Definition agg_items (train_patient_ids : list string) (note_vectors : mat)
    (labels : option (list Z)) : list (string * vec * option Z) :=
  match labels with
  | Some ls => zip3 train_patient_ids note_vectors (map Some ls)
  | None => map (fun pv => (fst pv, snd pv, None)) (combine train_patient_ids note_vectors)
  end.

(** [dim] is [self.w2v_agg_model.embedding.wv.vector_size]. *)
Definition _patient_aggregation (dim : nat) (train_patient_ids : list string)
    (note_vectors : mat) (labels : option (list Z)) : res (mat * list Z) :=
  let items := agg_items train_patient_ids note_vectors labels in
  st <- for_each group_step items ([], []) ;;
  X <- fill_rows dim (dict_values (fst st)) ;;
  ret (X, snd st).

(* --------------------------------------------------------------------- *)
(** *** [_load_data] and its callers *)

(** A row of a corpus chunk: the index (SUBJECT_ID, read with dtype
    [str]), the text column and the SEMTYPES column; [None] is NaN. *)
Record corpus_row : Type := {
  subject_id : string;
  txt : option string;
  semtypes : option string
}.

Definition chunk := list corpus_row.

(** The label table [read_csv(readm_fp, index_col=0)]: index and READM. *)
Definition readm_table := list (string * Z).

(** The Python objects that [_load_data] hands to [tuple]. *)
Inductive pyobj : Type :=
| PStr (s : string)
| PInt (z : Z)
| PList (l : list pyobj)
| PArray (l : list pyobj).

(** Iterating an object: arrays and lists yield their elements, a string
    its characters; an integer is not iterable. *)
Definition py_iter (o : pyobj) : res (list pyobj) :=
  match o with
  | PList l | PArray l => ret l
  | PStr s => ret (map (fun c => PStr (String c EmptyString)) (list_ascii_of_string s))
  | PInt _ => raise TypeError
  end.

(** The constructor call [tuple(a, b, ...)]: no argument gives the empty
    tuple, one argument is iterated, more raise
    [TypeError: tuple expected at most 1 argument]. *)
Definition py_tuple (args : list pyobj) : res (list pyobj) :=
  match args with
  | [] => ret []
  | [a] => py_iter a
  | _ => raise TypeError
  end.

Definition fillna (o : option string) : string :=
  match o with Some s => s | None => EmptyString end.

Definition mem (p : string) (l : list string) : bool := existsb (String.eqb p) l.

(** [l.index(x)]: position of the first occurrence, [ValueError] if none. *)
Fixpoint list_index (l : list string) (x : string) : res nat :=
  match l with
  | [] => raise ValueError
  | y :: l' => if String.eqb y x then ret 0 else i <- list_index l' x ;; ret (S i)
  end.

(** [a[i]] on an array: [IndexError] out of range. *)
Definition array_get {A} (a : list A) (i : nat) : res A :=
  match nth_error a i with
  | Some x => ret x
  | None => raise IndexError
  end.

Section LoadData.
(** [nltk.word_tokenize], an external tokenizer. *)
Variable word_tokenize : string -> list string.
(** [self.st_aug] and [self.db]. *)
Variables st_aug db : bool.

(** The body of [for chunk in corpus_df], on the accumulators
    [(patient_ids, text)]. *)
Definition load_chunk (readm_df : readm_table) (acc : list string * list (list string))
    (c : chunk) : list string * list (list string) :=
  let '(patient_ids, text) := acc in
  let c := filter (fun r => mem (subject_id r) (map fst readm_df)) c in
  let patient_ids := patient_ids ++ map subject_id c in
  let notes :=
    map (fun r => if st_aug
                  then (fillna (txt r) ++ fillna (semtypes r))%string
                  else fillna (txt r)) c in
  (patient_ids, text ++ map word_tokenize notes).

(** The chunk loop, with [if self.db: break] after the first chunk. *)
Fixpoint load_chunks (readm_df : readm_table) (cs : list chunk)
    (acc : list string * list (list string)) : list string * list (list string) :=
  match cs with
  | [] => acc
  | c :: cs' =>
      let acc' := load_chunk readm_df acc c in
      if db then acc' else load_chunks readm_df cs' acc'
  end.

(** [labels]: one entry per distinct patient, read at the position of
    the patient in the filtered table's index. *)
Fixpoint ordered_labels (index : list string) (input_labels : list Z)
    (unique_id_list : list string) : res (list Z) :=
  match unique_id_list with
  | [] => ret []
  | p_id :: rest =>
      i <- list_index index p_id ;;
      l <- array_get input_labels i ;;
      ls <- ordered_labels index input_labels rest ;;
      ret (l :: ls)
  end.

(** [gridsearch_labels]: one entry per note, skipping on [KeyError]. *)
Definition gridsearch_labels_of (readm_ordering_map : dict (K:=string) (V:=Z))
    (patient_ids : list string) : list Z :=
  flat_map (fun p_id =>
              match dict_get String.eqb readm_ordering_map p_id with
              | Some l => [l]
              | None => []
              end) patient_ids.

Definition ids_array (l : list string) : pyobj := PArray (map PStr l).
Definition labels_array (l : list Z) : pyobj := PArray (map PInt l).
Definition text_list (t : list (list string)) : pyobj :=
  PList (map (fun note => PList (map PStr note)) t).

(** [_load_data]; [corpus_df] is the sequence of chunks that
    [read_csv(..., chunksize=chunksize)] yields. *)
Definition _load_data (corpus_df : list chunk) (readm_df : readm_table)
    (adapt_for_gridsearch : bool) : res (list pyobj) :=
  let '(patient_ids, text) := load_chunks readm_df corpus_df ([], []) in
  let readm_df := filter (fun e => mem (fst e) patient_ids) readm_df in
  let input_labels := map snd readm_df in
  let readm_ordering_map :=
    fold_left (fun d e => dict_set String.eqb d (fst e) (snd e)) readm_df [] in
  let unique_id_list := unique_ids patient_ids in
  labels <- ordered_labels (map fst readm_df) input_labels unique_id_list ;;
  if adapt_for_gridsearch
  then
    let gridsearch_labels := gridsearch_labels_of readm_ordering_map patient_ids in
    py_tuple [ids_array patient_ids; text_list text; labels_array labels;
              labels_array gridsearch_labels]
  else
    py_tuple [ids_array patient_ids; text_list text; labels_array labels].

(** The predictor's attributes that the methods below assign. *)
Record predictor : Type := {
  train_data : option (list pyobj);   (* train_patient_ids, train_text, ... *)
  test_data : option (list pyobj);    (* test_patient_ids, test_text, test_labels *)
  w2v_agg_model : option KeyedVectors;
  clf_alpha : option Q
}.

(** The state right after [__init__]: none of these attributes exists. *)
Definition init_predictor : predictor :=
  {| train_data := None; test_data := None; w2v_agg_model := None; clf_alpha := None |}.

(** [a, b, c, d = t] *)
Definition unpack (n : nat) (t : list pyobj) : res (list pyobj) :=
  if length t =? n then ret t else raise ValueError.

Definition _load_train_data (self : predictor) (corpus_df : list chunk)
    (readm_df : readm_table) (adapt_for_gridsearch : bool) : res predictor :=
  t <- _load_data corpus_df readm_df adapt_for_gridsearch ;;
  t <- unpack 4 t ;;
  ret {| train_data := Some t; test_data := test_data self;
         w2v_agg_model := w2v_agg_model self; clf_alpha := clf_alpha self |}.

Definition _load_test_data (self : predictor) (corpus_df : list chunk)
    (readm_df : readm_table) : res predictor :=
  t <- _load_data corpus_df readm_df false ;;
  t <- unpack 3 t ;;
  ret {| train_data := train_data self; test_data := Some t;
         w2v_agg_model := w2v_agg_model self; clf_alpha := clf_alpha self |}.

(** Everything that follows the loading call in [choose_params] (the
    grid search and the two attribute assignments) and in [test] (the
    embedding update, aggregation, scoring and report). *)
Variable grid_search_and_store : predictor -> res predictor.
Variable evaluate_and_report : predictor -> res predictor.
(** The patient-level refinement and report of [train]. *)
Variable refine_and_report : predictor -> KeyedVectors -> res predictor.

Definition choose_params (self : predictor) (corpus_df : list chunk)
    (readm_df : readm_table) : res predictor :=
  self <- _load_train_data self corpus_df readm_df true ;;
  grid_search_and_store self.

Definition test (self : predictor) (corpus_df : list chunk)
    (readm_df : readm_table) : res predictor :=
  self <- _load_test_data self corpus_df readm_df ;;
  evaluate_and_report self.

(** [train]: with both [text] and [labels] given the body is [pass];
    otherwise it first reads [self.w2v_agg_model], which raises
    [AttributeError] while unassigned. *)
Definition train (self : predictor) (text_and_labels_given : bool) : res predictor :=
  if text_and_labels_given then ret self
  else match w2v_agg_model self with
       | Some m => refine_and_report self m
       | None => raise AttributeError
       end.

(** The predictor states that calls of the three public methods can
    produce, starting right after [__init__]. *)
Inductive reachable : predictor -> Prop :=
| reach_init : reachable init_predictor
| reach_choose_params self self' corpus_df readm_df :
    reachable self -> choose_params self corpus_df readm_df = inr self' ->
    reachable self'
| reach_test self self' corpus_df readm_df :
    reachable self -> test self corpus_df readm_df = inr self' ->
    reachable self'
| reach_train self self' given :
    reachable self -> train self given = inr self' ->
    reachable self'.
End LoadData.

End W2V.

(* ===================================================================== *)
(** ** Transformer pipeline *)
(* ===================================================================== *)

Module Bert.

Import Dict.

(* --------------------------------------------------------------------- *)
(** *** [EncodedDataset] *)

(** Integer tensors of one or two dimensions; a 2-D tensor records its
    number of columns, so that a tensor without rows still has a shape. *)
Inductive tensor : Type :=
| T1 (v : list Z)
| T2 (ncols : nat) (rows : list (list Z)).

(** What [encoding['overflowing_tokens']] can hold: a Python list of token
    ids, or a tensor. *)
Inductive overflow_val : Type :=
| OvList (l : list Z)
| OvTensor (t : tensor).

(** The result of [tokenizer.encode_plus], an external collaborator; the
    key ['overflowing_tokens'] may be absent. *)
Record encoding : Type := {
  enc_input_ids : tensor;
  enc_attention_mask : tensor;
  overflowing_tokens : option overflow_val
}.

Definition numel (t : tensor) : list Z :=
  match t with
  | T1 v => v
  | T2 _ rows => concat rows
  end.

(** [t.reshape(seq_len)] *)
Definition reshape (t : tensor) (seq_len : nat) : res tensor :=
  if length (numel t) =? seq_len then ret (T1 (numel t)) else raise RuntimeError.

(** [len(overflow)]: the length of a list, the first dimension of a tensor. *)
Definition ov_len (o : overflow_val) : nat :=
  match o with
  | OvList l | OvTensor (T1 l) => length l
  | OvTensor (T2 _ rows) => length rows
  end.

Definition slice {A} (l : list A) (lo hi : nat) : list A :=
  firstn (hi - lo) (skipn lo l).

(** [overflow[lo:hi]]: a slice along the first dimension. *)
Definition ov_slice (o : overflow_val) (lo hi : nat) : overflow_val :=
  match o with
  | OvList l => OvList (slice l lo hi)
  | OvTensor (T1 l) => OvTensor (T1 (slice l lo hi))
  | OvTensor (T2 c rows) => OvTensor (T2 c (slice rows lo hi))
  end.

(** [overflow_seq.shape[1]]: a list has no [shape], a 1-D shape has no
    second entry. *)
Definition ov_shape1 (o : overflow_val) : res nat :=
  match o with
  | OvList _ => raise AttributeError
  | OvTensor (T1 _) => raise IndexError
  | OvTensor (T2 c _) => ret c
  end.

(** [math.ceil(n / seq_len)] *)
Definition ceil_div (n seq_len : nat) : res nat :=
  if seq_len =? 0 then raise ZeroDivisionError
  else ret ((n + seq_len - 1) / seq_len).

(** [torch.ones(n)] and [torch.zeros(n)]; a negative size raises. *)
Definition torch_fill (x : Z) (n : Z) : res tensor :=
  if (n <? 0)%Z then raise RuntimeError else ret (T1 (repeat x (Z.to_nat n))).

(** [torch.cat((a, b))] along dimension 0: both operands need the same
    number of dimensions (an empty 1-D tensor is skipped) and, for 2-D
    tensors, the same number of columns. *)
Definition torch_cat (a b : tensor) : res tensor :=
  match a, b with
  | T1 x, T1 y => ret (T1 (x ++ y))
  | T2 c rows, T1 [] => ret (T2 c rows)
  | T1 [], T2 c rows => ret (T2 c rows)
  | T2 c1 r1, T2 c2 r2 =>
      if c1 =? c2 then ret (T2 c1 (r1 ++ r2)) else raise RuntimeError
  | _, _ => raise RuntimeError
  end.

Definition ov_tensor (o : overflow_val) : res tensor :=
  match o with
  | OvList _ => raise TypeError
  | OvTensor t => ret t
  end.

(** The four parallel lists built by [__init__]. *)
Record EncodedDataset : Type := {
  input_ids : list tensor;
  attn_masks : list tensor;
  labels : list Z;
  patient_ids : list Z
}.

(** One iteration of [for i in range(ceil(n_overflow/seq_len))]. *)
Definition overflow_step (seq_len : nat) (overflow : overflow_val) (patient label : Z)
    (ds : EncodedDataset) (i : nat) : res EncodedDataset :=
  let patient_ids' := patient_ids ds ++ [patient] in
  let labels' := labels ds ++ [label] in
  let overflow_seq := ov_slice overflow (seq_len * i) (seq_len * (i + 1)) in
  overflow_seq_len <- ov_shape1 overflow_seq ;;
  '(overflow_seq, attn_mask) <-
     (if overflow_seq_len =? seq_len
      then attn_mask <- torch_fill 1 (Z.of_nat seq_len) ;;
           t <- ov_tensor overflow_seq ;;
           ret (t, attn_mask)
      else let pad := (Z.of_nat seq_len - Z.of_nat overflow_seq_len)%Z in
           t <- ov_tensor overflow_seq ;;
           z <- torch_fill 0 pad ;;
           padded <- torch_cat t z ;;
           o <- torch_fill 1 (Z.of_nat overflow_seq_len) ;;
           z' <- torch_fill 0 pad ;;
           attn_mask <- torch_cat o z' ;;
           ret (padded, attn_mask)) ;;
  ret {| input_ids := input_ids ds ++ [overflow_seq];
         attn_masks := attn_masks ds ++ [attn_mask];
         labels := labels';
         patient_ids := patient_ids' |}.

(** A row of the dataframe: SUBJECT_ID, the text column, READM. *)
Definition df_row : Type := (Z * string * Z)%type.

Section Encode.
(** [tokenizer.encode_plus(note, ..., max_length=seq_len, ...)] *)
Variable encode_plus : string -> nat -> encoding.
Variable seq_len : nat.

(** The body of the loop over the dataframe rows. *)
Definition encode_row (ds : EncodedDataset) (row : df_row) : res EncodedDataset :=
  let '(patient, note, label) := row in
  let enc := encode_plus note seq_len in
  ids <- reshape (enc_input_ids enc) seq_len ;;
  mask <- reshape (enc_attention_mask enc) seq_len ;;
  let ds := {| input_ids := input_ids ds ++ [ids];
               attn_masks := attn_masks ds ++ [mask];
               labels := labels ds ++ [label];
               patient_ids := patient_ids ds ++ [patient] |} in
  match overflowing_tokens enc with
  | None => ret ds
  | Some overflow =>
      let n_overflow := ov_len overflow in
      n <- ceil_div n_overflow seq_len ;;
      for_each (overflow_step seq_len overflow patient label) (seq 0 n) ds
  end.

(** [EncodedDataset.__init__] *)
Definition init (df : list df_row) : res EncodedDataset :=
  for_each encode_row df
    {| input_ids := []; attn_masks := []; labels := []; patient_ids := [] |}.
End Encode.

(** The four lists are parallel. *)
Definition aligned (ds : EncodedDataset) : Prop :=
  length (input_ids ds) = length (patient_ids ds) /\
  length (attn_masks ds) = length (patient_ids ds) /\
  length (labels ds) = length (patient_ids ds).

Definition __len__ (ds : EncodedDataset) : nat := length (patient_ids ds).

(** [list[idx]] *)
Definition list_get {A} (l : list A) (idx : nat) : res A :=
  match nth_error l idx with
  | Some x => ret x
  | None => raise IndexError
  end.

(** One item: the entries at [idx] of the four lists. *)
Record item : Type := {
  item_input_ids : tensor;
  item_attn_masks : tensor;
  item_labels : Z;
  item_patient_ids : Z
}.

Definition __getitem__ (ds : EncodedDataset) (idx : nat) : res item :=
  i <- list_get (input_ids ds) idx ;;
  m <- list_get (attn_masks ds) idx ;;
  l <- list_get (labels ds) idx ;;
  p <- list_get (patient_ids ds) idx ;;
  ret {| item_input_ids := i; item_attn_masks := m;
         item_labels := l; item_patient_ids := p |}.

(* --------------------------------------------------------------------- *)
(** *** [MIMICBERTReadmissionPredictor.__init__]: partial fine-tuning *)

(** A named parameter of the model and its [requires_grad] flag. *)
Definition named_parameter : Type := (string * bool)%type.

(** [name.startswith(p)] *)
Definition startswith (name p : string) : bool := String.prefix p name.

(** The loop under [if not self.update_all_params]. *)
Definition freeze_embeddings (update_all_params : bool)
    (named_parameters : list named_parameter) : list named_parameter :=
  if negb update_all_params
  then map (fun np => if startswith (fst np) "embeddings"
                      then (fst np, false) else np) named_parameters
  else named_parameters.

(** The parameters the optimiser updates: those that require a gradient. *)
Definition trainable (ps : list named_parameter) : list string :=
  map fst (filter snd ps).

Section Forward.
Context {Logits : Type}.
(** [self.model(input_ids, attn_masks.float())], an external collaborator
    returning a one-element tuple. *)
Variable model : tensor -> tensor -> list Logits.

(** [forward]: [logits, = self.model(...)]; the flag is not consulted. *)
Definition forward (update_all_params : bool) (ids masks : tensor) : res Logits :=
  match model ids masks with
  | [logits] => ret logits
  | _ => raise ValueError
  end.
End Forward.

(* --------------------------------------------------------------------- *)
(** *** [validation_epoch_end] *)

(** What [validation_step] returns for one batch. *)
Record val_output : Type := {
  vo_loss : list Q;
  vo_predictions : list Z;
  vo_labels : list Z
}.

(** [torch.cat([...], 0)]: an empty list of tensors raises. *)
Definition cat_all {A} (parts : list (list A)) : res (list A) :=
  match parts with
  | [] => raise RuntimeError
  | _ => ret (concat parts)
  end.

Definition zsum (l : list Z) : Z := fold_right Z.add 0%Z l.

(** An entry of the [out] dictionary, or of the dictionary that is
    returned, whose [log] entry holds [out] itself. *)
Inductive out_value : Type :=
| OutLoss (loss : list Q)
| OutMetric (m : Q)
| OutLog (out : list (string * out_value)).

Section Validation.
(** [self.metric_names] zipped with [self.metrics]. *)
Variable metrics : list (string * (list Z -> list Z -> Q)).

(** [out]: the key [loss], then [out.update] with one pair per metric. *)
Definition epoch_out (loss : list Q) (predictions labels : list Z)
  : list (string * out_value) :=
  fold_left (fun d nm => Dict.dict_set String.eqb d (fst nm)
                          (OutMetric (snd nm predictions labels)))
            metrics [("loss"%string, OutLoss loss)].

(** The returned dictionary [{**out, 'log': out}], and what was written
    to the report file.  [write_dev_results_to] is [None] while the
    attribute does not exist (it has no default), [Some None] when it is
    Python's [None], and [Some (Some path)] when a report file is
    configured.  On a label tensor without entries the builtin [sum]
    returns the integer 0, which has no [item]. *)
Definition validation_epoch_end (write_dev_results_to : option (option string))
    (outputs : list val_output)
  : res (list (string * out_value) * option (list (string * out_value))) :=
  loss <- cat_all (map vo_loss outputs) ;;
  predictions <- cat_all (map vo_predictions outputs) ;;
  labels <- cat_all (map vo_labels outputs) ;;
  match labels with
  | [] => raise AttributeError
  | _ =>
    if ((zsum labels =? Z.of_nat (length labels)) || (zsum labels =? 0))%Z
    then raise RuntimeWarning
    else
      let out := epoch_out loss predictions labels in
      let returned := Dict.dict_set String.eqb out "log"%string (OutLog out) in
      match write_dev_results_to with
      | None => raise AttributeError
      | Some None => ret (returned, None)
      | Some (Some _) => ret (returned, Some out)
      end
  end.
End Validation.

(** The labels of an epoch contain a single class. *)
Definition one_class (labels : list Z) : Prop :=
  Forall (fun l => l = 1%Z) labels \/ Forall (fun l => l = 0%Z) labels.

(* --------------------------------------------------------------------- *)
(** *** [setup]: joining notes and labels *)

(** A row of [text_df] as the corpus loader returns it. *)
Record text_row : Type := {
  tr_subject_id : Z;
  tr_text : string;
  tr_semtypes : option string
}.

(** A row of [labelled_text]; READM is [None] (NaN) where the left join
    found no label. *)
Record labelled_row : Type := {
  lr_subject_id : Z;
  lr_text : string;
  lr_readm : option Z
}.

(** [text_df.merge(readm, on='SUBJECT_ID', how='left')]: every left row is
    kept, once per matching label row, or once with NaN when none matches. *)
Definition merge_left (text_df : list text_row) (readm : list (Z * Z))
  : list (text_row * option Z) :=
  flat_map (fun r =>
              match filter (fun e => (fst e =? tr_subject_id r)%Z) readm with
              | [] => [(r, None)]
              | ms => map (fun e => (r, Some (snd e))) ms
              end) text_df.

(** The text column after the optional SEMTYPES concatenation; a missing
    SEMTYPES value turns the sum into NaN, printed by [str]. *)
Definition note_text (st_aug : bool) (r : text_row) : string :=
  if st_aug
  then match tr_semtypes r with
       | Some s => (tr_text r ++ s)%string
       | None => "nan"%string
       end
  else tr_text r.

Definition count_eq (z : Z) (l : list Z) : nat :=
  length (filter (Z.eqb z) l).

(** [len(np.unique(y))] *)
Definition n_unique (y : list Z) : nat := length (nodup Z.eq_dec y).

(** The READM column of a frame, as [frame.READM.values] returns it: an
    integer array, or a float array once the join has put a NaN into the
    column; rows selected from a frame keep the dtype of its column. *)
Inductive readm_values : Type :=
| IntValues (ys : list Z)
| FloatValues (ys : list (option Z)).

(** [_make_sample_weights]: [np.bincount] refuses a float array, whatever
    it holds, and negative entries; a weight is [None] where the class
    count is zero (an infinite quotient). *)
Definition _make_sample_weights (y : readm_values) : res (list (option Q)) :=
  match y with
  | FloatValues _ => raise TypeError
  | IntValues ys =>
      if existsb (fun z => (z <? 0)%Z) ys then raise ValueError
      else
        let class_weight (c : Z) : option Q :=
          if count_eq c ys =? 0 then None
          else Some (Np.qlen ys / inject_Z (Z.of_nat (n_unique ys * count_eq c ys)))%Q in
        ret (map (fun sample => if (sample =? 0)%Z then class_weight 0%Z
                                else class_weight 1%Z) ys)
  end.

Section Setup.
Variable st_aug : bool.
(** [random.sample(all_patients, n)], an external random choice. *)
Variable sample : list Z -> nat -> list Z.
(** [self.val_frac] *)
Variable val_frac : Q.

Definition labelled_text (text_df : list text_row) (readm : list (Z * Z))
  : list labelled_row :=
  map (fun rl => {| lr_subject_id := tr_subject_id (fst rl);
                    lr_text := note_text st_aug (fst rl);
                    lr_readm := snd rl |}) (merge_left text_df readm).

Definition zmem (z : Z) (l : list Z) : bool := existsb (Z.eqb z) l.

(** [Series.drop_duplicates().tolist()]: first occurrences, in order. *)
Definition drop_duplicates (l : list Z) : list Z :=
  fold_left (fun seen z => if zmem z seen then seen else seen ++ [z]) l [].

(** [int(x)]: truncation towards zero.  The argument is an exact
    rational here; in the code it is the binary64 product of the patient
    count and [val_frac], rounded before it is truncated. *)
Definition py_int (x : Q) : Z := Z.quot (Qnum x) (Zpos (Qden x)).

Definition is_nan (o : option Z) : bool :=
  match o with None => true | Some _ => false end.

(** [df.READM.values] for rows [df] selected from the frame [frame]. *)
Definition readm_of (frame df : list labelled_row) : readm_values :=
  if existsb (fun r => is_nan (lr_readm r)) frame
  then FloatValues (map lr_readm df)
  else IntValues (flat_map (fun r => match lr_readm r with
                                     | Some z => [z]
                                     | None => []
                                     end) df).

(** [_dataframe_setup(nfp, rfp, split=False)], used for the test stage. *)
Definition dataframe_setup_test (text_df : list text_row) (readm : list (Z * Z))
  : res (list labelled_row * list (option Q)) :=
  let lt := labelled_text text_df readm in
  w <- _make_sample_weights (readm_of lt lt) ;;
  ret (lt, w).

(** [_dataframe_setup(nfp, rfp)], used for the fit stage: patients are
    split, never notes. *)
Definition dataframe_setup_fit (text_df : list text_row) (readm : list (Z * Z))
  : res (list labelled_row * list labelled_row * list (option Q)) :=
  let lt := labelled_text text_df readm in
  let all_patients := drop_duplicates (map lr_subject_id lt) in
  let n_val_patients := py_int (Np.qlen all_patients * val_frac) in
  (* random.sample refuses a negative or too large sample size *)
  if ((n_val_patients <? 0) || (Z.of_nat (length all_patients) <? n_val_patients))%Z
  then raise ValueError else
  let val_patients := sample all_patients (Z.to_nat n_val_patients) in
  let val_df := filter (fun r => zmem (lr_subject_id r) val_patients) lt in
  let train_df :=
    filter (fun r => negb (zmem (lr_subject_id r) (map lr_subject_id val_df))) lt in
  w <- _make_sample_weights (readm_of lt val_df) ;;
  ret (train_df, val_df, w).
End Setup.

(* --------------------------------------------------------------------- *)
(** *** [_aggreg_subseq_logits] *)

(** Float tensors of zero, one or two dimensions. *)
Inductive tval : Type :=
| TNum (q : Q)
| TVec (v : list Q)
| TMat (rows : list (list Q)).

(** The Python values the function handles: tensors, lists and
    dictionaries with string keys. *)
Inductive pval : Type :=
| VTensor (t : tval)
| VList (l : list pval)
| VDict (d : list (string * pval)).

(** The dictionary [test_step] returns for one batch (keys [loss],
    [logits], [labels] and [log]). *)
Definition test_step_output (loss : list Q) (logits : list (list Q)) (labels : list Z)
  : list (string * pval) :=
  [ ("loss"%string, VTensor (TVec loss));
    ("logits"%string, VTensor (TMat logits));
    ("labels"%string, VTensor (TVec (map inject_Z labels)));
    ("log"%string, VDict [("test_loss"%string, VTensor (TVec loss))]) ].

(** [o[s]] on a dictionary with string keys. *)
Definition str_getitem (o : list (string * pval)) (s : string) : res pval :=
  match dict_get String.eqb o s with
  | Some v => ret v
  | None => raise KeyError
  end.

(** [[o[s] for o in output_list]] *)
Fixpoint project (s : string) (output_list : list (list (string * pval)))
  : res (list pval) :=
  match output_list with
  | [] => ret []
  | o :: rest =>
      v <- str_getitem o s ;;
      vs <- project s rest ;;
      ret (v :: vs)
  end.

(** [x.shape]: only tensors have the attribute. *)
Definition py_shape (x : pval) : res (list nat) :=
  match x with
  | VTensor (TNum _) => ret []
  | VTensor (TVec v) => ret [length v]
  | VTensor (TMat rows) => ret [length rows; length (hd [] rows)]
  | VList _ | VDict _ => raise AttributeError
  end.

Definition tuple_get (t : list nat) (i : nat) : res nat :=
  match nth_error t i with
  | Some n => ret n
  | None => raise IndexError
  end.

(** [x[i,:]] *)
Definition index_row (x : pval) (i : nat) : res pval :=
  match x with
  | VTensor (TMat rows) =>
      match nth_error rows i with
      | Some r => ret (VTensor (TVec r))
      | None => raise IndexError
      end
  | VTensor _ => raise IndexError
  | VList _ => raise TypeError
  | VDict _ => raise KeyError
  end.

(** [x[:,j]] *)
Definition index_col (x : pval) (j : nat) : res (list Q) :=
  match x with
  | VTensor (TMat rows) =>
      if j <? length (hd [] rows)
      then ret (map (fun r => nth j r 0%Q) rows)
      else raise IndexError
  | VTensor _ => raise IndexError
  | VList _ => raise TypeError
  | VDict _ => raise KeyError
  end.

(** [x[j]], read as a number. *)
Definition index_num (x : pval) (j : nat) : res Q :=
  match x with
  | VTensor (TVec v) =>
      match nth_error v j with
      | Some q => ret q
      | None => raise IndexError
      end
  | VTensor (TNum _) => raise IndexError
  | VTensor (TMat _) => raise ValueError
  | VList _ => raise TypeError
  | VDict _ => raise KeyError
  end.

Definition qlist_eqb (a b : list Q) : bool :=
  (length a =? length b) && forallb (fun p => Qeq_bool (fst p) (snd p)) (combine a b).

Definition tval_eqb (s t : tval) : bool :=
  match s, t with
  | TNum a, TNum b => Qeq_bool a b
  | TVec a, TVec b => qlist_eqb a b
  | TMat a, TMat b =>
      (length a =? length b)
      && forallb (fun p => qlist_eqb (fst p) (snd p)) (combine a b)
  | _, _ => false
  end.

(** Dictionary keys are compared by value. *)
Fixpoint pval_eqb (a b : pval) {struct a} : bool :=
  match a, b with
  | VTensor s, VTensor t => tval_eqb s t
  | VList l, VList m =>
      (fix go (l m : list pval) {struct l} : bool :=
         match l, m with
         | [], [] => true
         | x :: l', y :: m' => pval_eqb x y && go l' m'
         | _, _ => false
         end) l m
  | VDict d, VDict e =>
      (fix go (d e : list (string * pval)) {struct d} : bool :=
         match d, e with
         | [], [] => true
         | (k, x) :: d', (k', y) :: e' => String.eqb k k' && pval_eqb x y && go d' e'
         | _, _ => false
         end) d e
  | _, _ => false
  end.

(** A key of [patient_logit_map]: one object, or the tuple that the
    subscript [patient_logit_map[patient, logits[i,:]]] builds. *)
Inductive key : Type :=
| KObj (p : pval)
| KPair (p q : pval).

Definition key_eqb (a b : key) : bool :=
  match a, b with
  | KObj p, KObj q => pval_eqb p q
  | KPair p1 p2, KPair q1 q2 => pval_eqb p1 q1 && pval_eqb p2 q2
  | _, _ => false
  end.

(** [torch.stack(x)] on a single argument: the entries along its first
    dimension are stacked again. *)
Definition torch_stack (x : pval) : res pval :=
  match x with
  | VTensor (TNum _) => raise TypeError
  | VTensor (TVec []) | VTensor (TMat []) => raise RuntimeError
  | VTensor t => ret (VTensor t)
  | VList _ | VDict _ => raise TypeError
  end.

Section Aggregate.
(** [self.proba_aggregation_scale_factor] *)
Variable scale_factor : Q.

(** [_scale]: the length-weighted blend of maximum and mean, in exact
    arithmetic; the code computes it in binary64 and rounds each step. *)
Definition _scale (logits : list Q) : res Q :=
  if Qeq_bool scale_factor 0 then raise ZeroDivisionError
  else
    let factor := (Np.qlen logits / scale_factor)%Q in
    m <- Np.max logits ;;
    ret ((m + Np.mean logits * factor) / (1 + factor))%Q.

Definition logit_map : Type := dict (K:=key) (V:=pval).

(** The body of the grouping loop over [zip(patient_ids, labels, range(...))]. *)
Definition logit_step (logits : pval) (st : logit_map * list pval)
    (it : pval * pval * nat) : res (logit_map * list pval) :=
  let '(patient_logit_map, label_list) := st in
  let '(patient, label, i) := it in
  match dict_get key_eqb patient_logit_map (KObj patient) with
  | None =>
      row <- index_row logits i ;;
      ret (dict_set key_eqb patient_logit_map (KObj patient) row, label_list ++ [label])
  | Some _ =>
      row <- index_row logits i ;;
      match dict_get key_eqb patient_logit_map (KPair patient row) with
      | None => raise KeyError
      | Some v =>
          stacked <- torch_stack v ;;
          ret (dict_set key_eqb patient_logit_map (KObj patient) stacked, label_list)
      end
  end.

(** [torch.cat((output_logits, column), dim=1)] *)
Definition cat_column (output_logits : list (list Q)) (column : list Q)
  : res (list (list Q)) :=
  if length output_logits =? length column
  then ret (Np.zip_with (fun r x => r ++ [x]) output_logits column)
  else raise RuntimeError.

(** The body of the loop over [patient_logit_map.values()], for class [j];
    [output_logits] is [None] while the name is unbound. *)
Definition column_step (j : nat) (st : list Q * option (list (list Q)))
    (_logits : pval) : res (list Q * option (list (list Q))) :=
  let '(out_logit_list, output_logits) := st in
  x <- try_except (c <- index_col _logits j ;; _scale c)
                  IndexError (index_num _logits j) ;;
  let out_logit_list := out_logit_list ++ [x] in
  let column := map (fun q => [q]) out_logit_list in
  match output_logits with
  | Some ol =>
      ol' <- cat_column ol out_logit_list ;;
      ret (out_logit_list, Some ol')
  | None => ret (out_logit_list, Some column)
  end.

Definition class_step (values : list pval) (output_logits : option (list (list Q)))
    (j : nat) : res (option (list (list Q))) :=
  st <- for_each (column_step j) values ([], output_logits) ;;
  ret (snd st).

Definition _aggreg_subseq_logits (output_list : list (list (string * pval)))
  : res (list (list Q) * list pval) :=
  logits <- project "logits" output_list ;;
  labels <- project "labels" output_list ;;
  patient_ids <- project "patient_ids" output_list ;;
  let logits := VList logits in
  sh <- py_shape logits ;;
  n <- tuple_get sh 0 ;;
  st <- for_each (logit_step logits)
          (zip3 patient_ids labels (seq 0 n)) ([], []) ;;
  sh <- py_shape logits ;;
  c <- tuple_get sh 1 ;;
  output_logits <- for_each (class_step (dict_values (fst st))) (seq 0 c) None ;;
  match output_logits with
  | None => raise NameError
  | Some ol => ret (ol, snd st)
  end.
End Aggregate.

End Bert.

(* ===================================================================== *)
(** ** The [W2VEmbedAggregate] object: [__init__], [set_params], [fit] *)
(* ===================================================================== *)

Module Aggregator.

Import Dict.

(** The values the object's [__dict__] holds. *)
Inductive attr_value : Type :=
| AInt (z : Z)
| ANum (q : Q)
| AIds (l : list string)
| ANames (l : list string).

Definition obj : Type := dict (K:=string) (V:=attr_value).

(** [__init__]: the two attributes it assigns; keyword arguments are
    accepted and dropped. *)
Definition __init__ (patient_ids : list string) (kwargs : list (string * attr_value)) : obj :=
  [ ("patient_ids"%string, AIds patient_ids);
    ("arg_names"%string,
     ANames ["sg"; "size"; "window"; "min_count"; "alpha"; "iter"; "workers"]%string) ].

(** [self.arg_names], as the membership tests read it. *)
Definition self_arg_names (self : obj) : res (list string) :=
  match dict_get String.eqb self "arg_names"%string with
  | Some (ANames l) => ret l
  | Some (AIds l) => ret l
  | Some _ => raise TypeError
  | None => raise AttributeError
  end.

(** [self.__dict__.update(pairs)] *)
Definition dict_update (self : obj) (pairs : list (string * attr_value)) : obj :=
  fold_left (fun d kv => dict_set String.eqb d (fst kv) (snd kv)) pairs self.

Definition allowed (names : list string) (kv : string * attr_value) : bool :=
  existsb (String.eqb (fst kv)) names.

(** [set_params]: [self.__dict__.update((k, v) for k, v in kwargs.items()
    if k in self.arg_names)]; the generator is consumed pair by pair, so
    [self.arg_names] is read once per keyword argument. *)
Definition set_param (self : obj) (kv : string * attr_value) : res obj :=
  names <- self_arg_names self ;;
  if allowed names kv then ret (dict_set String.eqb self (fst kv) (snd kv))
  else ret self.

Definition set_params (self : obj) (kwargs : list (string * attr_value)) : res obj :=
  for_each set_param kwargs self.

(** The keyword arguments [fit] hands to [Word2Vec]: the entries of
    [__dict__] whose name is in [self.arg_names]. *)
Definition fit_kwargs (self : obj) : res (list (string * attr_value)) :=
  match self with
  | [] => ret []
  | _ => names <- self_arg_names self ;;
         ret (filter (allowed names) self)
  end.

End Aggregator.

(* ===================================================================== *)
(** ** The components of the grid search in [choose_params] *)
(* ===================================================================== *)

Module GridSearch.

Import Dict.

(** Values of the keyword arguments in the constructor calls. *)
Inductive arg : Type :=
| ArgInt (z : Z)
| ArgBool (b : bool).

(** What [choose_params] builds before it starts the search (lines
    166-189): the aggregator, and the keyword arguments of the classifier
    and of the cross-validation splitter. *)
Record search : Type := {
  embed_agg : Aggregator.obj;
  clf_kwargs : list (string * arg);
  cv_kwargs : list (string * arg)
}.

(** [W2VEmbedAggregate(patient_ids=self.train_patient_ids)],
    [SGDClassifier(random_state=self.seed)] and
    [StratifiedKFold(n_splits=5, shuffle=True, random_state=self.seed)]. *)
Definition build_search (seed : Z) (train_patient_ids : list string) : search :=
  {| embed_agg := Aggregator.__init__ train_patient_ids [];
     clf_kwargs := [ ("random_state"%string, ArgInt seed) ];
     cv_kwargs := [ ("n_splits"%string, ArgInt 5); ("shuffle"%string, ArgBool true);
                    ("random_state"%string, ArgInt seed) ] |}.

End GridSearch.

(* ===================================================================== *)
(** ** The arrays [_load_data] computes before it builds its result *)
(* ===================================================================== *)

Module Loader.

Import Dict W2V.

Section Arrays.
Variable word_tokenize : string -> list string.
Variables st_aug db : bool.

(** The label table restricted to the loaded patients (line 126). *)
Definition kept_table (readm_df : readm_table) (patient_ids : list string) : readm_table :=
  filter (fun e => mem (fst e) patient_ids) readm_df.

(** [readm_ordering_map] (lines 128-130). *)
Definition ordering_map (readm_df : readm_table) : dict (K:=string) (V:=Z) :=
  fold_left (fun d e => dict_set String.eqb d (fst e) (snd e)) readm_df [].

(** [patient_ids], [text], [labels] and [gridsearch_labels] as they stand
    when [_load_data] reaches its [tuple] call. *)
Definition loaded_arrays (corpus_df : list chunk) (readm_df : readm_table)
  : res (list string * list (list string) * list Z * list Z) :=
  let '(patient_ids, text) := load_chunks word_tokenize st_aug db readm_df corpus_df ([], []) in
  let kept := kept_table readm_df patient_ids in
  labels <- ordered_labels (map fst kept) (map snd kept) (unique_ids patient_ids) ;;
  ret (patient_ids, text, labels,
       gridsearch_labels_of (ordering_map kept) patient_ids).
End Arrays.

End Loader.

(* ===================================================================== *)
(** ** The predictor object: [__init__], [configure_optimizers],
       [test_epoch_end] *)
(* ===================================================================== *)

Module Predictor.

Import Dict.

(** Attribute values of the predictor. *)
Inductive pyv : Type :=
| PVStr (s : string)
| PVNum (q : Q)
| PVInt (z : Z)
| PVBool (b : bool)
| PVNone.

Definition attrs : Type := dict (K:=string) (V:=pyv).

(** [params]: the keyword arguments [__init__] accepts. *)
Definition params : list string :=
  [ "n_train_fp"; "r_train_fp"; "n_test_fp"; "r_test_fp";
    "val_frac"; "batch_size"; "threads"; "optimiser";
    "bert_model"; "txtvar"; "sequence_len"; "st_aug"; "proba_aggregation_scale_factor";
    "db";
    "write_test_results_to"; "write_dev_results_to";
    "update_all_params";
    "verbose" ]%string.

(** The default arguments, in the order of the assignments;
    [num_threads] is [torch.get_num_threads()]. *)
Definition defaults (num_threads : Z) : attrs :=
  [ ("optimiser"%string, PVStr "sgd"%string);
    ("threads"%string, PVInt num_threads);
    ("proba_aggregation_scale_factor"%string, PVNum 2);
    ("sequence_len"%string, PVInt 256);
    ("db"%string, PVBool false);
    ("write_test_results_to"%string, PVNone);
    ("update_all_params"%string, PVBool false);
    ("verbose"%string, PVBool false) ].

(** [self.__dict__.update((k, v) for k, v in kwargs.items() if k in params)] *)
Definition load_kwargs (self : attrs) (kwargs : list (string * pyv)) : attrs :=
  fold_left (fun d kv => dict_set String.eqb d (fst kv) (snd kv))
            (filter (fun kv => existsb (String.eqb (fst kv)) params) kwargs) self.

(** [self.name]: [AttributeError] while the attribute does not exist. *)
Definition getattr (self : attrs) (name : string) : res pyv :=
  match dict_get String.eqb self name with
  | Some v => ret v
  | None => raise AttributeError
  end.

(** Python truth value. *)
Definition truthy (v : pyv) : bool :=
  match v with
  | PVStr s => negb (String.eqb s EmptyString)
  | PVNum q => negb (Qeq_bool q 0)
  | PVInt z => negb (z =? 0)%Z
  | PVBool b => b
  | PVNone => false
  end.

(** Release versions compared as [parse_version] does: number by number. *)
Fixpoint version_lt (a b : list nat) : bool :=
  match a, b with
  | [], [] => false
  | [], y :: b' => (0 <? y) || ((0 =? y) && version_lt [] b')
  | x :: a', [] => false
  | x :: a', y :: b' => (x <? y) || ((x =? y) && version_lt a' b')
  end.

(** The predictor after construction: the attributes assigned from the
    defaults and the keyword arguments (the object also holds [model],
    [loss], [metrics] and [metric_names], which no statement below reads
    by name), and the named parameters of its model. *)
Record predictor : Type := {
  self_attrs : attrs;
  model_parameters : list Bert.named_parameter
}.

Section Init.
(** [pl.__version__] and [torch.get_num_threads()]. *)
Variable pl_version : list nat.
Variable num_threads : Z.
(** [BertForSequenceClassification.from_pretrained], giving the named
    parameters of the loaded model, and [self.save_hyperparameters]; both
    external. *)
Variable from_pretrained : pyv -> res (list Bert.named_parameter).
Variable save_hyperparameters : list (string * pyv) -> res unit.

Definition __init__ (kwargs : list (string * pyv)) : res predictor :=
  if version_lt pl_version [0; 8; 1] then raise RuntimeError
  else
    let self := load_kwargs (defaults num_threads) kwargs in
    bert_model <- getattr self "bert_model"%string ;;
    model <- from_pretrained bert_model ;;
    update_all_params <- getattr self "update_all_params"%string ;;
    let model := Bert.freeze_embeddings (truthy update_all_params) model in
    _ <- save_hyperparameters kwargs ;;
    ret {| self_attrs := self; model_parameters := model |}.
End Init.

(** What [configure_optimizers] returns. *)
Inductive optimizers : Type :=
| SGD_CyclicLR (lr momentum : pyv) (base_lr : Q) (max_lr : pyv)
| AdamW (lr : pyv).

Definition is_str (v : pyv) (s : string) : bool :=
  match v with PVStr t => String.eqb t s | _ => false end.

(** [configure_optimizers]; [hparams] is [self.hparams]. *)
Definition configure_optimizers (self hparams : attrs) : res optimizers :=
  optimiser <- getattr self "optimiser"%string ;;
  if is_str optimiser "sgd"%string then
    lr <- getattr hparams "lr"%string ;;
    momentum <- getattr hparams "momentum"%string ;;
    max_lr <- getattr hparams "lr"%string ;;
    ret (SGD_CyclicLR lr momentum (1 # 100000000) max_lr)
  else if is_str optimiser "adam"%string then
    lr <- getattr self "lr"%string ;;
    ret (AdamW lr)
  else raise NameError.

(** [torch.cat([...])] of the per-batch loss tensors, then [.mean()]:
    an empty list, a 0-d tensor or tensors of different rank raise. *)
Fixpoint cat_vectors (ts : list Bert.pval) : res (list Q) :=
  match ts with
  | [] => ret []
  | Bert.VTensor (Bert.TVec v) :: rest =>
      vs <- cat_vectors rest ;; ret (v ++ vs)
  | Bert.VTensor _ :: _ => raise RuntimeError
  | _ :: _ => raise TypeError
  end.

Definition cat_mean (ts : list Bert.pval) : res Q :=
  match ts with
  | [] => raise RuntimeError
  | _ => v <- cat_vectors ts ;; ret (Np.mean v)
  end.

Section TestEpochEnd.
Variable scale_factor : Q.
(** The metric computation and the report that follow the aggregation. *)
Context {Report : Type}.
Variable score_and_report : Q -> list (list Q) * list Bert.pval -> res Report.

Definition test_epoch_end (outputs : list (list (string * Bert.pval))) : res Report :=
  losses <- Bert.project "loss"%string outputs ;;
  loss <- cat_mean losses ;;
  aggregated <- Bert._aggreg_subseq_logits scale_factor outputs ;;
  score_and_report loss aggregated.
End TestEpochEnd.

End Predictor.

(* ===================================================================== *)
(** ** Concrete inputs *)
(* ===================================================================== *)

Module Examples.

Local Open Scope string_scope.

(** A two-dimensional embedding that knows the words [fever] and [cough]. *)
Definition toy_wv : W2V.KeyedVectors :=
  {| W2V.vector_size := 2;
     W2V.vocab := fun w =>
       if String.eqb w "fever" then Some [1%Q; 4%Q]
       else if String.eqb w "cough" then Some [3%Q; 2%Q]
       else None |}.

(** Two notes; the second has no word of the vocabulary. *)
Definition toy_text : list (list string) :=
  [ ["fever"; "and"; "cough"]; ["unremarkable"] ].

(** Note vectors as [transform] produces them for [vector_size = 1]:
    three entries each. *)
Definition note_a : Np.vec := [1%Q; 2%Q; 3%Q].
Definition note_b : Np.vec := [3%Q; 4%Q; 5%Q].

(** A tokenizer for a sequence budget of four: the primary window holds
    the tokens 101, 11, 12, 102; the overflow is handed over as given. *)
Definition window4 (overflow : option Bert.overflow_val) : string -> nat -> Bert.encoding :=
  fun _ _ =>
    {| Bert.enc_input_ids := Bert.T2 4 [[101; 11; 12; 102]%Z];
       Bert.enc_attention_mask := Bert.T2 4 [[1; 1; 1; 1]%Z];
       Bert.overflowing_tokens := overflow |}.

(** A note of one patient, labelled as readmitted. *)
Definition one_note : list Bert.df_row := [ (7%Z, "long note", 1%Z) ].

(** Overflows of two, four and eight tokens, as a tensor with a leading
    batch axis (what [return_tensors='pt'] produces), and the two-token
    overflow as a 1-D tensor and as a plain list. *)
Definition overflow2 : Bert.overflow_val := Bert.OvTensor (Bert.T2 2 [[13; 14]%Z]).
Definition overflow4 : Bert.overflow_val :=
  Bert.OvTensor (Bert.T2 4 [[13; 14; 15; 16]%Z]).
Definition overflow8 : Bert.overflow_val :=
  Bert.OvTensor (Bert.T2 8 [[13; 14; 15; 16; 17; 18; 19; 20]%Z]).
Definition overflow2_flat : Bert.overflow_val := Bert.OvTensor (Bert.T1 [13; 14]%Z).
Definition overflow2_list : Bert.overflow_val := Bert.OvList [13; 14]%Z.

(** The dataset built from [one_note] when the overflow is [overflow4]. *)
Definition two_units : Bert.EncodedDataset :=
  {| Bert.input_ids := [ Bert.T1 [101; 11; 12; 102]%Z;
                         Bert.T2 4 [[13; 14; 15; 16]%Z] ];
     Bert.attn_masks := [ Bert.T1 [1; 1; 1; 1]%Z; Bert.T1 [1; 1; 1; 1]%Z ];
     Bert.labels := [1; 1]%Z;
     Bert.patient_ids := [7; 7]%Z |}.

(** A validation epoch of two batches in which every label is 1, and one
    in which every label is 0. *)
Definition all_readmitted : list Bert.val_output :=
  [ {| Bert.vo_loss := [(3 # 10)%Q; (1 # 5)%Q];
       Bert.vo_predictions := [1; 0]%Z; Bert.vo_labels := [1; 1]%Z |};
    {| Bert.vo_loss := [(1 # 2)%Q];
       Bert.vo_predictions := [1]%Z; Bert.vo_labels := [1]%Z |} ].
Definition none_readmitted : list Bert.val_output :=
  [ {| Bert.vo_loss := [(3 # 10)%Q; (1 # 5)%Q];
       Bert.vo_predictions := [1; 0]%Z; Bert.vo_labels := [0; 0]%Z |} ].

(** Two patients with one note each; only patient 1 has a row in the
    label table. *)
Definition two_patients : list Bert.text_row :=
  [ {| Bert.tr_subject_id := 1; Bert.tr_text := "note of patient 1";
       Bert.tr_semtypes := None |};
    {| Bert.tr_subject_id := 2; Bert.tr_text := "note of patient 2";
       Bert.tr_semtypes := None |} ].
Definition labels_for_one : list (Z * Z) := [ (1%Z, 1%Z) ].

(** The same corpus and label table as the Word2Vec loader reads them. *)
Definition two_patients_chunk : W2V.chunk :=
  [ {| W2V.subject_id := "1"; W2V.txt := Some "note of patient 1";
       W2V.semtypes := None |};
    {| W2V.subject_id := "2"; W2V.txt := Some "note of patient 2";
       W2V.semtypes := None |} ].
Definition readm_for_one : W2V.readm_table := [ ("1", 1%Z) ].

(** [random.sample] stand-in: the first [n] patients. *)
Definition first_patients (l : list Z) (n : nat) : list Z := firstn n l.

(** Parameter names as [BertForSequenceClassification.named_parameters()]
    yields them: the encoder stack, embeddings included, sits under the
    attribute [bert], the classification head under [classifier]. *)
Definition bert_named_parameters : list Bert.named_parameter :=
  [ ("bert.embeddings.word_embeddings.weight", true);
    ("bert.embeddings.position_embeddings.weight", true);
    ("bert.embeddings.token_type_embeddings.weight", true);
    ("bert.embeddings.LayerNorm.weight", true);
    ("bert.embeddings.LayerNorm.bias", true);
    ("bert.encoder.layer.0.attention.self.query.weight", true);
    ("bert.pooler.dense.weight", true);
    ("classifier.weight", true);
    ("classifier.bias", true) ].

(** Names as a bare encoder would yield them, without the [bert.] prefix. *)
Definition bare_named_parameters : list Bert.named_parameter :=
  [ ("embeddings.word_embeddings.weight", true);
    ("encoder.layer.0.attention.self.query.weight", true) ].

(** The output of [test_step] for one batch holding one Unit with two
    class logits. *)
Definition one_unit_batch : list (string * Bert.pval) :=
  Bert.test_step_output [(7 # 10)%Q] [[(1 # 5)%Q; (4 # 5)%Q]] [1%Z].

End Examples.

(* ===================================================================== *)
(** ** Predicates on datasets and labels *)
(* ===================================================================== *)

Module Shape.

(** The Units carry patient ids and labels of dataframe rows. *)
Definition inherits (df : list Bert.df_row) (ds : Bert.EncodedDataset) : Prop :=
  length (Bert.patient_ids ds) = length (Bert.labels ds) /\
  Forall (fun pl => exists note, In (fst pl, note, snd pl) df)
         (combine (Bert.patient_ids ds) (Bert.labels ds)).

(** An attention mask: a 1-D tensor of [seq_len] entries. *)
Definition mask_ok (seq_len : nat) (m : Bert.tensor) : Prop :=
  exists v, m = Bert.T1 v /\ length v = seq_len.

(** Token ids: [seq_len] entries, or rows of [seq_len] columns. *)
Definition ids_ok (seq_len : nat) (t : Bert.tensor) : Prop :=
  match t with
  | Bert.T1 v => length v = seq_len
  | Bert.T2 c _ => c = seq_len
  end.

(** Labels are 0 or 1. *)
Definition binary (labels : list Z) : Prop :=
  Forall (fun l => l = 0%Z \/ l = 1%Z) labels.

End Shape.

(* ===================================================================== *)
(** ** Further concrete inputs *)
(* ===================================================================== *)

Module Fixtures.

Local Open Scope string_scope.

(** Keyword arguments as the grid search passes them, with one name that
    is not a Word2Vec argument. *)
Definition grid_point : list (string * Aggregator.attr_value) :=
  [ ("sg", Aggregator.AInt 1); ("size", Aggregator.AInt 100);
    ("seed", Aggregator.AInt 7); ("alpha", Aggregator.ANum (1 # 1000)) ].

(** A corpus of three notes, two of them of patient 7, read in two
    chunks, and a label table without duplicate patients. *)
Definition corpus_chunks : list W2V.chunk :=
  [ [ {| W2V.subject_id := "7"; W2V.txt := Some "first note"; W2V.semtypes := None |};
      {| W2V.subject_id := "8"; W2V.txt := None; W2V.semtypes := None |} ];
    [ {| W2V.subject_id := "7"; W2V.txt := Some "second note"; W2V.semtypes := None |} ] ].
Definition label_table : W2V.readm_table := [ ("7", 1%Z); ("8", 0%Z) ].

(** A whitespace-free stand-in for the tokenizer: the note as one token. *)
Definition one_token (note : string) : list string := [note].

(** Three notes of width three, two of them of patient 7, with
    note-level labels; and two notes of width two. *)
Definition three_ids : list string := ["7"; "8"; "7"].
Definition three_vectors : Np.mat :=
  [ [1; 2; 3]%Q; [3; 4; 5]%Q; [0; 0; 0]%Q ].
Definition three_labels : list Z := [1; 0; 1]%Z.
Definition pair_first : Np.vec := [1; 2]%Q.
Definition pair_rest : Np.mat := [ [3; 4]%Q ].

(** A tokenizer for a sequence budget of four that pads short notes and
    never reports an overflow, and a corpus of two notes. *)
Definition short_notes (note : string) (seq_len : nat) : Bert.encoding :=
  {| Bert.enc_input_ids := Bert.T2 4 [[101; Z.of_nat (String.length note); 102; 0]%Z];
     Bert.enc_attention_mask := Bert.T2 4 [[1; 1; 1; 0]%Z];
     Bert.overflowing_tokens := None |}.
Definition two_notes : list Bert.df_row :=
  [ (7%Z, "fever", 1%Z); (8%Z, "no complaints", 0%Z) ].

(** A validation epoch with both classes present, and two metrics. *)
Definition mixed_epoch : list Bert.val_output :=
  [ {| Bert.vo_loss := [(3 # 10)%Q; (1 # 5)%Q];
       Bert.vo_predictions := [1; 0]%Z; Bert.vo_labels := [1; 0]%Z |};
    {| Bert.vo_loss := [(1 # 2)%Q];
       Bert.vo_predictions := [1]%Z; Bert.vo_labels := [1]%Z |} ].
Definition agreement (predictions labels : list Z) : Q :=
  Np.qlen (filter (fun pl => (fst pl =? snd pl)%Z) (combine predictions labels))
  / Np.qlen labels.
Definition two_metrics : list (string * (list Z -> list Z -> Q)) :=
  [ ("acc", agreement); ("prec", agreement) ].

(** Three notes of two patients, and a label for each patient. *)
Definition three_notes : list Bert.text_row :=
  [ {| Bert.tr_subject_id := 1; Bert.tr_text := "first note of patient 1";
       Bert.tr_semtypes := None |};
    {| Bert.tr_subject_id := 2; Bert.tr_text := "note of patient 2";
       Bert.tr_semtypes := None |};
    {| Bert.tr_subject_id := 1; Bert.tr_text := "second note of patient 1";
       Bert.tr_semtypes := None |} ].
Definition labels_for_both : list (Z * Z) := [ (1%Z, 1%Z); (2%Z, 0%Z) ].

(** Keyword arguments for the predictor, with a learning rate, an epoch
    count and a misspelt option that the constructor does not accept. *)
Definition predictor_kwargs : list (string * Predictor.pyv) :=
  [ ("bert_model", Predictor.PVStr "bert-base-uncased");
    ("txtvar", Predictor.PVStr "TEXT");
    ("optimiser", Predictor.PVStr "adam");
    ("lr", Predictor.PVNum (1 # 1000));
    ("epochs", Predictor.PVInt 3);
    ("sequence_length", Predictor.PVInt 128) ].

(** Stand-ins for the external calls of the constructor: loading always
    yields the parameters of the sequence classifier, saving the
    hyperparameters always succeeds. *)
Definition load_bert (name : Predictor.pyv) : res (list Bert.named_parameter) :=
  inr Examples.bert_named_parameters.
Definition save_ok (kwargs : list (string * Predictor.pyv)) : res unit := inr tt.

(** A tokenizer for a sequence budget of four that hands the overflow
    over as a plain list of three token ids. *)
Definition list_overflow (note : string) (seq_len : nat) : Bert.encoding :=
  {| Bert.enc_input_ids := Bert.T2 4 [[101; 11; 12; 102]%Z];
     Bert.enc_attention_mask := Bert.T2 4 [[1; 1; 1; 1]%Z];
     Bert.overflowing_tokens := Some (Bert.OvList [13; 14; 15]%Z) |}.

End Fixtures.

(* ===================================================================== *)
(** * Properties *)
(* ===================================================================== *)

Import Np Dict.

(** ** The result monad and loops *)

Lemma raises_not_returns {A} (c : res A) : raises c -> ~ returns c.
Proof. intros [e He] [a Ha]. congruence. Qed.

Lemma bind_inr {A B} (c : res A) (k : A -> res B) b :
  bind c k = inr b -> exists a, c = inr a /\ k a = inr b.
Proof. destruct c as [e|a]; simpl; [discriminate | eauto]. Qed.

(** An invariant kept by every successful iteration holds after a
    successful loop. *)
Lemma for_each_invariant {A S} (I : S -> Prop) (body : S -> A -> res S) :
  (forall s x s', I s -> body s x = inr s' -> I s') ->
  forall xs s s', I s -> for_each body xs s = inr s' -> I s'.
Proof.
  intros Hstep xs. induction xs as [|x xs IH]; simpl; intros s s' Hs Hrun.
  - injection Hrun as <-. exact Hs.
  - apply bind_inr in Hrun as (s1 & H1 & H2). eauto.
Qed.

(** ** Reductions along axis 0 *)

Lemma zip_with_length {A B C} (f : A -> B -> C) xs ys :
  length (zip_with f xs ys) = Nat.min (length xs) (length ys).
Proof.
  revert ys. induction xs as [|x xs IH]; intros [|y ys]; simpl; auto.
Qed.

Lemma zip_with_nth (f : Q -> Q -> Q) xs ys j :
  j < length xs -> j < length ys ->
  nth j (zip_with f xs ys) 0%Q = f (nth j xs 0%Q) (nth j ys 0%Q).
Proof.
  revert ys j. induction xs as [|x xs IH]; intros [|y ys] [|j]; simpl; intros; try lia; auto.
  apply IH; lia.
Qed.

Lemma reduce0_length f r rs d :
  length r = d -> Forall (fun x => length x = d) rs -> length (reduce0 f r rs) = d.
Proof.
  unfold reduce0. intros Hr Hrs. revert r Hr.
  induction Hrs as [|x rs Hx _ IH]; simpl; intros r Hr; auto.
  apply IH. rewrite zip_with_length. lia.
Qed.

(** Entry [j] of a reduction is the fold of [f] down column [j]. *)
Lemma reduce0_nth f r rs d j :
  length r = d -> Forall (fun x => length x = d) rs -> j < d ->
  nth j (reduce0 f r rs) 0%Q = fold_left f (column j rs) (nth j r 0%Q).
Proof.
  unfold reduce0. intros Hr Hrs Hj. revert r Hr.
  induction Hrs as [|x rs Hx _ IH]; simpl; intros r Hr; auto.
  rewrite IH by (rewrite zip_with_length; lia).
  rewrite zip_with_nth by lia. reflexivity.
Qed.

Lemma mean0_length r rs d :
  length r = d -> Forall (fun x => length x = d) rs -> length (mean0 r rs) = d.
Proof. intros. unfold mean0. rewrite length_map. now apply reduce0_length. Qed.

Lemma mean0_nth r rs d j :
  length r = d -> Forall (fun x => length x = d) rs -> j < d ->
  nth j (mean0 r rs) 0%Q
  = (fold_left Qplus (column j rs) (nth j r 0%Q) / qlen (r :: rs))%Q.
Proof.
  intros Hr Hrs Hj. unfold mean0.
  rewrite nth_indep with (d' := (0 / qlen (r :: rs))%Q)
    by (rewrite length_map, (reduce0_length _ _ _ d); auto).
  rewrite (map_nth (fun s => (s / qlen (r :: rs))%Q)).
  now rewrite (reduce0_nth _ _ _ d).
Qed.

Lemma assign_row_length width value row :
  assign_row width value = inr row -> length row = width.
Proof.
  destruct value as [q|v]; simpl.
  - intros [= <-]. apply repeat_length.
  - destruct (Nat.eqb_spec (length v) width) as [E|E].
    + now intros [= <-].
    + destruct v as [|q [|? ?]]; try discriminate.
      intros [= <-]. apply repeat_length.
Qed.

Lemma assign_row_exact width v :
  length v = width -> assign_row width (NVec v) = inr v.
Proof. intros E. simpl. now rewrite (proj2 (Nat.eqb_eq _ _) E). Qed.

(** ** [W2VEmbedAggregate.transform] *)

Lemma collect_vectors_resolved wv note acc :
  W2V.collect_vectors wv note acc = inr (acc ++ W2V.resolved wv note).
Proof.
  revert acc. induction note as [|w note IH]; intros acc; simpl.
  - now rewrite app_nil_r.
  - unfold W2V.wv_getitem. destruct (W2V.vocab wv w) as [v|]; simpl.
    + rewrite IH. now rewrite <- app_assoc.
    + apply IH.
Qed.

Lemma resolved_wf wv note :
  W2V.wf_embedding wv ->
  Forall (fun v => length v = W2V.vector_size wv) (W2V.resolved wv note).
Proof.
  intros Hwf. unfold W2V.resolved. apply Forall_flat_map.
  apply Forall_forall. intros w _.
  destruct (W2V.vocab wv w) as [v|] eqn:E; constructor; eauto.
Qed.

Lemma transform_row_spec wv note :
  W2V.wf_embedding wv -> W2V.transform_row wv note = inr (W2V.note_row wv note).
Proof.
  intros Hwf. unfold W2V.transform_row, W2V.note_row.
  rewrite collect_vectors_resolved. cbn [bind app].
  pose proof (resolved_wf wv note Hwf) as Hall.
  replace (3 * W2V.vector_size wv) with (W2V.vector_size wv * 3) by lia.
  destruct (W2V.resolved wv note) as [|r rs]; cbn [length Nat.eqb].
  - apply assign_row_exact, repeat_length.
  - inversion Hall as [|? ? Hr Hrs]; subst.
    unfold W2V.reshape_rows. cbn [forallb].
    rewrite Hr, Nat.eqb_refl. cbn [andb].
    replace (forallb _ rs) with true.
    2:{ symmetry. apply forallb_forall. intros x Hx.
        rewrite Forall_forall in Hrs. apply Nat.eqb_eq. auto. }
    cbn [bind W2V._concat_aggreg]. apply assign_row_exact.
    rewrite !length_app, (mean0_length _ _ (W2V.vector_size wv)) by auto.
    unfold max0, min0.
    rewrite !(reduce0_length _ _ _ (W2V.vector_size wv)) by auto. lia.
Qed.

Lemma note_row_length wv note :
  W2V.wf_embedding wv -> length (W2V.note_row wv note) = 3 * W2V.vector_size wv.
Proof.
  intros Hwf. unfold W2V.note_row.
  pose proof (resolved_wf wv note Hwf) as Hall.
  destruct (W2V.resolved wv note) as [|r rs].
  - apply repeat_length.
  - inversion Hall; subst.
    rewrite !length_app, (mean0_length _ _ (W2V.vector_size wv)) by auto.
    unfold max0, min0.
    rewrite !(reduce0_length _ _ _ (W2V.vector_size wv)) by auto. lia.
Qed.

Lemma transform_map wv text :
  W2V.wf_embedding wv -> W2V.transform wv text = inr (map (W2V.note_row wv) text).
Proof.
  intros Hwf. induction text as [|note text IH]; simpl; auto.
  rewrite transform_row_spec by auto. simpl. now rewrite IH.
Qed.

(** C4. For a corpus of N tokenized notes and an embedding whose vectors
    all have [vector_size] entries, [transform] returns (it never raises)
    a matrix with exactly N rows of [3 * vector_size] entries.  Tokens
    outside the vocabulary contribute nothing; a note in which no token
    resolves gives the zero row; any other note gives the entrywise mean,
    then the entrywise max, then the entrywise min of its resolved token
    vectors. *)
Theorem transform_row_alignment (wv : W2V.KeyedVectors) (text : list (list string)) :
  W2V.wf_embedding wv ->
  exists X,
    W2V.transform wv text = inr X /\
    length X = length text /\
    Forall (fun row => length row = 3 * W2V.vector_size wv) X /\
    forall i note, nth_error text i = Some note ->
      exists row, nth_error X i = Some row /\
        match W2V.resolved wv note with
        | [] => row = zeros (3 * W2V.vector_size wv)
        | r :: rs =>
            row = mean0 r rs ++ max0 r rs ++ min0 r rs /\
            forall j, j < W2V.vector_size wv ->
              nth j row 0%Q
              = (fold_left Qplus (column j rs) (nth j r 0%Q) / qlen (r :: rs))%Q /\
              nth (W2V.vector_size wv + j) row 0%Q
              = fold_left Qmax (column j rs) (nth j r 0%Q) /\
              nth (2 * W2V.vector_size wv + j) row 0%Q
              = fold_left Qmin (column j rs) (nth j r 0%Q)
        end.
Proof.
  intros Hwf. exists (map (W2V.note_row wv) text).
  split; [now apply transform_map|].
  split; [apply length_map|].
  split.
  { apply Forall_forall. intros row Hin. apply in_map_iff in Hin as (note & <- & _).
    now apply note_row_length. }
  intros i note Hi. exists (W2V.note_row wv note). split.
  { rewrite nth_error_map, Hi. reflexivity. }
  unfold W2V.note_row.
  pose proof (resolved_wf wv note Hwf) as Hall.
  destruct (W2V.resolved wv note) as [|r rs]; [reflexivity|].
  inversion Hall as [|? ? Hr Hrs]; subst.
  split; [reflexivity|]. intros j Hj.
  set (d := W2V.vector_size wv) in *.
  assert (Lmean : length (mean0 r rs) = d) by now apply mean0_length.
  assert (Lmax : length (max0 r rs) = d) by now apply reduce0_length.
  repeat split.
  - rewrite app_nth1 by lia. now apply (mean0_nth r rs d).
  - rewrite app_nth2 by lia. rewrite app_nth1 by lia.
    replace (d + j - length (mean0 r rs)) with j by lia.
    now apply (reduce0_nth Qmax r rs d).
  - rewrite app_nth2 by lia. rewrite app_nth2 by lia.
    replace (2 * d + j - length (mean0 r rs) - length (max0 r rs)) with j by lia.
    now apply (reduce0_nth Qmin r rs d).
Qed.

Lemma toy_wv_wf : W2V.wf_embedding Examples.toy_wv.
Proof.
  intros w v. unfold Examples.toy_wv. simpl.
  destruct (String.eqb w "fever"); [intros [= <-]; reflexivity|].
  destruct (String.eqb w "cough"); [intros [= <-]; reflexivity|].
  discriminate.
Defined.

Lemma transform_row_alignment_witness :
  W2V.wf_embedding Examples.toy_wv /\
  exists X,
    W2V.transform Examples.toy_wv Examples.toy_text = inr X /\
    length X = length Examples.toy_text /\
    Forall (fun row => length row = 3 * W2V.vector_size Examples.toy_wv) X /\
    forall i note, nth_error Examples.toy_text i = Some note ->
      exists row, nth_error X i = Some row /\
        match W2V.resolved Examples.toy_wv note with
        | [] => row = zeros (3 * W2V.vector_size Examples.toy_wv)
        | r :: rs =>
            row = mean0 r rs ++ max0 r rs ++ min0 r rs /\
            forall j, j < W2V.vector_size Examples.toy_wv ->
              nth j row 0%Q
              = (fold_left Qplus (column j rs) (nth j r 0%Q) / qlen (r :: rs))%Q /\
              nth (W2V.vector_size Examples.toy_wv + j) row 0%Q
              = fold_left Qmax (column j rs) (nth j r 0%Q) /\
              nth (2 * W2V.vector_size Examples.toy_wv + j) row 0%Q
              = fold_left Qmin (column j rs) (nth j r 0%Q)
        end.
Proof.
  split; [exact toy_wv_wf|].
  apply (transform_row_alignment Examples.toy_wv Examples.toy_text).
  exact toy_wv_wf.
Defined.

(** The two rows of the example: mean, max, min of the two resolved
    vectors, and the zero row. *)
Example transform_toy_rows :
  W2V.transform Examples.toy_wv Examples.toy_text
  = inr [ [ (1 + 3) / 2; (4 + 2) / 2; Qmax 1 3; Qmax 4 2; Qmin 1 3; Qmin 4 2 ]%Q;
          [ 0; 0; 0; 0; 0; 0 ]%Q ].
Proof. reflexivity. Qed.

(** ** Dictionaries *)

Section DictFacts.
Context {K V : Type} (eqb : K -> K -> bool).
Hypothesis eqb_spec : forall a b, eqb a b = true <-> a = b.

Lemma dict_set_absent (d : dict (V:=V)) k v :
  dict_get eqb d k = None -> dict_set eqb d k v = d ++ [(k, v)].
Proof.
  induction d as [|[k' v'] d IH]; simpl; auto.
  destruct (eqb k' k); [discriminate|]. intros H. now rewrite IH.
Qed.

Lemma dict_set_present_keys (d : dict (V:=V)) k v a :
  dict_get eqb d k = Some a -> dict_keys (dict_set eqb d k v) = dict_keys d.
Proof.
  unfold dict_keys. induction d as [|[k' v'] d IH]; simpl; [discriminate|].
  destruct (eqb k' k); simpl; auto. intros H. now rewrite IH.
Qed.

Lemma dict_get_none_not_in (d : dict (V:=V)) k :
  dict_get eqb d k = None -> ~ In k (dict_keys d).
Proof.
  unfold dict_keys. induction d as [|[k' v'] d IH]; simpl; auto.
  destruct (eqb k' k) eqn:E; [discriminate|].
  intros H [->|Hin]; [|now apply IH].
  rewrite (proj2 (eqb_spec k k) eq_refl) in E. discriminate.
Qed.

Lemma dict_set_forall (Q : V -> Prop) (d : dict (V:=V)) k v :
  Forall (fun kv => Q (snd kv)) d -> Q v ->
  Forall (fun kv => Q (snd kv)) (dict_set eqb d k v).
Proof.
  intros Hd Hv. induction Hd as [|[k' v'] d Hx Hd IH]; simpl.
  - now repeat constructor.
  - destruct (eqb k' k); constructor; auto.
Qed.

Lemma dict_set_exists_new (Q : V -> Prop) (d : dict (V:=V)) k v :
  Q v -> Exists (fun kv => Q (snd kv)) (dict_set eqb d k v).
Proof.
  intros Hv. induction d as [|[k' v'] d IH]; simpl.
  - now constructor.
  - destruct (eqb k' k); [now constructor | now apply Exists_cons_tl].
Qed.

Lemma dict_set_exists_absent (Q : V -> Prop) (d : dict (V:=V)) k v :
  Exists (fun kv => Q (snd kv)) d -> dict_get eqb d k = None ->
  Exists (fun kv => Q (snd kv)) (dict_set eqb d k v).
Proof.
  intros Hd Hk. rewrite dict_set_absent by auto. apply Exists_app. now left.
Qed.

Lemma dict_get_in (d : dict (V:=V)) k a :
  dict_get eqb d k = Some a -> In a (dict_values d).
Proof.
  unfold dict_values. induction d as [|[k' v'] d IH]; simpl; [discriminate|].
  destruct (eqb k' k); [intros [= ->]; now left | right; auto].
Qed.
End DictFacts.

(** ** [_patient_aggregation] *)

Lemma fill_rows_width dim arrays X :
  W2V.fill_rows dim arrays = inr X -> Forall (fun row => length row = dim) X.
Proof.
  revert X. induction arrays as [|a arrays IH]; simpl; intros X H.
  - injection H as <-. constructor.
  - apply bind_inr in H as (row & Hrow & H).
    apply bind_inr in H as (X' & HX' & H). injection H as <-.
    constructor; eauto using assign_row_length.
Qed.

(** Every row that [_patient_aggregation] returns has [dim] entries,
    where [dim] is the embedding's [vector_size]. *)
Lemma patient_aggregation_row_width dim ids vectors labels X ls :
  W2V._patient_aggregation dim ids vectors labels = inr (X, ls) ->
  Forall (fun row => length row = dim) X.
Proof.
  unfold W2V._patient_aggregation. intros H.
  apply bind_inr in H as (st & _ & H).
  apply bind_inr in H as (X' & HX' & H). injection H as <- <-.
  eauto using fill_rows_width.
Qed.

Lemma for_each_exn {A S} (P : exn -> Prop) (body : S -> A -> res S) :
  (forall s x e, body s x = inl e -> P e) ->
  forall xs s e, for_each body xs s = inl e -> P e.
Proof.
  intros Hbody xs. induction xs as [|x xs IH]; simpl; intros s e H; [discriminate|].
  destruct (body s x) as [e'|s1] eqn:E; simpl in H.
  - injection H as <-. eauto.
  - eauto.
Qed.

Lemma group_step_width w st it st' :
  Forall (fun kv => W2V.arr_width w (snd kv)) (fst st) ->
  length (W2V.item_vector it) = w ->
  W2V.group_step st it = inr st' ->
  Forall (fun kv => W2V.arr_width w (snd kv)) (fst st').
Proof.
  destruct st as [d ls], it as [[k v] lab]. unfold W2V.item_vector. simpl.
  intros Hd Hv.
  destruct (dict_get String.eqb d k) as [a|] eqn:Hk.
  - intros H. apply bind_inr in H as (stacked & Hs & H). injection H as <-. simpl.
    assert (Ha : W2V.arr_width w a).
    { apply (dict_get_in String.eqb) in Hk. unfold dict_values in Hk.
      apply in_map_iff in Hk as (kv & <- & Hin).
      rewrite Forall_forall in Hd. now apply Hd. }
    apply (dict_set_forall String.eqb (W2V.arr_width w)); auto.
    unfold W2V.vstack in Hs.
    destruct (forallb _ _) eqn:Hall; [|discriminate]. injection Hs as <-.
    simpl. split; [now destruct a as [|[|? ?]]|].
    apply Forall_app. split; [|now repeat constructor].
    destruct a as [u|rows]; simpl in Ha; [now repeat constructor | tauto].
  - intros [= <-]. simpl.
    apply (dict_set_forall String.eqb (W2V.arr_width w)); auto.
Qed.

Lemma group_step_stacked st it st' :
  Exists (fun kv => W2V.is_stacked (snd kv)) (fst st) ->
  W2V.group_step st it = inr st' ->
  Exists (fun kv => W2V.is_stacked (snd kv)) (fst st').
Proof.
  destruct st as [d ls], it as [[k v] lab]. simpl. intros Hd.
  destruct (dict_get String.eqb d k) as [a|] eqn:Hk.
  - intros H. apply bind_inr in H as (stacked & Hs & H). injection H as <-. simpl.
    apply (dict_set_exists_new String.eqb W2V.is_stacked).
    unfold W2V.vstack in Hs. destruct (forallb _ _); [|discriminate].
    now injection Hs as <-.
  - intros [= <-]. simpl.
    now apply (dict_set_exists_absent String.eqb W2V.is_stacked).
Qed.

Lemma group_step_exn st it e : W2V.group_step st it = inl e -> e = ValueError.
Proof.
  destruct st as [d ls], it as [[k v] lab]. simpl.
  destruct (dict_get String.eqb d k) as [a|]; [|discriminate].
  unfold W2V.vstack. destruct (forallb _ _); simpl; [discriminate|]. now intros [= <-].
Qed.

Lemma NoDup_snoc {A} (l : list A) x : NoDup l -> ~ In x l -> NoDup (l ++ [x]).
Proof.
  induction 1 as [|y l Hy Hl IH]; simpl; intros Hx.
  - repeat constructor. auto.
  - constructor.
    + rewrite in_app_iff. simpl. intuition congruence.
    + apply IH. intuition.
Qed.

(** If no entry was ever stacked, no patient occurred twice. *)
Lemma group_loop_nodup items : forall st st',
  NoDup (dict_keys (fst st)) ->
  for_each W2V.group_step items st = inr st' ->
  ~ Exists (fun kv => W2V.is_stacked (snd kv)) (fst st') ->
  NoDup (dict_keys (fst st) ++ map W2V.item_id items).
Proof.
  induction items as [|it items IH]; simpl; intros st st' Hnd Hrun Hno.
  - now rewrite app_nil_r.
  - apply bind_inr in Hrun as (st1 & Hstep & Hrun).
    destruct st as [d ls], it as [[k v] lab]. simpl in *.
    destruct (dict_get String.eqb d k) as [a|] eqn:Hk.
    + exfalso. apply Hno.
      apply (for_each_invariant
               (fun s => Exists (fun kv => W2V.is_stacked (snd kv)) (fst s))
               W2V.group_step) with (xs := items) (s := st1); auto.
      { intros; eauto using group_step_stacked. }
      apply bind_inr in Hstep as (stacked & Hs & H). injection H as <-. simpl.
      apply (dict_set_exists_new String.eqb W2V.is_stacked).
      unfold W2V.vstack in Hs. destruct (forallb _ _); [|discriminate].
      now injection Hs as <-.
    + injection Hstep as <-.
      assert (Hnd1 : NoDup (dict_keys (dict_set String.eqb d k (W2V.Arr1 v)))).
      { rewrite (dict_set_absent String.eqb) by auto.
        unfold dict_keys. rewrite map_app. simpl.
        apply NoDup_snoc; auto.
        now apply (dict_get_none_not_in String.eqb String.eqb_eq). }
      specialize (IH (_, _) _ Hnd1 Hrun Hno). simpl in IH.
      rewrite (dict_set_absent String.eqb) in IH by auto.
      unfold dict_keys in *. rewrite map_app in IH. simpl in IH.
      rewrite <- app_assoc in IH. simpl in IH.
      apply IH.
Qed.

Lemma assign_row_exn width value e :
  assign_row width value = inl e -> e = ValueError.
Proof.
  destruct value as [q|v]; simpl; [discriminate|].
  destruct (length v =? width); [discriminate|].
  destruct v as [|q [|? ?]]; try discriminate; now intros [= <-].
Qed.

Lemma fill_rows_exn dim arrays e :
  W2V.fill_rows dim arrays = inl e -> e = ValueError.
Proof.
  induction arrays as [|a arrays IH]; simpl; [discriminate|].
  destruct (assign_row dim (W2V.mean_axis0 a)) as [e'|row] eqn:E; simpl.
  - intros [= <-]. eauto using assign_row_exn.
  - destruct (W2V.fill_rows dim arrays) as [e'|X]; simpl; [|discriminate].
    intros [= <-]. auto.
Qed.

(** A stacked entry whose vectors have [3 * dim] entries does not fit a
    row of [dim] entries. *)
Lemma assign_stacked_raises dim rows :
  0 < dim -> W2V.arr_width (3 * dim) (W2V.Arr2 rows) ->
  assign_row dim (W2V.mean_axis0 (W2V.Arr2 rows)) = inl ValueError.
Proof.
  intros Hdim [Hne Hall]. destruct rows as [|r rs]; [congruence|].
  inversion Hall as [|? ? Hr Hrs]; subst. simpl.
  pose proof (mean0_length r rs (3 * dim) Hr Hrs) as L.
  destruct (Nat.eqb_spec (length (mean0 r rs)) dim) as [E|E]; [lia|].
  destruct (mean0 r rs) as [|q [|? ?]]; simpl in L; try reflexivity. lia.
Qed.

Lemma fill_rows_no_stacked dim arrays X :
  0 < dim -> Forall (W2V.arr_width (3 * dim)) arrays ->
  W2V.fill_rows dim arrays = inr X ->
  Forall (fun a => ~ W2V.is_stacked a) arrays.
Proof.
  intros Hdim Hall. revert X.
  induction Hall as [|a arrays Ha Hall IH]; intros X H; [constructor|].
  simpl in H. apply bind_inr in H as (row & Hrow & H).
  apply bind_inr in H as (X' & HX' & _).
  constructor; eauto.
  destruct a as [v|rows]; simpl; auto. intros _.
  rewrite assign_stacked_raises in Hrow by auto. discriminate.
Qed.

Lemma agg_items_ids ids vectors labels :
  length vectors = length ids ->
  match labels with Some ls => length ls = length ids | None => True end ->
  map W2V.item_id (W2V.agg_items ids vectors labels) = ids.
Proof.
  unfold W2V.agg_items. destruct labels as [ls|]; intros Hv Hl.
  - revert vectors ls Hv Hl.
    induction ids as [|p ids IH]; intros [|v vs] [|l ls]; simpl; intros; try lia; auto.
    unfold W2V.item_id at 1. simpl. f_equal. apply IH; lia.
  - clear Hl. revert vectors Hv.
    induction ids as [|p ids IH]; intros [|v vs]; simpl; intros; try lia; auto.
    unfold W2V.item_id at 1. simpl. f_equal. apply IH; lia.
Qed.

Lemma agg_items_width w ids vectors labels :
  Forall (fun v => length v = w) vectors ->
  Forall (fun it => length (W2V.item_vector it) = w) (W2V.agg_items ids vectors labels).
Proof.
  unfold W2V.agg_items. intros Hall. destruct labels as [ls|].
  - revert ids ls. induction Hall as [|v vs Hv Hall IH]; intros [|p ids] [|l ls];
      simpl; constructor; auto.
  - revert ids. induction Hall as [|v vs Hv Hall IH]; intros [|p ids];
      simpl; constructor; auto.
Qed.

Lemma group_loop_width w items : forall st st',
  Forall (fun kv => W2V.arr_width w (snd kv)) (fst st) ->
  Forall (fun it => length (W2V.item_vector it) = w) items ->
  for_each W2V.group_step items st = inr st' ->
  Forall (fun kv => W2V.arr_width w (snd kv)) (fst st').
Proof.
  induction items as [|it items IH]; simpl; intros st st' Hst Hitems Hrun.
  - now injection Hrun as <-.
  - apply bind_inr in Hrun as (s1 & Hs1 & Hrun).
    apply Forall_cons_iff in Hitems as [Hit Hrest].
    apply (IH s1 st'); auto.
    apply (group_step_width w st it s1); auto.
Qed.

(** Whenever [_patient_aggregation] fails, it fails with [ValueError]. *)
Lemma patient_aggregation_exn dim ids vectors labels e :
  W2V._patient_aggregation dim ids vectors labels = inl e -> e = ValueError.
Proof.
  unfold W2V._patient_aggregation.
  destruct (for_each _ _ _) as [e'|st] eqn:E; simpl.
  - intros [= <-].
    apply (for_each_exn (fun e => e = ValueError) W2V.group_step) in E; auto.
    intros; eauto using group_step_exn.
  - destruct (W2V.fill_rows _ _) as [e'|X] eqn:F; simpl; [|discriminate].
    intros [= <-]. eauto using fill_rows_exn.
Qed.

(** With note vectors of [3 * vector_size] entries, as [transform]
    produces them, [_patient_aggregation] raises [ValueError] as soon as
    one patient owns two notes. *)
Lemma patient_aggregation_multi_unit_raises dim ids vectors labels :
  0 < dim ->
  length vectors = length ids ->
  match labels with Some ls => length ls = length ids | None => True end ->
  Forall (fun v => length v = 3 * dim) vectors ->
  ~ NoDup ids ->
  W2V._patient_aggregation dim ids vectors labels = inl ValueError.
Proof.
  intros Hdim Hlen Hlab Hw Hdup.
  destruct (W2V._patient_aggregation dim ids vectors labels) as [e|[X ls]] eqn:E.
  - f_equal. eauto using patient_aggregation_exn.
  - exfalso. apply Hdup. unfold W2V._patient_aggregation in E.
    apply bind_inr in E as (st & Hloop & E).
    apply bind_inr in E as (X' & Hfill & _).
    assert (Hwidth : Forall (fun kv => W2V.arr_width (3 * dim) (snd kv)) (fst st)).
    { apply (group_loop_width (3 * dim) (W2V.agg_items ids vectors labels)
               ([], []) st); auto.
      now apply agg_items_width. }
    assert (Hns : ~ Exists (fun kv => W2V.is_stacked (snd kv)) (fst st)).
    { intros Hex. apply Exists_exists in Hex as (kv & Hin & Hst).
      eapply fill_rows_no_stacked in Hfill; eauto.
      - rewrite Forall_forall in Hfill. apply (Hfill (snd kv)); auto.
        unfold dict_values. now apply in_map.
      - unfold dict_values. apply Forall_map. exact Hwidth. }
    pose proof (group_loop_nodup (W2V.agg_items ids vectors labels)
                  ([], []) st (NoDup_nil _) Hloop Hns) as Hnd.
    simpl in Hnd. now rewrite agg_items_ids in Hnd.
Qed.

Lemma dict_get_not_in {V} (d : dict (K:=string) (V:=V)) k :
  ~ In k (dict_keys d) -> dict_get String.eqb d k = None.
Proof.
  unfold dict_keys. induction d as [|[k' v'] d IH]; simpl; auto.
  intros H. destruct (String.eqb_spec k' k) as [->|_]; [tauto|].
  apply IH. tauto.
Qed.

(** When no patient occurs twice, the grouping loop appends one 1-D
    entry per note, in input order, and one label per note. *)
Lemma group_loop_distinct items : forall d ls0,
  NoDup (dict_keys d ++ map W2V.item_id items) ->
  for_each W2V.group_step items (d, ls0)
  = inr (d ++ map (fun it => (W2V.item_id it, W2V.Arr1 (W2V.item_vector it))) items,
         ls0 ++ flat_map W2V.item_label items).
Proof.
  induction items as [|[[k v] lab] items IH]; intros d ls0 Hnd.
  - simpl. now rewrite !app_nil_r.
  - cbn [for_each map flat_map]. unfold W2V.group_step at 1.
    assert (Hk : ~ In k (dict_keys d)).
    { cbn [map] in Hnd. apply NoDup_remove_2 in Hnd.
      intros Hin. apply Hnd. apply in_or_app. now left. }
    rewrite (dict_get_not_in d k Hk). unfold ret at 1. cbn [bind].
    rewrite (dict_set_absent String.eqb) by now apply dict_get_not_in.
    rewrite IH.
    + unfold W2V.item_id, W2V.item_vector, W2V.item_label. cbn [fst snd].
      destruct lab; rewrite <- ?app_assoc; reflexivity.
    + unfold dict_keys in *. rewrite map_app. cbn [map fst] in *.
      rewrite <- app_assoc. exact Hnd.
Qed.

Lemma fill_rows_singles dim vs :
  W2V.fill_rows dim (map W2V.Arr1 vs) = inr (map (fun v => repeat (mean v) dim) vs).
Proof.
  induction vs as [|v vs IH]; simpl; auto. now rewrite IH.
Qed.

Lemma agg_items_vectors ids vectors labels :
  length vectors = length ids ->
  match labels with Some ls => length ls = length ids | None => True end ->
  map W2V.item_vector (W2V.agg_items ids vectors labels) = vectors.
Proof.
  unfold W2V.agg_items. destruct labels as [ls|]; intros Hv Hl.
  - revert vectors ls Hv Hl.
    induction ids as [|p ids IH]; intros [|v vs] [|l ls]; simpl; intros; try lia; auto.
    unfold W2V.item_vector at 1. simpl. f_equal. apply IH; lia.
  - clear Hl. revert vectors Hv.
    induction ids as [|p ids IH]; intros [|v vs]; simpl; intros; try lia; auto.
    unfold W2V.item_vector at 1. simpl. f_equal. apply IH; lia.
Qed.

Lemma agg_items_labels ids vectors labels :
  length vectors = length ids ->
  match labels with Some ls => length ls = length ids | None => True end ->
  flat_map W2V.item_label (W2V.agg_items ids vectors labels)
  = match labels with Some ls => ls | None => [] end.
Proof.
  unfold W2V.agg_items. destruct labels as [ls|]; intros Hv Hl.
  - revert vectors ls Hv Hl.
    induction ids as [|p ids IH]; intros [|v vs] [|l ls]; simpl; intros; try lia; auto.
    unfold W2V.item_label at 1. simpl. f_equal. apply IH; lia.
  - clear Hl. revert vectors Hv.
    induction ids as [|p ids IH]; intros [|v vs]; simpl; intros; try lia; auto.
Qed.

(** When every patient owns exactly one note, each output row is the mean
    of all entries of that note's vector, repeated [dim] times (vectors
    are taken to have at least one entry, or [dim] to be 0). *)
Lemma patient_aggregation_single_units dim ids vectors labels :
  length vectors = length ids ->
  match labels with Some ls => length ls = length ids | None => True end ->
  NoDup ids ->
  W2V._patient_aggregation dim ids vectors labels
  = inr (map (fun v => repeat (mean v) dim) vectors,
         match labels with Some ls => ls | None => [] end).
Proof.
  intros Hv Hl Hnd. unfold W2V._patient_aggregation.
  rewrite group_loop_distinct by (simpl; now rewrite agg_items_ids).
  cbn [bind fst snd app]. unfold dict_values. rewrite map_map. cbn [snd].
  rewrite <- (map_map W2V.item_vector W2V.Arr1).
  rewrite agg_items_vectors by auto.
  rewrite fill_rows_singles. cbn [bind].
  now rewrite agg_items_labels.
Qed.

(** C1. On note vectors of [3 * vector_size] entries, aligned with the
    patient ids, [_patient_aggregation] does not compute what the claim
    states.  If some patient owns two notes it raises [ValueError] (the
    column means have [3 * vector_size] entries, the output row has
    [vector_size]); if every patient owns one note, each row holds the
    mean of all entries of the note's vector, repeated [vector_size]
    times, not the vector.  With [vector_size = 1]: two notes of patient
    7 raise; one note [1, 2, 3] gives the row [2]. *)
Theorem patient_aggregation_diverges :
  W2V._patient_aggregation 1 ["7"; "7"]%string [Examples.note_a; Examples.note_b] None
  = inl ValueError /\
  W2V._patient_aggregation 1 ["7"]%string [Examples.note_a] None
  = inr ([[(6 # 3)%Q]], []) /\
  forall dim ids vectors labels,
    0 < dim ->
    length vectors = length ids ->
    match labels with Some ls => length ls = length ids | None => True end ->
    Forall (fun v => length v = 3 * dim) vectors ->
    (~ NoDup ids ->
     W2V._patient_aggregation dim ids vectors labels = inl ValueError) /\
    (NoDup ids ->
     W2V._patient_aggregation dim ids vectors labels
     = inr (map (fun v => repeat (mean v) dim) vectors,
            match labels with Some ls => ls | None => [] end)).
Proof.
  split; [reflexivity|]. split; [reflexivity|].
  intros dim ids vectors labels Hdim Hlen Hlab Hw. split; intros Hnd.
  - now apply patient_aggregation_multi_unit_raises.
  - now apply patient_aggregation_single_units.
Qed.

(** ** [_load_data] *)

Lemma mem_true_iff p l : W2V.mem p l = true <-> In p l.
Proof.
  unfold W2V.mem. rewrite existsb_exists. split.
  - intros (x & Hin & E). apply String.eqb_eq in E. now subst.
  - intros H. exists p. split; auto. apply String.eqb_refl.
Qed.

Lemma load_chunk_labelled wt st_aug readm acc c :
  Forall (fun p => In p (map fst readm)) (fst acc) ->
  Forall (fun p => In p (map fst readm)) (fst (W2V.load_chunk wt st_aug readm acc c)).
Proof.
  destruct acc as [ids text]. simpl. intros H.
  apply Forall_app. split; auto.
  apply Forall_forall. intros p Hp.
  apply in_map_iff in Hp as (r & <- & Hr).
  apply filter_In in Hr as [_ Hr]. now apply mem_true_iff.
Qed.

(** Every patient id that the chunk loop collects has a row in the label
    table. *)
Lemma load_chunks_labelled wt st_aug db readm cs : forall acc,
  Forall (fun p => In p (map fst readm)) (fst acc) ->
  Forall (fun p => In p (map fst readm)) (fst (W2V.load_chunks wt st_aug db readm cs acc)).
Proof.
  induction cs as [|c cs IH]; simpl; intros acc H; auto.
  destruct db; [now apply load_chunk_labelled|].
  apply IH. now apply load_chunk_labelled.
Qed.

Lemma dict_set_keys_in {V} (d : dict (K:=string) (V:=V)) k v p :
  In p (dict_keys (dict_set String.eqb d k v)) -> In p (dict_keys d) \/ p = k.
Proof.
  unfold dict_keys. induction d as [|[k' v'] d IH]; simpl.
  - intuition.
  - destruct (String.eqb k' k); simpl; intuition.
Qed.

Lemma unique_ids_incl l p : In p (W2V.unique_ids l) -> In p l.
Proof.
  unfold W2V.unique_ids.
  assert (G : forall (d : dict (K:=string) (V:=unit)),
             In p (dict_keys (fold_left (fun d p => dict_set String.eqb d p tt) l d)) ->
             In p (dict_keys d) \/ In p l).
  { induction l as [|x l IH]; simpl; intros d H; auto.
    apply IH in H as [H|H]; auto.
    apply dict_set_keys_in in H as [H|H]; auto. }
  intros H. apply G in H as [H|H]; auto. contradiction.
Qed.

Lemma list_index_in l x :
  In x l -> exists i, W2V.list_index l x = inr i /\ i < length l.
Proof.
  induction l as [|y l IH]; simpl; [contradiction|].
  intros H. destruct (String.eqb y x) eqn:E.
  - exists 0. split; auto. lia.
  - destruct H as [->|H]; [rewrite String.eqb_refl in E; discriminate|].
    destruct (IH H) as (i & Hi & Hlt). exists (S i). rewrite Hi. simpl. split; auto. lia.
Qed.

Lemma ordered_labels_returns index input_labels uids :
  length input_labels = length index ->
  Forall (fun p => In p index) uids ->
  exists ls, W2V.ordered_labels index input_labels uids = inr ls.
Proof.
  intros Hlen Hall. induction Hall as [|p uids Hp _ [ls IH]]; simpl; eauto.
  destruct (list_index_in _ _ Hp) as (i & -> & Hi). simpl.
  unfold W2V.array_get.
  destruct (nth_error input_labels i) as [l|] eqn:E.
  - simpl. rewrite IH. simpl. eauto.
  - apply nth_error_None in E. lia.
Qed.

(** [_load_data] never returns: its last statement calls [tuple] with
    three or four arguments. *)
Lemma load_data_raises_TypeError wt st_aug db corpus_df readm_df adapt :
  W2V._load_data wt st_aug db corpus_df readm_df adapt = inl TypeError.
Proof.
  unfold W2V._load_data.
  pose proof (load_chunks_labelled wt st_aug db readm_df corpus_df ([], [])
                (Forall_nil _)) as Hids.
  destruct (W2V.load_chunks wt st_aug db readm_df corpus_df ([], []))
    as [patient_ids text]. simpl in Hids.
  destruct (ordered_labels_returns
              (map fst (filter (fun e => W2V.mem (fst e) patient_ids) readm_df))
              (map snd (filter (fun e => W2V.mem (fst e) patient_ids) readm_df))
              (W2V.unique_ids patient_ids)) as [ls Hls].
  { now rewrite !length_map. }
  { apply Forall_forall. intros p Hp. apply unique_ids_incl in Hp.
    rewrite Forall_forall in Hids. specialize (Hids p Hp).
    apply in_map_iff in Hids as (e & <- & He).
    apply in_map. apply filter_In. split; auto. now apply mem_true_iff. }
  rewrite Hls. simpl. now destruct adapt.
Qed.

Lemma choose_params_raises wt st_aug db gs self corpus_df readm_df :
  W2V.choose_params wt st_aug db gs self corpus_df readm_df = inl TypeError.
Proof.
  unfold W2V.choose_params, W2V._load_train_data.
  now rewrite load_data_raises_TypeError.
Qed.

Lemma test_raises wt st_aug db ev self corpus_df readm_df :
  W2V.test wt st_aug db ev self corpus_df readm_df = inl TypeError.
Proof.
  unfold W2V.test, W2V._load_test_data.
  now rewrite load_data_raises_TypeError.
Qed.

(** No method call ever assigns the embedding model or the classifier. *)
Lemma reachable_unassigned wt st_aug db gs ev rf self :
  W2V.reachable wt st_aug db gs ev rf self ->
  W2V.w2v_agg_model self = None.
Proof.
  induction 1 as [| self self' c r _ _ Hrun | self self' c r _ _ Hrun
                  | self self' given _ IH Hrun].
  - reflexivity.
  - rewrite choose_params_raises in Hrun. discriminate.
  - rewrite test_raises in Hrun. discriminate.
  - unfold W2V.train in Hrun. destruct given.
    + now injection Hrun as <-.
    + rewrite IH in Hrun. discriminate.
Qed.

(** C9. For every corpus (any sequence of chunks), every label table and
    either value of [adapt_for_gridsearch], [_load_data] raises
    [TypeError] instead of returning: both branches end in [tuple]
    applied to several positional arguments.  Hence [choose_params] and
    [test] raise [TypeError] whatever follows the loading call, and in
    every predictor state that method calls can produce, [train] (on the
    path that reads the loaded attributes) raises [AttributeError]. *)
Theorem load_data_never_returns
    (word_tokenize : string -> list string) (st_aug db : bool)
    (grid_search_and_store evaluate_and_report : W2V.predictor -> res W2V.predictor)
    (refine_and_report : W2V.predictor -> W2V.KeyedVectors -> res W2V.predictor) :
  (forall corpus_df readm_df adapt,
      W2V._load_data word_tokenize st_aug db corpus_df readm_df adapt = inl TypeError) /\
  (forall self corpus_df readm_df adapt,
      W2V._load_train_data word_tokenize st_aug db self corpus_df readm_df adapt
      = inl TypeError) /\
  (forall self corpus_df readm_df,
      W2V.choose_params word_tokenize st_aug db grid_search_and_store
        self corpus_df readm_df = inl TypeError) /\
  (forall self corpus_df readm_df,
      W2V.test word_tokenize st_aug db evaluate_and_report
        self corpus_df readm_df = inl TypeError) /\
  (forall self,
      W2V.reachable word_tokenize st_aug db grid_search_and_store
        evaluate_and_report refine_and_report self ->
      W2V.train refine_and_report self false = inl AttributeError).
Proof.
  repeat split; intros.
  - apply load_data_raises_TypeError.
  - unfold W2V._load_train_data. now rewrite load_data_raises_TypeError.
  - apply choose_params_raises.
  - apply test_raises.
  - apply reachable_unassigned in H.
    unfold W2V.train. now rewrite H.
Qed.

(** ** [EncodedDataset] *)

Ltac inv_bind H :=
  repeat match type of H with
         | bind _ _ = inr _ =>
             let a := fresh "a" in
             let Ha := fresh "Ha" in
             apply bind_inr in H as (a & Ha & H)
         end.

Lemma overflow_step_aligned seq_len overflow patient label ds i ds' :
  Bert.aligned ds ->
  Bert.overflow_step seq_len overflow patient label ds i = inr ds' ->
  Bert.aligned ds'.
Proof.
  unfold Bert.overflow_step, Bert.aligned. intros (H1 & H2 & H3) H.
  inv_bind H. destruct a0 as [t m]. injection H as <-. simpl.
  rewrite !length_app. simpl. lia.
Qed.

Lemma encode_row_aligned encode_plus seq_len ds row ds' :
  Bert.aligned ds ->
  Bert.encode_row encode_plus seq_len ds row = inr ds' ->
  Bert.aligned ds'.
Proof.
  destruct row as [[patient note] label]. unfold Bert.encode_row.
  intros Hal H. inv_bind H.
  match type of H with
  | match _ with Some _ => _ | None => _ end = _ =>
      set (ds1 := {| Bert.input_ids := Bert.input_ids ds ++ [a];
                     Bert.attn_masks := Bert.attn_masks ds ++ [a0];
                     Bert.labels := Bert.labels ds ++ [label];
                     Bert.patient_ids := Bert.patient_ids ds ++ [patient] |}) in *
  end.
  assert (Hal1 : Bert.aligned ds1).
  { destruct Hal as (H1 & H2 & H3). unfold Bert.aligned, ds1. simpl.
    rewrite !length_app. simpl. lia. }
  destruct (Bert.overflowing_tokens (encode_plus note seq_len)) as [overflow|].
  - inv_bind H.
    eapply (for_each_invariant Bert.aligned); [| exact Hal1 | exact H].
    intros; eauto using overflow_step_aligned.
  - now injection H as <-.
Qed.

Lemma init_aligned encode_plus seq_len df ds :
  Bert.init encode_plus seq_len df = inr ds -> Bert.aligned ds.
Proof.
  unfold Bert.init. intros H.
  eapply (for_each_invariant Bert.aligned); [| | exact H].
  - intros; eauto using encode_row_aligned.
  - repeat split.
Qed.

Lemma list_get_lt {A} (l : list A) idx :
  idx < length l -> exists x, Bert.list_get l idx = inr x /\ nth_error l idx = Some x.
Proof.
  intros H. unfold Bert.list_get.
  destruct (nth_error l idx) as [x|] eqn:E; eauto.
  apply nth_error_None in E. lia.
Qed.

(** C10. Whenever the construction of an [EncodedDataset] completes, for
    any dataframe, tokenizer and sequence length, the lists [input_ids],
    [attn_masks], [labels] and [patient_ids] have the same length,
    [__len__] is that length, and [__getitem__] at any index below it
    returns the entries of the four lists at that index. *)
Theorem encoded_dataset_aligned
    (encode_plus : string -> nat -> Bert.encoding) (seq_len : nat)
    (df : list Bert.df_row) (ds : Bert.EncodedDataset) :
  Bert.init encode_plus seq_len df = inr ds ->
  length (Bert.input_ids ds) = Bert.__len__ ds /\
  length (Bert.attn_masks ds) = Bert.__len__ ds /\
  length (Bert.labels ds) = Bert.__len__ ds /\
  length (Bert.patient_ids ds) = Bert.__len__ ds /\
  forall idx, idx < Bert.__len__ ds ->
    exists it,
      Bert.__getitem__ ds idx = inr it /\
      nth_error (Bert.input_ids ds) idx = Some (Bert.item_input_ids it) /\
      nth_error (Bert.attn_masks ds) idx = Some (Bert.item_attn_masks it) /\
      nth_error (Bert.labels ds) idx = Some (Bert.item_labels it) /\
      nth_error (Bert.patient_ids ds) idx = Some (Bert.item_patient_ids it).
Proof.
  intros H. apply init_aligned in H as (H1 & H2 & H3).
  unfold Bert.__len__. repeat (split; auto).
  intros idx Hidx. unfold Bert.__getitem__.
  destruct (list_get_lt (Bert.input_ids ds) idx) as (i & -> & Ei); [lia|].
  destruct (list_get_lt (Bert.attn_masks ds) idx) as (m & -> & Em); [lia|].
  destruct (list_get_lt (Bert.labels ds) idx) as (l & -> & El); [lia|].
  destruct (list_get_lt (Bert.patient_ids ds) idx) as (p & -> & Ep); [lia|].
  simpl. eexists. split; [reflexivity|]. simpl. auto.
Qed.

Lemma encoded_dataset_aligned_witness :
  Bert.init (Examples.window4 (Some Examples.overflow4)) 4 Examples.one_note
  = inr Examples.two_units /\
  (length (Bert.input_ids Examples.two_units) = Bert.__len__ Examples.two_units /\
   length (Bert.attn_masks Examples.two_units) = Bert.__len__ Examples.two_units /\
   length (Bert.labels Examples.two_units) = Bert.__len__ Examples.two_units /\
   length (Bert.patient_ids Examples.two_units) = Bert.__len__ Examples.two_units /\
   forall idx, idx < Bert.__len__ Examples.two_units ->
     exists it,
       Bert.__getitem__ Examples.two_units idx = inr it /\
       nth_error (Bert.input_ids Examples.two_units) idx = Some (Bert.item_input_ids it) /\
       nth_error (Bert.attn_masks Examples.two_units) idx = Some (Bert.item_attn_masks it) /\
       nth_error (Bert.labels Examples.two_units) idx = Some (Bert.item_labels it) /\
       nth_error (Bert.patient_ids Examples.two_units) idx
       = Some (Bert.item_patient_ids it)).
Proof.
  split; [reflexivity|].
  apply (encoded_dataset_aligned (Examples.window4 (Some Examples.overflow4)) 4
           Examples.one_note Examples.two_units).
  reflexivity.
Defined.

(** A successful overflow iteration never pads: the slice it appends is a
    2-D tensor with exactly [seq_len] columns and the mask is all ones. *)
Lemma overflow_step_never_pads seq_len overflow patient label ds i ds' :
  Bert.overflow_step seq_len overflow patient label ds i = inr ds' ->
  Bert.ov_shape1 (Bert.ov_slice overflow (seq_len * i) (seq_len * (i + 1))) = inr seq_len /\
  Bert.attn_masks ds' = Bert.attn_masks ds ++ [Bert.T1 (repeat 1%Z seq_len)].
Proof.
  unfold Bert.overflow_step. intros H.
  apply bind_inr in H as (c & Hc & H).
  apply bind_inr in H as ([t m] & Hbr & H). injection H as <-. simpl.
  destruct (Nat.eqb_spec c seq_len) as [->|Hne].
  - split; auto. inv_bind Hbr. injection Hbr as <- <-.
    unfold Bert.torch_fill in Ha.
    destruct (Z.of_nat seq_len <? 0)%Z eqn:E; [discriminate|].
    injection Ha as <-. now rewrite Nat2Z.id.
  - exfalso.
    destruct (Bert.ov_slice overflow (seq_len * i) (seq_len * (i + 1)))
      as [l|[v|c' rows]]; simpl in Hc; try discriminate.
    injection Hc as ->. simpl in Hbr.
    unfold Bert.torch_fill in Hbr at 1.
    destruct (Z.of_nat seq_len - Z.of_nat c <? 0)%Z eqn:E; [discriminate|].
    simpl in Hbr.
    apply Z.ltb_ge in E.
    destruct (Z.to_nat (Z.of_nat seq_len - Z.of_nat c)) as [|k] eqn:Ek; [lia|].
    simpl in Hbr. discriminate.
Qed.

Lemma batch_axis_step_raises seq_len toks patient label ds :
  length toks <> seq_len ->
  Bert.overflow_step seq_len (Bert.OvTensor (Bert.T2 (length toks) [toks]))
    patient label ds 0 = inl RuntimeError.
Proof.
  intros Hn. unfold Bert.overflow_step.
  rewrite Nat.mul_0_r. cbn [Bert.ov_slice Bert.ov_shape1].
  unfold ret at 1. cbn [bind].
  destruct (Nat.eqb_spec (length toks) seq_len) as [|_]; [contradiction|].
  cbn [Bert.ov_tensor]. unfold ret at 1. cbn [bind].
  unfold Bert.torch_fill at 1.
  destruct (Z.of_nat seq_len - Z.of_nat (length toks) <? 0)%Z eqn:F;
    [reflexivity|].
  apply Z.ltb_ge in F. unfold ret at 1. cbn [bind].
  destruct (Z.to_nat (Z.of_nat seq_len - Z.of_nat (length toks))) as [|k] eqn:Ek;
    [lia|]. reflexivity.
Qed.

(** When the overflow arrives as a tensor with a leading batch axis, one
    row of [n] tokens, its [len] is 1: the loop runs once, on all [n]
    tokens, and fails unless [n] is exactly [seq_len]. *)
Lemma batch_axis_overflow_raises seq_len toks patient label ds :
  0 < seq_len -> length toks <> seq_len ->
  let overflow := Bert.OvTensor (Bert.T2 (length toks) [toks]) in
  Bert.ceil_div (Bert.ov_len overflow) seq_len = inr 1 /\
  for_each (Bert.overflow_step seq_len overflow patient label) (seq 0 1) ds
  = inl RuntimeError.
Proof.
  intros HL Hn overflow. split.
  - unfold Bert.ceil_div, overflow. cbn [Bert.ov_len length].
    destruct (Nat.eqb_spec seq_len 0); [lia|].
    unfold ret. f_equal. replace (1 + seq_len - 1) with seq_len by lia.
    apply Nat.div_same. lia.
  - cbn [seq for_each]. unfold overflow.
    now rewrite batch_axis_step_raises.
Qed.

Lemma reshape_exn t seq_len e : Bert.reshape t seq_len = inl e -> e = RuntimeError.
Proof.
  unfold Bert.reshape. destruct (_ =? _); [discriminate | now intros [= <-]].
Qed.

(** A note whose overflow arrives with a batch axis and does not hold
    exactly [seq_len] tokens makes the loop body raise. *)
Lemma encode_row_batch_axis_raises encode_plus seq_len ds patient note label toks :
  0 < seq_len ->
  Bert.overflowing_tokens (encode_plus note seq_len)
  = Some (Bert.OvTensor (Bert.T2 (length toks) [toks])) ->
  length toks <> seq_len ->
  Bert.encode_row encode_plus seq_len ds (patient, note, label) = inl RuntimeError.
Proof.
  intros HL Hov Hn. unfold Bert.encode_row.
  destruct (Bert.reshape (Bert.enc_input_ids _) seq_len) as [e|ids] eqn:E1;
    cbn [bind]; [f_equal; eauto using reshape_exn|].
  destruct (Bert.reshape (Bert.enc_attention_mask _) seq_len) as [e|mask] eqn:E2;
    cbn [bind]; [f_equal; eauto using reshape_exn|].
  rewrite Hov.
  destruct (batch_axis_overflow_raises seq_len toks patient label
              {| Bert.input_ids := Bert.input_ids ds ++ [ids];
                 Bert.attn_masks := Bert.attn_masks ds ++ [mask];
                 Bert.labels := Bert.labels ds ++ [label];
                 Bert.patient_ids := Bert.patient_ids ds ++ [patient] |} HL Hn)
    as [Hc Hloop].
  rewrite Hc. cbn [bind]. exact Hloop.
Qed.

(** C3. With a sequence budget of four, a note whose overflow holds two
    tokens should give one extra Unit, padded to four with the mask
    1, 1, 0, 0.  The constructor raises instead, however the tokenizer
    hands the overflow over: [RuntimeError] for a tensor with a batch
    axis, [IndexError] for a 1-D tensor, [AttributeError] for a list.  An
    overflow of eight tokens (an exact multiple) should give two extra
    Units and raises as well.  Only an overflow of exactly four tokens is
    accepted, as one Unit with an all-ones mask.  In general: an
    iteration of the overflow loop that completes never pads, and a note
    whose batch-axis overflow does not hold exactly [seq_len] tokens
    raises [RuntimeError]. *)
Theorem encoder_overflow_diverges :
  Bert.init (Examples.window4 (Some Examples.overflow2)) 4 Examples.one_note
  = inl RuntimeError /\
  Bert.init (Examples.window4 (Some Examples.overflow2_flat)) 4 Examples.one_note
  = inl IndexError /\
  Bert.init (Examples.window4 (Some Examples.overflow2_list)) 4 Examples.one_note
  = inl AttributeError /\
  Bert.init (Examples.window4 (Some Examples.overflow8)) 4 Examples.one_note
  = inl RuntimeError /\
  Bert.init (Examples.window4 (Some Examples.overflow4)) 4 Examples.one_note
  = inr Examples.two_units /\
  (forall seq_len overflow patient label ds i ds',
      Bert.overflow_step seq_len overflow patient label ds i = inr ds' ->
      Bert.attn_masks ds' = Bert.attn_masks ds ++ [Bert.T1 (repeat 1%Z seq_len)]) /\
  (forall encode_plus seq_len ds patient note label toks,
      0 < seq_len ->
      Bert.overflowing_tokens (encode_plus note seq_len)
      = Some (Bert.OvTensor (Bert.T2 (length toks) [toks])) ->
      length toks <> seq_len ->
      Bert.encode_row encode_plus seq_len ds (patient, note, label) = inl RuntimeError).
Proof.
  do 5 (split; [reflexivity|]). split.
  - intros. eapply overflow_step_never_pads; eauto.
  - intros. now apply encode_row_batch_axis_raises with (toks := toks).
Qed.

(** ** [validation_epoch_end] *)

Lemma zsum_all z labels :
  Forall (fun l => l = z) labels -> Bert.zsum labels = (z * Z.of_nat (length labels))%Z.
Proof.
  induction 1 as [|l labels -> _ IH]; simpl Bert.zsum; [simpl; lia|].
  rewrite IH. simpl length. lia.
Qed.

Lemma cat_all_nonempty {A B} (f : A -> list B) (xs : list A) :
  xs <> [] -> Bert.cat_all (map f xs) = inr (concat (map f xs)).
Proof. destruct xs; [congruence | reflexivity]. Qed.

(** Whenever the labels of a non-empty epoch hold a single class, the
    hook raises: [RuntimeWarning] when there is a label at all,
    [AttributeError] when the batches hold no Unit.  It returns nothing. *)
Lemma validation_epoch_end_one_class metrics w outputs :
  outputs <> [] ->
  Bert.one_class (concat (map Bert.vo_labels outputs)) ->
  Bert.validation_epoch_end metrics w outputs
  = inl (match concat (map Bert.vo_labels outputs) with
         | [] => AttributeError
         | _ :: _ => RuntimeWarning
         end).
Proof.
  intros Hne Hone. unfold Bert.validation_epoch_end.
  rewrite !cat_all_nonempty by auto. cbn [bind].
  destruct (concat (map Bert.vo_labels outputs)) as [|l labels] eqn:E; [reflexivity|].
  destruct Hone as [H|H]; rewrite (zsum_all _ _ H).
  - rewrite Z.mul_1_l, Z.eqb_refl. reflexivity.
  - rewrite Z.mul_0_l. rewrite Z.eqb_refl, orb_true_r. reflexivity.
Qed.

(** C5. For every non-empty validation epoch whose concatenated labels
    hold a single class (all ones or all zeros), [validation_epoch_end]
    raises an exception out of the hook, whatever the metrics are and
    whether or not a report file is configured: [RuntimeWarning] when
    the epoch has a label, [AttributeError] when its batches hold no
    Unit.  Nothing is returned and nothing in the file catches the
    exception.  The two example epochs show both classes. *)
Theorem validation_epoch_end_raises
    (metrics : list (string * (list Z -> list Z -> Q)))
    (write_dev_results_to : option (option string)) :
  Bert.validation_epoch_end metrics write_dev_results_to Examples.all_readmitted
  = inl RuntimeWarning /\
  Bert.validation_epoch_end metrics write_dev_results_to Examples.none_readmitted
  = inl RuntimeWarning /\
  forall outputs,
    outputs <> [] ->
    Bert.one_class (concat (map Bert.vo_labels outputs)) ->
    Bert.validation_epoch_end metrics write_dev_results_to outputs
    = inl (match concat (map Bert.vo_labels outputs) with
           | [] => AttributeError
           | _ :: _ => RuntimeWarning
           end).
Proof.
  split; [reflexivity|]. split; [reflexivity|].
  intros. now apply validation_epoch_end_one_class.
Qed.

(** ** Patients without a label *)

(** The Word2Vec loader keeps only patients that have a label row. *)
Lemma w2v_loader_drops_unlabelled wt st_aug db readm cs p :
  In p (fst (W2V.load_chunks wt st_aug db readm cs ([], []))) -> In p (map fst readm).
Proof.
  intros H.
  pose proof (load_chunks_labelled wt st_aug db readm cs ([], []) (Forall_nil _)) as Hall.
  rewrite Forall_forall in Hall. auto.
Qed.

(** The left join of the transformer pipeline keeps every note: a note of
    a patient without a label row stays, with READM missing. *)
Lemma merge_left_keeps_unlabelled text_df readm r :
  In r text_df ->
  ~ In (Bert.tr_subject_id r) (map fst readm) ->
  In (r, None) (Bert.merge_left text_df readm).
Proof.
  intros Hr Hno. unfold Bert.merge_left. apply in_flat_map. exists r. split; auto.
  destruct (filter _ readm) as [|e ms] eqn:E; [now left|].
  exfalso. apply Hno.
  assert (He : In e (filter (fun e => (fst e =? Bert.tr_subject_id r)%Z) readm))
    by (rewrite E; now left).
  apply filter_In in He as [He Heq]. apply Z.eqb_eq in Heq. rewrite <- Heq.
  now apply in_map.
Qed.

Lemma readm_of_float frame df :
  In None (map Bert.lr_readm frame) ->
  Bert.readm_of frame df = Bert.FloatValues (map Bert.lr_readm df).
Proof.
  intros H. unfold Bert.readm_of.
  replace (existsb _ frame) with true; [reflexivity|].
  symmetry. apply existsb_exists.
  apply in_map_iff in H as (r & Hr & Hin). exists r. split; auto. now rewrite Hr.
Qed.

Lemma labelled_text_unlabelled st_aug text_df readm r :
  In r text_df ->
  ~ In (Bert.tr_subject_id r) (map fst readm) ->
  In None (map Bert.lr_readm (Bert.labelled_text st_aug text_df readm)).
Proof.
  intros Hr Hno. unfold Bert.labelled_text. rewrite map_map. simpl.
  apply in_map_iff. exists (r, None). split; auto.
  now apply merge_left_keeps_unlabelled.
Qed.

(** With an unlabelled patient in the test corpus, the test-stage setup
    raises [TypeError]. *)
Lemma setup_test_unlabelled_raises st_aug text_df readm r :
  In r text_df ->
  ~ In (Bert.tr_subject_id r) (map fst readm) ->
  Bert.dataframe_setup_test st_aug text_df readm = inl TypeError.
Proof.
  intros Hr Hno. unfold Bert.dataframe_setup_test.
  rewrite readm_of_float by eauto using labelled_text_unlabelled. reflexivity.
Qed.

(** With an unlabelled patient in the training corpus, the fit-stage setup
    raises as well, wherever the random split puts the patient. *)
Lemma setup_fit_unlabelled_raises st_aug sample val_frac text_df readm r :
  In r text_df ->
  ~ In (Bert.tr_subject_id r) (map fst readm) ->
  Bert.dataframe_setup_fit st_aug sample val_frac text_df readm = inl TypeError \/
  Bert.dataframe_setup_fit st_aug sample val_frac text_df readm = inl ValueError.
Proof.
  intros Hr Hno. unfold Bert.dataframe_setup_fit.
  destruct (_ || _)%bool; [now right|]. left.
  rewrite readm_of_float by eauto using labelled_text_unlabelled. reflexivity.
Qed.

(** C6. Patient 2 has a note and no label row.  The Word2Vec loader drops
    the patient.  The transformer pipeline does not: the left join keeps
    the note with a missing label, and both the test-stage and the
    fit-stage setup then raise [TypeError].  In general: the Word2Vec
    loader collects only patients of the label table; the left join keeps
    every note of an unlabelled patient, and with such a note the
    test-stage setup raises [TypeError] and the fit-stage setup raises
    too, whatever the random split. *)
Theorem unlabelled_patient_kept_by_setup (word_tokenize : string -> list string) :
  fst (W2V.load_chunks word_tokenize false false Examples.readm_for_one
         [Examples.two_patients_chunk] ([], []))
  = ["1"%string] /\
  map (fun r => (Bert.lr_subject_id r, Bert.lr_readm r))
      (Bert.labelled_text false Examples.two_patients Examples.labels_for_one)
  = [ (1%Z, Some 1%Z); (2%Z, None) ] /\
  Bert.dataframe_setup_test false Examples.two_patients Examples.labels_for_one
  = inl TypeError /\
  Bert.dataframe_setup_fit false Examples.first_patients (1 # 2)
    Examples.two_patients Examples.labels_for_one
  = inl TypeError /\
  (forall st_aug db readm cs p,
      In p (fst (W2V.load_chunks word_tokenize st_aug db readm cs ([], []))) ->
      In p (map fst readm)) /\
  (forall st_aug sample val_frac text_df readm r,
      In r text_df ->
      ~ In (Bert.tr_subject_id r) (map fst readm) ->
      In (r, None) (Bert.merge_left text_df readm) /\
      Bert.dataframe_setup_test st_aug text_df readm = inl TypeError /\
      (Bert.dataframe_setup_fit st_aug sample val_frac text_df readm = inl TypeError \/
       Bert.dataframe_setup_fit st_aug sample val_frac text_df readm = inl ValueError)).
Proof.
  do 4 (split; [reflexivity|]). split.
  - intros st_aug db readm cs p. apply w2v_loader_drops_unlabelled.
  - intros st_aug sample val_frac text_df readm r Hr Hno. split; [|split].
    + now apply merge_left_keeps_unlabelled.
    + now apply setup_test_unlabelled_raises with (r := r).
    + now apply setup_fit_unlabelled_raises with (r := r).
Qed.

(** ** Partial fine-tuning *)

(** With the flag off, a parameter requires a gradient afterwards exactly
    when it did before and its name does not start with [embeddings]. *)
Lemma freeze_embeddings_spec ps :
  Bert.freeze_embeddings false ps
  = map (fun np => (fst np, snd np && negb (Bert.startswith (fst np) "embeddings"))) ps.
Proof.
  unfold Bert.freeze_embeddings. simpl. apply map_ext. intros [n g]. simpl.
  destruct (Bert.startswith n "embeddings"); simpl.
  - now rewrite andb_false_r.
  - now rewrite andb_true_r.
Qed.

Lemma freeze_embeddings_on ps : Bert.freeze_embeddings true ps = ps.
Proof. reflexivity. Qed.

(** [forward] does not read the flag. *)
Lemma forward_ignores_flag {Logits} (model : Bert.tensor -> Bert.tensor -> list Logits)
    b1 b2 ids masks :
  Bert.forward model b1 ids masks = Bert.forward model b2 ids masks.
Proof. reflexivity. Qed.

(** C7. On the parameter names of the model the predictor loads, no name
    starts with [embeddings] (they start with [bert.embeddings]): with
    the flag off the loop changes nothing and every embedding parameter
    stays trainable.  On names without the [bert.] prefix the same loop
    freezes exactly the embedding parameter.  In general the loop clears
    [requires_grad] exactly on the names that start with [embeddings],
    leaves everything unchanged when the flag is on, and [forward] does
    not depend on the flag. *)
Theorem freeze_misses_bert_embeddings :
  Bert.freeze_embeddings false Examples.bert_named_parameters
  = Examples.bert_named_parameters /\
  Bert.trainable (Bert.freeze_embeddings false Examples.bert_named_parameters)
  = map fst Examples.bert_named_parameters /\
  Bert.trainable (Bert.freeze_embeddings false Examples.bare_named_parameters)
  = ["encoder.layer.0.attention.self.query.weight"%string] /\
  (forall ps,
      Bert.freeze_embeddings false ps
      = map (fun np => (fst np,
                        snd np && negb (Bert.startswith (fst np) "embeddings"))) ps /\
      Bert.freeze_embeddings true ps = ps) /\
  (forall (model : Bert.tensor -> Bert.tensor -> list (list Q)) b1 b2 ids masks,
      Bert.forward model b1 ids masks = Bert.forward model b2 ids masks).
Proof.
  do 3 (split; [reflexivity|]). split.
  - intros ps. split; [apply freeze_embeddings_spec | reflexivity].
  - reflexivity.
Qed.

(** ** [_aggreg_subseq_logits] *)

Lemma project_exn s outs e : Bert.project s outs = inl e -> e = KeyError.
Proof.
  induction outs as [|o outs IH]; simpl; [discriminate|].
  unfold Bert.str_getitem. destruct (dict_get String.eqb o s); simpl.
  - destruct (Bert.project s outs); simpl; [|discriminate].
    intros [= <-]. auto.
  - now intros [= <-].
Qed.

(** [_aggreg_subseq_logits] raises on every input: a missing key gives
    [KeyError], and when all three keys are present, [logits] is a Python
    list, which has no [shape]. *)
Lemma aggreg_subseq_logits_raises scale_factor output_list :
  Bert._aggreg_subseq_logits scale_factor output_list = inl KeyError \/
  Bert._aggreg_subseq_logits scale_factor output_list = inl AttributeError.
Proof.
  unfold Bert._aggreg_subseq_logits.
  destruct (Bert.project "logits" output_list) as [e|logits] eqn:E1; simpl.
  { left. f_equal. eauto using project_exn. }
  destruct (Bert.project "labels" output_list) as [e|labels] eqn:E2; simpl.
  { left. f_equal. eauto using project_exn. }
  destruct (Bert.project "patient_ids" output_list) as [e|pids] eqn:E3; simpl.
  { left. f_equal. eauto using project_exn. }
  now right.
Qed.

(** On what [test_step] returns, the key [patient_ids] is missing. *)
Lemma aggreg_test_step_outputs_raise scale_factor loss logits labels rest :
  Forall (fun o => exists l g b, o = Bert.test_step_output l g b) rest ->
  Bert._aggreg_subseq_logits scale_factor
    (Bert.test_step_output loss logits labels :: rest) = inl KeyError.
Proof.
  intros Hrest. unfold Bert._aggreg_subseq_logits.
  assert (P : forall s, s = "logits"%string \/ s = "labels"%string ->
              exists vs, Bert.project s rest = inr vs).
  { intros s Hs. induction Hrest as [|o rest (l & g & b & ->) _ [vs IH]]; simpl; eauto.
    rewrite IH. destruct Hs as [-> | ->]; simpl; eauto. }
  destruct (P "logits"%string) as [v1 H1]; auto.
  destruct (P "labels"%string) as [v2 H2]; auto.
  cbn [Bert.project]. rewrite H1, H2. reflexivity.
Qed.

(** The blend itself: for a single score and a scale factor of 2 the
    result is that score. *)
Lemma scale_single_unit x :
  exists q, Bert._scale 2 [x] = inr q /\ (q == x)%Q.
Proof.
  unfold Bert._scale. simpl. eexists. split; [reflexivity|].
  unfold Np.mean, Np.qsum, Np.qlen. simpl. field.
Qed.

(** C2. [_aggreg_subseq_logits] computes no patient aggregate: for every
    scale factor and every list of outputs it raises [KeyError] or
    [AttributeError]; on the output of [test_step] for one batch with one
    Unit it raises [KeyError] (the dictionaries carry no [patient_ids]),
    on an empty list [AttributeError].  The blend of a single score with
    scale factor 2, computed by [_scale] alone, would be that score (in
    exact arithmetic, as [_scale] is modelled). *)
Theorem aggreg_subseq_logits_diverges (scale_factor : Q) :
  Bert._aggreg_subseq_logits scale_factor [Examples.one_unit_batch] = inl KeyError /\
  Bert._aggreg_subseq_logits scale_factor [] = inl AttributeError /\
  (forall output_list,
      Bert._aggreg_subseq_logits scale_factor output_list = inl KeyError \/
      Bert._aggreg_subseq_logits scale_factor output_list = inl AttributeError) /\
  (forall x, exists q, Bert._scale 2 [x] = inr q /\ (q == x)%Q).
Proof.
  split; [reflexivity|]. split; [reflexivity|]. split.
  - apply aggreg_subseq_logits_raises.
  - apply scale_single_unit.
Qed.

(** ** Dictionary lookups *)

Section DictLookup.
Context {V : Type}.

Lemma dict_get_set_same (d : dict (K:=string) (V:=V)) k v :
  dict_get String.eqb (dict_set String.eqb d k v) k = Some v.
Proof.
  induction d as [|[k' v'] d IH]; simpl.
  - now rewrite String.eqb_refl.
  - destruct (String.eqb k' k) eqn:E; simpl; rewrite E; auto.
Qed.

Lemma dict_get_set_other (d : dict (K:=string) (V:=V)) k v k' :
  k <> k' ->
  dict_get String.eqb (dict_set String.eqb d k v) k' = dict_get String.eqb d k'.
Proof.
  intros Hne. induction d as [|[k0 v0] d IH]; simpl.
  - destruct (String.eqb_spec k k'); [contradiction | reflexivity].
  - destruct (String.eqb_spec k0 k) as [->|Hk]; simpl.
    + destruct (String.eqb_spec k k'); [contradiction | reflexivity].
    + destruct (String.eqb k0 k'); auto.
Qed.

Lemma dict_get_filter (f : string -> bool) (d : dict (K:=string) (V:=V)) k :
  dict_get String.eqb (filter (fun kv => f (fst kv)) d) k
  = if f k then dict_get String.eqb d k else None.
Proof.
  induction d as [|[k0 v0] d IH]; simpl.
  - now destruct (f k).
  - destruct (f k0) eqn:F0; simpl.
    + destruct (String.eqb_spec k0 k) as [->|Hk]; [now rewrite F0 | exact IH].
    + destruct (String.eqb_spec k0 k) as [->|Hk]; [now rewrite F0 in * | exact IH].
Qed.

Lemma dict_get_none_iff (d : dict (K:=string) (V:=V)) k :
  dict_get String.eqb d k = None <-> ~ In k (dict_keys d).
Proof.
  split.
  - apply (dict_get_none_not_in String.eqb String.eqb_eq).
  - apply dict_get_not_in.
Qed.

(** Updating with pairs of distinct keys: a key of the update gets the
    new value, any other key keeps its old one. *)
Lemma dict_get_fold_set (pairs : list (string * V)) : forall (d : dict (K:=string) (V:=V)) k,
  NoDup (map fst pairs) ->
  dict_get String.eqb
    (fold_left (fun d kv => dict_set String.eqb d (fst kv) (snd kv)) pairs d) k
  = match dict_get String.eqb pairs k with
    | Some v => Some v
    | None => dict_get String.eqb d k
    end.
Proof.
  induction pairs as [|[k1 v1] pairs IH]; intros d k Hnd; simpl; auto.
  inversion Hnd as [|? ? Hnotin Hnd']; subst.
  rewrite IH by auto.
  destruct (String.eqb_spec k1 k) as [->|Hne].
  - replace (dict_get String.eqb pairs k) with (@None V)
      by (symmetry; now apply dict_get_none_iff).
    apply dict_get_set_same.
  - destruct (dict_get String.eqb pairs k); auto.
    now apply dict_get_set_other.
Qed.

Lemma filter_keys_nodup (f : string * V -> bool) (d : list (string * V)) :
  NoDup (map fst d) -> NoDup (map fst (filter f d)).
Proof.
  induction d as [|kv d IH]; simpl; intros H; [constructor|].
  inversion H as [|? ? Hnotin Hnd]; subst.
  destruct (f kv); simpl; auto. constructor; auto.
  intros Hin. apply Hnotin.
  apply in_map_iff in Hin as (x & Hx & Hin). apply filter_In in Hin as [Hin _].
  apply in_map_iff. eauto.
Qed.
End DictLookup.

(** ** [W2VEmbedAggregate.set_params] and [fit] *)

Lemma set_params_run names kwargs : forall self,
  Aggregator.self_arg_names self = inr names ->
  ~ In "arg_names"%string names ->
  Aggregator.set_params self kwargs
  = inr (Aggregator.dict_update self (filter (Aggregator.allowed names) kwargs)) /\
  Aggregator.self_arg_names
    (Aggregator.dict_update self (filter (Aggregator.allowed names) kwargs))
  = inr names.
Proof.
  unfold Aggregator.set_params, Aggregator.dict_update.
  induction kwargs as [|[k v] kwargs IH]; intros self Hn Hnot; simpl; auto.
  unfold Aggregator.set_param at 1. rewrite Hn. cbn [bind].
  destruct (Aggregator.allowed names (k, v)) eqn:A;
    cbn [bind ret filter fold_left fst snd]; rewrite ?A; cbn [fold_left fst snd]; auto.
  apply IH; auto.
  unfold Aggregator.self_arg_names in *.
  rewrite dict_get_set_other; auto.
  intros ->. apply Hnot. unfold Aggregator.allowed in A. cbn [fst] in A.
  apply existsb_exists in A as (x & Hx & E). apply String.eqb_eq in E. now subst.
Qed.

Lemma dict_get_allowed names (d : list (string * Aggregator.attr_value)) k :
  dict_get String.eqb (filter (Aggregator.allowed names) d) k
  = if existsb (String.eqb k) names then dict_get String.eqb d k else None.
Proof. exact (dict_get_filter (fun k => existsb (String.eqb k) names) d k). Qed.

Lemma arg_names_not_listed : ~ In "arg_names"%string W2V.arg_names.
Proof.
  unfold W2V.arg_names. intros H.
  repeat (destruct H as [H|H]; [discriminate H|]). exact H.
Qed.

(** ** [W2VEmbedAggregate.fit] *)

(** Whatever attributes the aggregator holds, [fit] hands no [seed]
    keyword to [Word2Vec]. *)
Lemma fit_passes_no_seed {V} (attrs : list (string * V)) :
  ~ In "seed"%string (map fst (W2V.w2v_kwargs attrs)).
Proof.
  intros H. apply in_map_iff in H as ([k v] & Hk & Hin). simpl in Hk. subst k.
  apply filter_In in Hin as [_ Hin]. simpl in Hin. discriminate.
Qed.

(** ** The grid search of [choose_params] *)

(** Whatever [set_params] receives, the keyword arguments [fit] builds
    hold only names of [arg_names], and no seed. *)
Lemma fit_kwargs_no_seed ids kw0 kwargs :
  exists self kw,
    Aggregator.set_params (Aggregator.__init__ ids kw0) kwargs = inr self /\
    Aggregator.fit_kwargs self = inr kw /\
    dict_get String.eqb kw "seed"%string = None /\
    incl (map fst kw) W2V.arg_names.
Proof.
  destruct (set_params_run W2V.arg_names kwargs (Aggregator.__init__ ids kw0))
    as [Hrun Hnames]; [reflexivity | exact arg_names_not_listed |].
  set (self := Aggregator.dict_update _ _) in *.
  exists self, (filter (Aggregator.allowed W2V.arg_names) self).
  split; [exact Hrun|]. split; [|split].
  - unfold Aggregator.fit_kwargs. destruct self as [|kv self'] eqn:Es.
    + discriminate Hnames.
    + rewrite <- Es in *. now rewrite Hnames.
  - rewrite dict_get_allowed. reflexivity.
  - intros k Hk. apply in_map_iff in Hk as ([k' v] & <- & Hin).
    apply filter_In in Hin as [_ Hin]. unfold Aggregator.allowed in Hin.
    apply existsb_exists in Hin as (x & Hx & E). cbn [fst] in *.
    apply String.eqb_eq in E. now subst.
Qed.

(** C8. Two runs of the grid search, whatever the search itself does in
    each (its behaviour may depend on process-wide random state), do not
    return a best hyperparameter combination: on the example corpus and
    on every corpus and label table, from every predictor state,
    [choose_params] raises [TypeError] in the loading call, before
    the search is built; the runs agree only in raising.  Nor does the
    seed reach every stochastic component: the classifier and the
    cross-validation splitter are built with [random_state = seed], but
    the aggregator is built from the patient ids alone, and whatever
    keyword arguments [set_params] then receives, [fit] calls [Word2Vec]
    with names of [arg_names] only, never with a seed. *)
Theorem choose_params_returns_no_combination
    (word_tokenize : string -> list string) (st_aug db : bool)
    (run1 run2 : W2V.predictor -> res W2V.predictor) :
  W2V.choose_params word_tokenize st_aug db run1 W2V.init_predictor
    [Examples.two_patients_chunk] Examples.readm_for_one
  = inl TypeError /\
  (forall self corpus_df readm_df,
      W2V.choose_params word_tokenize st_aug db run1 self corpus_df readm_df
      = inl TypeError /\
      W2V.choose_params word_tokenize st_aug db run2 self corpus_df readm_df
      = inl TypeError) /\
  (forall seed train_patient_ids,
      dict_get String.eqb
        (GridSearch.clf_kwargs (GridSearch.build_search seed train_patient_ids))
        "random_state"%string
      = Some (GridSearch.ArgInt seed) /\
      dict_get String.eqb
        (GridSearch.cv_kwargs (GridSearch.build_search seed train_patient_ids))
        "random_state"%string
      = Some (GridSearch.ArgInt seed) /\
      forall kwargs,
        exists self kw,
          Aggregator.set_params
            (GridSearch.embed_agg (GridSearch.build_search seed train_patient_ids))
            kwargs = inr self /\
          Aggregator.fit_kwargs self = inr kw /\
          dict_get String.eqb kw "seed"%string = None /\
          incl (map fst kw) W2V.arg_names).
Proof.
  split; [apply choose_params_raises|]. split.
  - intros. split; apply choose_params_raises.
  - intros seed ids. split; [reflexivity|]. split; [reflexivity|].
    intros kwargs. apply fit_kwargs_no_seed.
Qed.

(* ===================================================================== *)
(** * Further properties of the code *)
(* ===================================================================== *)

(** ** [W2VEmbedAggregate.set_params] followed by [fit] *)

(** X1. After a call of [set_params] on a freshly built aggregator, the
    keyword arguments that [fit] hands to [Word2Vec] are exactly the
    given ones whose name is in [arg_names]: an accepted name carries the
    given value, any other name (a seed, [patient_ids], [arg_names]) is
    not passed. *)
Theorem set_params_then_fit (ids : list string)
    (kw0 kwargs : list (string * Aggregator.attr_value)) :
  NoDup (map fst kwargs) ->
  exists self kw,
    Aggregator.set_params (Aggregator.__init__ ids kw0) kwargs = inr self /\
    Aggregator.fit_kwargs self = inr kw /\
    forall k, dict_get String.eqb kw k
              = if existsb (String.eqb k) W2V.arg_names
                then dict_get String.eqb kwargs k else None.
Proof.
  intros Hnd.
  destruct (set_params_run W2V.arg_names kwargs (Aggregator.__init__ ids kw0))
    as [Hrun Hnames]; [reflexivity | exact arg_names_not_listed |].
  set (self := Aggregator.dict_update _ _) in *.
  exists self, (filter (Aggregator.allowed W2V.arg_names) self).
  split; [exact Hrun|]. split.
  - unfold Aggregator.fit_kwargs. destruct self as [|kv self'] eqn:Es.
    + discriminate Hnames.
    + rewrite <- Es in *. now rewrite Hnames.
  - intros k. rewrite dict_get_allowed.
    destruct (existsb (String.eqb k) W2V.arg_names) eqn:Ek; [|reflexivity].
    unfold self, Aggregator.dict_update.
    rewrite dict_get_fold_set by now apply filter_keys_nodup.
    rewrite dict_get_allowed, Ek.
    destruct (dict_get String.eqb kwargs k); [reflexivity|].
    unfold Aggregator.__init__. cbn [dict_get].
    destruct (String.eqb_spec "patient_ids" k) as [<-|_]; [discriminate Ek|].
    destruct (String.eqb_spec "arg_names" k) as [<-|_]; [discriminate Ek|].
    reflexivity.
Qed.

Lemma set_params_then_fit_witness :
  NoDup (map fst Fixtures.grid_point) /\
  exists self kw,
    Aggregator.set_params (Aggregator.__init__ ["7"; "8"]%string []) Fixtures.grid_point
    = inr self /\
    Aggregator.fit_kwargs self = inr kw /\
    forall k, dict_get String.eqb kw k
              = if existsb (String.eqb k) W2V.arg_names
                then dict_get String.eqb Fixtures.grid_point k else None.
Proof.
  assert (H : NoDup (map fst Fixtures.grid_point)).
  { simpl. repeat constructor; simpl; intuition discriminate. }
  split; [exact H|].
  exact (set_params_then_fit ["7"; "8"]%string [] Fixtures.grid_point H).
Defined.

(** ** [W2VEmbedAggregate.transform]: composition and bounds *)

(** X2. [transform] works note by note: the matrix of a corpus split in
    two parts is the matrix of the first part stacked on the matrix of
    the second, and it fails exactly when one of the parts fails. *)
Theorem transform_app (wv : W2V.KeyedVectors) (t1 t2 : list (list string)) :
  W2V.transform wv (t1 ++ t2)
  = (X1 <- W2V.transform wv t1 ;; X2 <- W2V.transform wv t2 ;; ret (X1 ++ X2)).
Proof.
  induction t1 as [|note t1 IH]; simpl.
  - now destruct (W2V.transform wv t2).
  - destruct (W2V.transform_row wv note) as [e|row]; simpl; auto.
    rewrite IH. destruct (W2V.transform wv t1) as [e|X1]; simpl; auto.
    now destruct (W2V.transform wv t2).
Qed.

Lemma resolved_known wv note :
  W2V.resolved wv
    (filter (fun w => match W2V.vocab wv w with Some _ => true | None => false end) note)
  = W2V.resolved wv note.
Proof.
  unfold W2V.resolved. induction note as [|w note IH]; simpl; auto.
  destruct (W2V.vocab wv w) as [v|] eqn:E; simpl; [rewrite E; simpl|]; now rewrite IH.
Qed.

Lemma transform_row_resolved wv n1 n2 :
  W2V.resolved wv n1 = W2V.resolved wv n2 ->
  W2V.transform_row wv n1 = W2V.transform_row wv n2.
Proof.
  intros H. unfold W2V.transform_row. rewrite !collect_vectors_resolved.
  cbn [bind app]. now rewrite H.
Qed.

(** X3. Out-of-vocabulary tokens have no effect at all: [transform]
    gives the same result, row by row, on the corpus from which every
    token unknown to the embedding has been removed. *)
Theorem transform_ignores_unknown (wv : W2V.KeyedVectors) (text : list (list string)) :
  W2V.transform wv text
  = W2V.transform wv
      (map (filter (fun w => match W2V.vocab wv w with Some _ => true | None => false end))
           text).
Proof.
  induction text as [|note text IH]; simpl; auto.
  rewrite IH.
  now rewrite (transform_row_resolved wv note _ (eq_sym (resolved_known wv note))).
Qed.

(** The running maximum and minimum bound the start value and every
    entry met on the way. *)
Lemma fold_max_ge_init col : forall m, (m <= fold_left Qmax col m)%Q.
Proof.
  induction col as [|x col IH]; intros m; simpl; [apply Qle_refl|].
  eapply Qle_trans; [apply Q.le_max_l | apply IH].
Qed.

Lemma fold_max_ge_in col : forall m y, In y col -> (y <= fold_left Qmax col m)%Q.
Proof.
  induction col as [|x col IH]; intros m y; simpl; [contradiction|].
  intros [->|Hin]; [|now apply IH].
  eapply Qle_trans; [apply Q.le_max_r | apply fold_max_ge_init].
Qed.

Lemma fold_min_le_init col : forall m, (fold_left Qmin col m <= m)%Q.
Proof.
  induction col as [|x col IH]; intros m; simpl; [apply Qle_refl|].
  eapply Qle_trans; [apply IH | apply Q.le_min_l].
Qed.

Lemma fold_min_le_in col : forall m y, In y col -> (fold_left Qmin col m <= y)%Q.
Proof.
  induction col as [|x col IH]; intros m y; simpl; [contradiction|].
  intros [->|Hin]; [|now apply IH].
  eapply Qle_trans; [apply fold_min_le_init | apply Q.le_min_r].
Qed.

Lemma resolved_in wv note w v :
  In w note -> W2V.vocab wv w = Some v -> In v (W2V.resolved wv note).
Proof.
  intros Hw Hv. unfold W2V.resolved. apply in_flat_map. exists w.
  split; [exact Hw|]. rewrite Hv. now left.
Qed.

(** X4. In the row that [transform] returns for a note, the max part and
    the min part bound the vector of every in-vocabulary token of that
    note, entry by entry: for each embedding dimension [j], entry
    [2 * dim + j] of the row (min) is at most entry [j] of the token's
    vector, which is at most entry [dim + j] of the row (max). *)
Theorem transform_max_min_bound_tokens
    (wv : W2V.KeyedVectors) (text : list (list string)) :
  W2V.wf_embedding wv ->
  exists X,
    W2V.transform wv text = inr X /\
    forall i note w v j,
      nth_error text i = Some note ->
      In w note -> W2V.vocab wv w = Some v ->
      j < W2V.vector_size wv ->
      (nth (2 * W2V.vector_size wv + j) (nth i X []) 0 <= nth j v 0)%Q /\
      (nth j v 0 <= nth (W2V.vector_size wv + j) (nth i X []) 0)%Q.
Proof.
  intros Hwf. exists (map (W2V.note_row wv) text).
  split; [now apply transform_map|].
  intros i note w v j Hi Hw Hv Hj.
  rewrite (nth_error_nth _ _ _ (map_nth_error (W2V.note_row wv) _ _ Hi)).
  unfold W2V.note_row.
  pose proof (resolved_wf wv note Hwf) as Hall.
  pose proof (resolved_in wv note w v Hw Hv) as Hin.
  destruct (W2V.resolved wv note) as [|r rs]; [destruct Hin|].
  apply Forall_cons_iff in Hall as [Hr Hrs].
  set (d := W2V.vector_size wv) in *.
  assert (Lmean : length (mean0 r rs) = d) by now apply mean0_length.
  assert (Lmax : length (max0 r rs) = d) by now apply reduce0_length.
  assert (E2 : nth (d + j) (mean0 r rs ++ max0 r rs ++ min0 r rs) 0%Q
               = nth j (max0 r rs) 0%Q).
  { rewrite app_nth2 by lia. rewrite app_nth1 by lia. f_equal. lia. }
  assert (E3 : nth (2 * d + j) (mean0 r rs ++ max0 r rs ++ min0 r rs) 0%Q
               = nth j (min0 r rs) 0%Q).
  { rewrite app_nth2 by lia. rewrite app_nth2 by lia. f_equal. lia. }
  rewrite E2, E3. unfold max0, min0.
  rewrite (reduce0_nth Qmax r rs d j Hr Hrs Hj).
  rewrite (reduce0_nth Qmin r rs d j Hr Hrs Hj).
  destruct Hin as [<- | Hin].
  - split; [apply fold_min_le_init | apply fold_max_ge_init].
  - assert (Hc : In (nth j v 0%Q) (column j rs))
      by (unfold column; now apply (in_map (fun r => nth j r 0%Q))).
    split; [now apply fold_min_le_in | now apply fold_max_ge_in].
Qed.

Lemma transform_max_min_bound_tokens_witness :
  W2V.wf_embedding Examples.toy_wv /\
  exists X,
    W2V.transform Examples.toy_wv Examples.toy_text = inr X /\
    forall i note w v j,
      nth_error Examples.toy_text i = Some note ->
      In w note -> W2V.vocab Examples.toy_wv w = Some v ->
      j < W2V.vector_size Examples.toy_wv ->
      (nth (2 * W2V.vector_size Examples.toy_wv + j) (nth i X []) 0 <= nth j v 0)%Q /\
      (nth j v 0 <= nth (W2V.vector_size Examples.toy_wv + j) (nth i X []) 0)%Q.
Proof.
  split; [exact toy_wv_wf|].
  exact (transform_max_min_bound_tokens Examples.toy_wv Examples.toy_text toy_wv_wf).
Defined.

(** ** [_load_data]: what is loaded *)

Lemma load_chunk_app wt st_aug readm acc c1 c2 :
  W2V.load_chunk wt st_aug readm acc (c1 ++ c2)
  = W2V.load_chunk wt st_aug readm (W2V.load_chunk wt st_aug readm acc c1) c2.
Proof.
  destruct acc as [ids text]. unfold W2V.load_chunk.
  rewrite filter_app, !map_app, !app_assoc. reflexivity.
Qed.

Lemma load_chunk_nil wt st_aug readm acc :
  W2V.load_chunk wt st_aug readm acc [] = acc.
Proof. destruct acc as [ids text]. unfold W2V.load_chunk. simpl. now rewrite !app_nil_r. Qed.

(** X5. With the debug flag off, what the chunk loop of [_load_data]
    collects (patient ids and tokenized notes) depends only on the rows
    of the corpus, not on how [read_csv] cuts them into chunks: it is
    what a single chunk holding all rows gives. *)
Theorem load_chunks_chunking (word_tokenize : string -> list string) (st_aug : bool)
    (readm_df : W2V.readm_table) (corpus_df : list W2V.chunk)
    (acc : list string * list (list string)) :
  W2V.load_chunks word_tokenize st_aug false readm_df corpus_df acc
  = W2V.load_chunk word_tokenize st_aug readm_df acc (concat corpus_df).
Proof.
  revert acc. induction corpus_df as [|c cs IH]; intros acc; simpl.
  - now rewrite load_chunk_nil.
  - now rewrite IH, load_chunk_app.
Qed.

Lemma load_chunk_aligned wt st_aug readm acc c :
  length (fst acc) = length (snd acc) ->
  length (fst (W2V.load_chunk wt st_aug readm acc c))
  = length (snd (W2V.load_chunk wt st_aug readm acc c)).
Proof.
  destruct acc as [ids text]. simpl. intros H.
  rewrite !length_app, !length_map. lia.
Qed.

Lemma load_chunks_aligned wt st_aug db readm cs : forall acc,
  length (fst acc) = length (snd acc) ->
  length (fst (W2V.load_chunks wt st_aug db readm cs acc))
  = length (snd (W2V.load_chunks wt st_aug db readm cs acc)).
Proof.
  induction cs as [|c cs IH]; simpl; intros acc H; auto.
  destruct db; [now apply load_chunk_aligned|].
  apply IH. now apply load_chunk_aligned.
Qed.

Lemma fold_set_get_in (l : list (string * Z)) : forall (d : dict (K:=string) (V:=Z)) p v,
  dict_get String.eqb
    (fold_left (fun d e => dict_set String.eqb d (fst e) (snd e)) l d) p = Some v ->
  In (p, v) l \/ dict_get String.eqb d p = Some v.
Proof.
  induction l as [|[k x] l IH]; intros d p v H; simpl in *; auto.
  apply IH in H as [H|H]; auto.
  destruct (String.eqb_spec k p) as [->|Hne].
  - rewrite dict_get_set_same in H. injection H as ->. auto.
  - rewrite dict_get_set_other in H by auto. auto.
Qed.

Lemma fold_set_get_some (l : list (string * Z)) : forall (d : dict (K:=string) (V:=Z)) p,
  In p (map fst l) \/ (exists v, dict_get String.eqb d p = Some v) ->
  exists v, dict_get String.eqb
              (fold_left (fun d e => dict_set String.eqb d (fst e) (snd e)) l d) p = Some v.
Proof.
  induction l as [|[k x] l IH]; intros d p H; simpl in *.
  - destruct H as [[]|H]; auto.
  - apply IH. destruct H as [[->|H]|[v H]]; auto; right.
    + exists x. apply dict_get_set_same.
    + destruct (String.eqb_spec k p) as [->|Hne].
      * exists x. apply dict_get_set_same.
      * exists v. now rewrite dict_get_set_other.
Qed.

Lemma list_index_nth l x i :
  W2V.list_index l x = inr i -> nth_error l i = Some x.
Proof.
  revert i. induction l as [|y l IH]; simpl; intros i; [discriminate|].
  destruct (String.eqb_spec y x) as [->|_].
  - now intros [= <-].
  - intros H. apply bind_inr in H as (j & Hj & H). injection H as <-. simpl. auto.
Qed.

Lemma ordered_labels_from_table (kept : W2V.readm_table) uids ls :
  W2V.ordered_labels (map fst kept) (map snd kept) uids = inr ls ->
  Forall2 (fun p l => In (p, l) kept) uids ls.
Proof.
  revert ls. induction uids as [|p uids IH]; simpl; intros ls H.
  - injection H as <-. constructor.
  - apply bind_inr in H as (i & Hi & H).
    apply bind_inr in H as (l & Hl & H).
    apply bind_inr in H as (ls' & Hls & H). injection H as <-.
    constructor; auto.
    apply list_index_nth in Hi. unfold W2V.array_get in Hl.
    destruct (nth_error (map snd kept) i) as [l'|] eqn:El; [|discriminate].
    injection Hl as ->.
    rewrite nth_error_map in Hi, El.
    destruct (nth_error kept i) as [[p' l']|] eqn:Ek; [|discriminate].
    simpl in Hi, El. injection Hi as ->. injection El as ->.
    eapply nth_error_In; eauto.
Qed.

Lemma gridsearch_labels_from_table (kept : W2V.readm_table) ids :
  Forall (fun p => In p (map fst kept)) ids ->
  Forall2 (fun p l => In (p, l) kept) ids
          (W2V.gridsearch_labels_of (Loader.ordering_map kept) ids).
Proof.
  unfold W2V.gridsearch_labels_of.
  induction 1 as [|p ids Hp _ IH]; simpl; [constructor|].
  destruct (fold_set_get_some kept [] p (or_introl Hp)) as [v Hv].
  unfold Loader.ordering_map. rewrite Hv. simpl. constructor; auto.
  apply fold_set_get_in in Hv as [Hv|Hv]; [exact Hv | discriminate].
Qed.

Lemma loaded_arrays_facts (word_tokenize : string -> list string) (st_aug db : bool)
    (corpus_df : list W2V.chunk) (readm_df : W2V.readm_table) :
  exists ids text labels gridsearch_labels,
    Loader.loaded_arrays word_tokenize st_aug db corpus_df readm_df
    = inr (ids, text, labels, gridsearch_labels) /\
    length text = length ids /\
    Forall2 (fun p l => In (p, l) readm_df) ids gridsearch_labels /\
    Forall2 (fun p l => In (p, l) readm_df) (W2V.unique_ids ids) labels /\
    W2V._load_data word_tokenize st_aug db corpus_df readm_df true
    = W2V.py_tuple [W2V.ids_array ids; W2V.text_list text; W2V.labels_array labels;
                    W2V.labels_array gridsearch_labels] /\
    W2V._load_data word_tokenize st_aug db corpus_df readm_df false
    = W2V.py_tuple [W2V.ids_array ids; W2V.text_list text; W2V.labels_array labels].
Proof.
  unfold Loader.loaded_arrays, W2V._load_data, Loader.kept_table.
  pose proof (load_chunks_labelled word_tokenize st_aug db readm_df corpus_df ([], [])
                (Forall_nil _)) as Hids.
  pose proof (load_chunks_aligned word_tokenize st_aug db readm_df corpus_df ([], [])
                eq_refl) as Hlen.
  destruct (W2V.load_chunks word_tokenize st_aug db readm_df corpus_df ([], []))
    as [ids text]. simpl in Hids, Hlen.
  set (kept := filter (fun e => W2V.mem (fst e) ids) readm_df) in *.
  assert (Hkept : Forall (fun p => In p (map fst kept)) ids).
  { apply Forall_forall. intros p Hp.
    rewrite Forall_forall in Hids. specialize (Hids p Hp).
    apply in_map_iff in Hids as (e & <- & He).
    apply in_map. apply filter_In. split; auto. now apply mem_true_iff. }
  assert (Hsub : forall p l, In (p, l) kept -> In (p, l) readm_df).
  { intros p l H. now apply filter_In in H. }
  destruct (ordered_labels_returns (map fst kept) (map snd kept) (W2V.unique_ids ids))
    as [ls Hls].
  { now rewrite !length_map. }
  { apply Forall_forall. intros p Hp. apply unique_ids_incl in Hp.
    rewrite Forall_forall in Hkept. auto. }
  exists ids, text, ls, (W2V.gridsearch_labels_of (Loader.ordering_map kept) ids).
  rewrite Hls. cbn [bind]. repeat split; auto.
  - eapply Forall2_impl; [|apply gridsearch_labels_from_table; exact Hkept].
    intros p l. apply Hsub.
  - eapply Forall2_impl; [|apply ordered_labels_from_table; exact Hls].
    intros p l. apply Hsub.
Qed.

(** X6. When [_load_data] reaches its [tuple] call, the arrays it has
    built are aligned and hold no invented label: there is one tokenized
    note per patient id, [gridsearch_labels] has one entry per note and
    [labels] one entry per distinct patient (in first-seen order), and
    each entry is a label that the label table gives for that patient.
    These are the arrays handed to [tuple]. *)
Theorem load_data_arrays (word_tokenize : string -> list string) (st_aug db : bool)
    (corpus_df : list W2V.chunk) (readm_df : W2V.readm_table) :
  exists ids text labels gridsearch_labels,
    Loader.loaded_arrays word_tokenize st_aug db corpus_df readm_df
    = inr (ids, text, labels, gridsearch_labels) /\
    length text = length ids /\
    Forall2 (fun p l => In (p, l) readm_df) ids gridsearch_labels /\
    Forall2 (fun p l => In (p, l) readm_df) (W2V.unique_ids ids) labels /\
    W2V._load_data word_tokenize st_aug db corpus_df readm_df true
    = W2V.py_tuple [W2V.ids_array ids; W2V.text_list text; W2V.labels_array labels;
                    W2V.labels_array gridsearch_labels] /\
    W2V._load_data word_tokenize st_aug db corpus_df readm_df false
    = W2V.py_tuple [W2V.ids_array ids; W2V.text_list text; W2V.labels_array labels].
Proof. apply loaded_arrays_facts. Qed.

Lemma Forall2_combine_in {A B} (R : A -> B -> Prop) xs ys x y :
  Forall2 R xs ys -> In (x, y) (combine xs ys) -> R x y.
Proof.
  induction 1 as [|a b xs ys Hab _ IH]; simpl; [contradiction|].
  intros [[= -> ->]|H]; auto.
Qed.

Lemma table_functional (readm_df : W2V.readm_table) p l l' :
  NoDup (map fst readm_df) -> In (p, l) readm_df -> In (p, l') readm_df -> l = l'.
Proof.
  induction readm_df as [|[k x] t IH]; simpl; intros Hnd H1 H2; [contradiction|].
  inversion Hnd as [|? ? Hnotin Hnd']; subst.
  destruct H1 as [E1|H1], H2 as [E2|H2].
  - congruence.
  - injection E1 as -> ->. exfalso. apply Hnotin. apply in_map_iff. now exists (p, l').
  - injection E2 as -> ->. exfalso. apply Hnotin. apply in_map_iff. now exists (p, l).
  - auto.
Qed.

(** X7. If the label table lists every patient once, the note-level
    labels and the patient-level labels that [_load_data] builds agree:
    the entry of [gridsearch_labels] for a note of patient [p] equals the
    entry of [labels] for [p]. *)
Theorem load_data_labels_agree (word_tokenize : string -> list string) (st_aug db : bool)
    (corpus_df : list W2V.chunk) (readm_df : W2V.readm_table) :
  NoDup (map fst readm_df) ->
  exists ids text labels gridsearch_labels,
    Loader.loaded_arrays word_tokenize st_aug db corpus_df readm_df
    = inr (ids, text, labels, gridsearch_labels) /\
    forall p l l',
      In (p, l) (combine ids gridsearch_labels) ->
      In (p, l') (combine (W2V.unique_ids ids) labels) ->
      l = l'.
Proof.
  intros Hnd.
  destruct (loaded_arrays_facts word_tokenize st_aug db corpus_df readm_df)
    as (ids & text & labels & gl & Hrun & _ & Hgl & Hlab & _).
  exists ids, text, labels, gl. split; [exact Hrun|].
  intros p l l' H1 H2.
  apply (Forall2_combine_in _ _ _ _ _ Hgl) in H1.
  apply (Forall2_combine_in _ _ _ _ _ Hlab) in H2.
  eapply table_functional; eauto.
Qed.

Lemma load_data_labels_agree_witness :
  NoDup (map fst Fixtures.label_table) /\
  exists ids text labels gridsearch_labels,
    Loader.loaded_arrays Fixtures.one_token false false
      Fixtures.corpus_chunks Fixtures.label_table
    = inr (ids, text, labels, gridsearch_labels) /\
    forall p l l',
      In (p, l) (combine ids gridsearch_labels) ->
      In (p, l') (combine (W2V.unique_ids ids) labels) ->
      l = l'.
Proof.
  assert (H : NoDup (map fst Fixtures.label_table)).
  { simpl. repeat constructor; simpl; intuition discriminate. }
  split; [exact H|].
  exact (load_data_labels_agree Fixtures.one_token false false
           Fixtures.corpus_chunks Fixtures.label_table H).
Defined.

(** The arrays of the example: the missing text of patient 8 becomes the
    empty note, both notes of patient 7 carry the label 1. *)
Example loaded_arrays_example :
  Loader.loaded_arrays Fixtures.one_token false false
    Fixtures.corpus_chunks Fixtures.label_table
  = inr (["7"; "8"; "7"]%string,
         [["first note"%string]; [EmptyString]; ["second note"%string]],
         [1; 0]%Z, [1; 0; 1]%Z).
Proof. reflexivity. Qed.

(** ** [_patient_aggregation]: shape of the result *)

Lemma dict_set_keys_eq {V W} (d : dict (K:=string) (V:=V)) :
  forall (u : dict (K:=string) (V:=W)) k v w,
  dict_keys d = dict_keys u ->
  dict_keys (dict_set String.eqb d k v) = dict_keys (dict_set String.eqb u k w).
Proof.
  unfold dict_keys.
  induction d as [|[k1 v1] d IH]; intros [|[k2 w2] u] k v w H; simpl in *;
    try discriminate; auto.
  injection H as -> H. destruct (String.eqb k2 k); simpl; f_equal; auto.
Qed.

Lemma group_loop_keys items : forall st st' (u : dict (K:=string) (V:=unit)),
  dict_keys (fst st) = dict_keys u ->
  for_each W2V.group_step items st = inr st' ->
  dict_keys (fst st')
  = dict_keys (fold_left (fun d p => dict_set String.eqb d p tt)
                         (map W2V.item_id items) u).
Proof.
  induction items as [|[[k v] lab] items IH]; simpl; intros st st' u Hk Hrun.
  - now injection Hrun as <-.
  - apply bind_inr in Hrun as (s1 & Hs1 & Hrun).
    apply (IH s1 st'); auto.
    destruct st as [d ls]. simpl in *.
    destruct (dict_get String.eqb d k) as [a|].
    + apply bind_inr in Hs1 as (stacked & _ & Hs1). injection Hs1 as <-. simpl.
      now apply dict_set_keys_eq.
    + injection Hs1 as <-. simpl. now apply dict_set_keys_eq.
Qed.

Lemma dict_set_length_present {V} (d : dict (K:=string) (V:=V)) k v a :
  dict_get String.eqb d k = Some a -> length (dict_set String.eqb d k v) = length d.
Proof.
  intros H. apply (dict_set_present_keys String.eqb d k v) in H.
  unfold dict_keys in H. apply (f_equal (@length _)) in H. now rewrite !length_map in H.
Qed.

(** With a label on every item, the loop keeps one label per key. *)
Lemma group_loop_labels items : forall st st',
  Forall (fun it => snd it <> None) items ->
  length (snd st) = length (fst st) ->
  for_each W2V.group_step items st = inr st' ->
  length (snd st') = length (fst st').
Proof.
  induction items as [|[[k v] lab] items IH]; simpl; intros st st' Hall Hlen Hrun.
  - now injection Hrun as <-.
  - apply Forall_cons_iff in Hall as [Hlab Hall].
    apply bind_inr in Hrun as (s1 & Hs1 & Hrun).
    apply (IH s1 st'); auto.
    destruct st as [d ls]. simpl in *.
    destruct (dict_get String.eqb d k) as [a|] eqn:Hk.
    + apply bind_inr in Hs1 as (stacked & _ & Hs1). injection Hs1 as <-. simpl.
      now rewrite (dict_set_length_present d k stacked a Hk).
    + injection Hs1 as <-. simpl.
      rewrite (dict_set_absent String.eqb) by auto.
      destruct lab as [l|]; [|congruence].
      rewrite !length_app. simpl. lia.
Qed.

(** Without labels, the loop appends none. *)
Lemma group_loop_no_labels items : forall st st',
  Forall (fun it => snd it = None) items ->
  for_each W2V.group_step items st = inr st' ->
  snd st' = snd st.
Proof.
  induction items as [|[[k v] lab] items IH]; simpl; intros st st' Hall Hrun.
  - now injection Hrun as <-.
  - apply Forall_cons_iff in Hall as [Hlab Hall]. simpl in Hlab. subst lab.
    apply bind_inr in Hrun as (s1 & Hs1 & Hrun).
    rewrite (IH s1 st') by auto.
    destruct st as [d ls]. simpl in *.
    destruct (dict_get String.eqb d k) as [a|].
    + apply bind_inr in Hs1 as (stacked & _ & Hs1). now injection Hs1 as <-.
    + now injection Hs1 as <-.
Qed.

Lemma fill_rows_length dim arrays X :
  W2V.fill_rows dim arrays = inr X -> length X = length arrays.
Proof.
  revert X. induction arrays as [|a arrays IH]; simpl; intros X H.
  - now injection H as <-.
  - apply bind_inr in H as (row & _ & H).
    apply bind_inr in H as (X' & HX' & H). injection H as <-. simpl. auto.
Qed.

Lemma agg_items_some ids vectors ls :
  Forall (fun it : string * vec * option Z => snd it <> None)
         (W2V.agg_items ids vectors (Some ls)).
Proof.
  unfold W2V.agg_items. revert vectors ls.
  induction ids as [|p ids IH]; intros [|v vs] [|l ls]; simpl; constructor; auto.
  simpl. discriminate.
Qed.

Lemma agg_items_none ids vectors :
  Forall (fun it : string * vec * option Z => snd it = None)
         (W2V.agg_items ids vectors None).
Proof.
  unfold W2V.agg_items. apply Forall_forall. intros it H.
  apply in_map_iff in H as (pv & <- & _). reflexivity.
Qed.

(** X8. Whenever [_patient_aggregation] returns, on patient ids aligned
    with the note vectors (and with the labels, when given), the matrix
    has one row per distinct patient id, every row has [dim] entries
    ([dim] being the embedding's [vector_size]), and the label array has
    one entry per row when labels are given and is empty otherwise. *)
Theorem patient_aggregation_shape (dim : nat) (ids : list string) (vectors : mat)
    (labels : option (list Z)) (X : mat) (ls : list Z) :
  length vectors = length ids ->
  match labels with Some l => length l = length ids | None => True end ->
  W2V._patient_aggregation dim ids vectors labels = inr (X, ls) ->
  length X = length (W2V.unique_ids ids) /\
  Forall (fun row => length row = dim) X /\
  length ls = match labels with Some _ => length X | None => 0 end.
Proof.
  intros Hv Hl H. unfold W2V._patient_aggregation in H.
  apply bind_inr in H as (st & Hloop & H).
  apply bind_inr in H as (X' & Hfill & H). injection H as <- <-.
  pose proof (group_loop_keys _ ([], []) st [] eq_refl Hloop) as Hkeys.
  rewrite agg_items_ids in Hkeys by auto.
  pose proof (fill_rows_length _ _ _ Hfill) as HX.
  unfold dict_values in HX. rewrite length_map in HX.
  split; [|split].
  - unfold W2V.unique_ids. rewrite <- Hkeys. unfold dict_keys.
    now rewrite length_map.
  - eauto using fill_rows_width.
  - destruct labels as [l|].
    + rewrite HX.
      apply (group_loop_labels _ ([], []) st (agg_items_some ids vectors l) eq_refl Hloop).
    + now rewrite (group_loop_no_labels _ ([], []) st (agg_items_none ids vectors) Hloop).
Qed.

Lemma patient_aggregation_shape_witness :
  length Fixtures.three_vectors = length Fixtures.three_ids /\
  length Fixtures.three_labels = length Fixtures.three_ids /\
  W2V._patient_aggregation 3 Fixtures.three_ids Fixtures.three_vectors
    (Some Fixtures.three_labels)
  = inr ([ [1 # 2; 2 # 2; 3 # 2]%Q; [12 # 3; 12 # 3; 12 # 3]%Q ], [1; 0]%Z) /\
  (length [ [1 # 2; 2 # 2; 3 # 2]%Q; [12 # 3; 12 # 3; 12 # 3]%Q ]
   = length (W2V.unique_ids Fixtures.three_ids) /\
   Forall (fun row => length row = 3)
          [ [1 # 2; 2 # 2; 3 # 2]%Q; [12 # 3; 12 # 3; 12 # 3]%Q ] /\
   length [1; 0]%Z = length [ [1 # 2; 2 # 2; 3 # 2]%Q; [12 # 3; 12 # 3; 12 # 3]%Q ]).
Proof.
  split; [reflexivity|]. split; [reflexivity|]. split; [reflexivity|].
  exact (patient_aggregation_shape 3 Fixtures.three_ids Fixtures.three_vectors
           (Some Fixtures.three_labels) _ _ eq_refl eq_refl eq_refl).
Defined.

Lemma vstack_rows dim rows x :
  Forall (fun r => length r = dim) rows -> length x = dim ->
  W2V.vstack (W2V.Arr2 rows) x = inr (W2V.Arr2 (rows ++ [x])).
Proof.
  intros Hrows Hx. unfold W2V.vstack.
  replace (forallb _ rows) with true; [reflexivity|].
  symmetry. apply forallb_forall. intros r Hr.
  rewrite Forall_forall in Hrows. apply Nat.eqb_eq. rewrite Hx. auto.
Qed.

Lemma stack_loop dim p xs : forall rows,
  Forall (fun r => length r = dim) rows ->
  Forall (fun r => length r = dim) xs ->
  for_each W2V.group_step (map (fun x => (p, x, @None Z)) xs) ([(p, W2V.Arr2 rows)], [])
  = inr ([(p, W2V.Arr2 (rows ++ xs))], []).
Proof.
  induction xs as [|x xs IH]; intros rows Hrows Hxs; cbn [map for_each].
  - now rewrite app_nil_r.
  - apply Forall_cons_iff in Hxs as [Hx Hxs].
    unfold W2V.group_step at 1. cbn [dict_get].
    rewrite String.eqb_refl. rewrite (vstack_rows dim) by auto.
    cbn [bind ret dict_set]. rewrite String.eqb_refl.
    rewrite IH; auto.
    + now rewrite <- app_assoc.
    + apply Forall_app. split; auto.
Qed.

Lemma combine_repeat {A} (p : string) (l : list A) :
  combine (repeat p (length l)) l = map (fun x => (p, x)) l.
Proof. induction l as [|x l IH]; simpl; auto. now rewrite IH. Qed.

(** X9. For note vectors whose width equals [dim], a patient that owns
    all [N >= 2] notes gets a single row: the entry-by-entry mean of the
    stacked vectors. *)
Theorem patient_aggregation_one_patient (dim : nat) (p : string) (v : vec) (vs : mat) :
  length v = dim ->
  Forall (fun r => length r = dim) vs ->
  vs <> [] ->
  W2V._patient_aggregation dim (repeat p (length (v :: vs))) (v :: vs) None
  = inr ([mean0 v vs], []).
Proof.
  intros Hv Hvs Hne. destruct vs as [|x xs]; [congruence|].
  apply Forall_cons_iff in Hvs as [Hx Hxs].
  unfold W2V._patient_aggregation, W2V.agg_items.
  rewrite combine_repeat. cbn [map fst snd for_each].
  unfold W2V.group_step at 1. cbn [dict_get dict_set ret bind].
  unfold W2V.group_step at 1. cbn [dict_get]. rewrite String.eqb_refl.
  unfold W2V.vstack. cbn [forallb]. rewrite Hv, Hx, Nat.eqb_refl.
  cbn [andb bind ret dict_set app]. rewrite String.eqb_refl.
  rewrite map_map. cbn [fst snd].
  match goal with
  | |- bind ?c _ = _ =>
      replace c with (inr ([(p, W2V.Arr2 ([v; x] ++ xs))], []) : res W2V.agg_state)
  end.
  2:{ symmetry. apply (stack_loop dim p xs [v; x]); repeat constructor; auto. }
  cbn [bind fst snd dict_values map W2V.fill_rows W2V.mean_axis0 app].
  rewrite assign_row_exact; [reflexivity|].
  apply mean0_length; auto.
Qed.

Lemma patient_aggregation_one_patient_witness :
  length Fixtures.pair_first = 2 /\
  Forall (fun r => length r = 2) Fixtures.pair_rest /\
  Fixtures.pair_rest <> [] /\
  W2V._patient_aggregation 2
    (repeat "7"%string (length (Fixtures.pair_first :: Fixtures.pair_rest)))
    (Fixtures.pair_first :: Fixtures.pair_rest) None
  = inr ([mean0 Fixtures.pair_first Fixtures.pair_rest], []).
Proof.
  assert (H1 : length Fixtures.pair_first = 2) by reflexivity.
  assert (H2 : Forall (fun r => length r = 2) Fixtures.pair_rest)
    by (repeat constructor).
  assert (H3 : Fixtures.pair_rest <> []) by discriminate.
  repeat (split; [assumption|]).
  exact (patient_aggregation_one_patient 2 "7"%string
           Fixtures.pair_first Fixtures.pair_rest H1 H2 H3).
Defined.

(** ** [EncodedDataset]: Units, shapes and bounds *)

(** The primary Unit of a dataframe row. *)
Lemma encode_row_no_overflow encode_plus seq_len ds row :
  Bert.overflowing_tokens (encode_plus (snd (fst row)) seq_len) = None ->
  length (Bert.numel (Bert.enc_input_ids (encode_plus (snd (fst row)) seq_len))) = seq_len ->
  length (Bert.numel (Bert.enc_attention_mask (encode_plus (snd (fst row)) seq_len)))
  = seq_len ->
  Bert.encode_row encode_plus seq_len ds row
  = inr {| Bert.input_ids :=
             Bert.input_ids ds
             ++ [Bert.T1 (Bert.numel (Bert.enc_input_ids
                                        (encode_plus (snd (fst row)) seq_len)))];
           Bert.attn_masks :=
             Bert.attn_masks ds
             ++ [Bert.T1 (Bert.numel (Bert.enc_attention_mask
                                        (encode_plus (snd (fst row)) seq_len)))];
           Bert.labels := Bert.labels ds ++ [snd row];
           Bert.patient_ids := Bert.patient_ids ds ++ [fst (fst row)] |}.
Proof.
  destruct row as [[patient note] label]. cbn [fst snd].
  intros Hov Hids Hmask. unfold Bert.encode_row, Bert.reshape.
  rewrite Hids, Hmask, Nat.eqb_refl. cbn [bind ret]. now rewrite Hov.
Qed.

(** X10. If the tokenizer reports no overflow for any note of the corpus
    and returns [seq_len] token ids and mask entries for each, the
    constructor completes and the dataset holds exactly one Unit per
    note, in corpus order, carrying the note's patient id and label. *)
Theorem init_without_overflow (encode_plus : string -> nat -> Bert.encoding)
    (seq_len : nat) (df : list Bert.df_row) :
  Forall (fun row =>
            Bert.overflowing_tokens (encode_plus (snd (fst row)) seq_len) = None /\
            length (Bert.numel (Bert.enc_input_ids (encode_plus (snd (fst row)) seq_len)))
            = seq_len /\
            length (Bert.numel (Bert.enc_attention_mask
                                  (encode_plus (snd (fst row)) seq_len)))
            = seq_len) df ->
  exists ds,
    Bert.init encode_plus seq_len df = inr ds /\
    Bert.__len__ ds = length df /\
    Bert.patient_ids ds = map (fun row => fst (fst row)) df /\
    Bert.labels ds = map snd df /\
    Bert.input_ids ds
    = map (fun row => Bert.T1 (Bert.numel (Bert.enc_input_ids
                                             (encode_plus (snd (fst row)) seq_len)))) df /\
    Bert.attn_masks ds
    = map (fun row => Bert.T1 (Bert.numel (Bert.enc_attention_mask
                                             (encode_plus (snd (fst row)) seq_len)))) df.
Proof.
  intros Hall. unfold Bert.init.
  assert (G : forall ds0,
             exists ds,
               for_each (Bert.encode_row encode_plus seq_len) df ds0 = inr ds /\
               Bert.patient_ids ds
               = Bert.patient_ids ds0 ++ map (fun row => fst (fst row)) df /\
               Bert.labels ds = Bert.labels ds0 ++ map snd df /\
               Bert.input_ids ds
               = Bert.input_ids ds0
                 ++ map (fun row => Bert.T1 (Bert.numel (Bert.enc_input_ids
                           (encode_plus (snd (fst row)) seq_len)))) df /\
               Bert.attn_masks ds
               = Bert.attn_masks ds0
                 ++ map (fun row => Bert.T1 (Bert.numel (Bert.enc_attention_mask
                           (encode_plus (snd (fst row)) seq_len)))) df).
  { induction Hall as [|row df (Hov & Hids & Hmask) _ IH]; intros ds0.
    - exists ds0. cbn [for_each map]. rewrite !app_nil_r. repeat split; reflexivity.
    - cbn [for_each map]. rewrite encode_row_no_overflow by auto. cbn [bind].
      match goal with
      | |- exists ds, for_each _ _ ?s = _ /\ _ =>
          destruct (IH s) as (ds & Hrun & Hp & Hl & Hi & Hm)
      end.
      exists ds. rewrite Hrun, Hp, Hl, Hi, Hm. cbn [Bert.patient_ids Bert.labels
        Bert.input_ids Bert.attn_masks]. rewrite <- !app_assoc. repeat split; reflexivity. }
  destruct (G {| Bert.input_ids := []; Bert.attn_masks := [];
                 Bert.labels := []; Bert.patient_ids := [] |})
    as (ds & Hrun & Hp & Hl & Hi & Hm).
  exists ds. cbn [Bert.patient_ids Bert.labels Bert.input_ids Bert.attn_masks app] in *.
  repeat split; auto.
  unfold Bert.__len__. rewrite Hp. apply length_map.
Qed.

Lemma init_without_overflow_witness :
  Forall (fun row =>
            Bert.overflowing_tokens (Fixtures.short_notes (snd (fst row)) 4) = None /\
            length (Bert.numel (Bert.enc_input_ids
                                  (Fixtures.short_notes (snd (fst row)) 4))) = 4 /\
            length (Bert.numel (Bert.enc_attention_mask
                                  (Fixtures.short_notes (snd (fst row)) 4))) = 4)
         Fixtures.two_notes /\
  exists ds,
    Bert.init Fixtures.short_notes 4 Fixtures.two_notes = inr ds /\
    Bert.__len__ ds = length Fixtures.two_notes /\
    Bert.patient_ids ds = map (fun row => fst (fst row)) Fixtures.two_notes /\
    Bert.labels ds = map snd Fixtures.two_notes /\
    Bert.input_ids ds
    = map (fun row => Bert.T1 (Bert.numel (Bert.enc_input_ids
                                             (Fixtures.short_notes (snd (fst row)) 4))))
          Fixtures.two_notes /\
    Bert.attn_masks ds
    = map (fun row => Bert.T1 (Bert.numel (Bert.enc_attention_mask
                                             (Fixtures.short_notes (snd (fst row)) 4))))
          Fixtures.two_notes.
Proof.
  assert (H : Forall (fun row =>
            Bert.overflowing_tokens (Fixtures.short_notes (snd (fst row)) 4) = None /\
            length (Bert.numel (Bert.enc_input_ids
                                  (Fixtures.short_notes (snd (fst row)) 4))) = 4 /\
            length (Bert.numel (Bert.enc_attention_mask
                                  (Fixtures.short_notes (snd (fst row)) 4))) = 4)
         Fixtures.two_notes).
  { repeat constructor. }
  split; [exact H|].
  exact (init_without_overflow Fixtures.short_notes 4 Fixtures.two_notes H).
Defined.

Lemma for_each_invariant_in {A S} (I : S -> Prop) (body : S -> A -> res S) xs :
  (forall s x s', In x xs -> I s -> body s x = inr s' -> I s') ->
  forall s s', I s -> for_each body xs s = inr s' -> I s'.
Proof.
  induction xs as [|x xs IH]; simpl; intros Hstep s s' Hs Hrun.
  - now injection Hrun as <-.
  - apply bind_inr in Hrun as (s1 & H1 & H2).
    apply (IH (fun s x s' Hin => Hstep s x s' (or_intror Hin)) s1 s'); auto.
    apply (Hstep s x s1); auto.
Qed.

(** What a completed overflow iteration appends. *)
Lemma overflow_step_unit seq_len overflow patient label ds i ds' :
  Bert.overflow_step seq_len overflow patient label ds i = inr ds' ->
  exists rows,
    Bert.input_ids ds' = Bert.input_ids ds ++ [Bert.T2 seq_len rows] /\
    Bert.attn_masks ds' = Bert.attn_masks ds ++ [Bert.T1 (repeat 1%Z seq_len)] /\
    Bert.labels ds' = Bert.labels ds ++ [label] /\
    Bert.patient_ids ds' = Bert.patient_ids ds ++ [patient].
Proof.
  intros H. destruct (overflow_step_never_pads _ _ _ _ _ _ _ H) as [Hshape Hmask].
  unfold Bert.overflow_step in H. rewrite Hshape in H. cbn [bind] in H.
  rewrite Nat.eqb_refl in H.
  destruct (Bert.ov_slice overflow (seq_len * i) (seq_len * (i + 1)))
    as [l|[v|c rows]]; simpl in Hshape; try discriminate.
  injection Hshape as ->.
  apply bind_inr in H as ([t m] & Hbr & H). injection H as <-.
  apply bind_inr in Hbr as (m' & Hm' & Hbr). simpl in Hbr. injection Hbr as <- <-.
  exists rows. cbn [Bert.input_ids Bert.attn_masks Bert.labels Bert.patient_ids].
  repeat split; auto.
Qed.

Lemma combine_snoc {A B} (a : list A) (b : list B) x y :
  length a = length b -> combine (a ++ [x]) (b ++ [y]) = combine a b ++ [(x, y)].
Proof.
  revert b. induction a as [|a0 a IH]; intros [|b0 b] H; simpl in *; try lia; auto.
  f_equal. apply IH. lia.
Qed.

Lemma inherits_snoc df ds ds' patient note label :
  In (patient, note, label) df ->
  Shape.inherits df ds ->
  Bert.labels ds' = Bert.labels ds ++ [label] ->
  Bert.patient_ids ds' = Bert.patient_ids ds ++ [patient] ->
  Shape.inherits df ds'.
Proof.
  intros Hin [Hlen Hall] Hl Hp. unfold Shape.inherits. rewrite Hl, Hp. split.
  - rewrite !length_app. simpl. lia.
  - rewrite combine_snoc by auto. apply Forall_app. split; auto.
    constructor; [|constructor]. now exists note.
Qed.

Lemma encode_row_inherits encode_plus seq_len df ds row ds' :
  In row df ->
  Shape.inherits df ds ->
  Bert.encode_row encode_plus seq_len ds row = inr ds' ->
  Shape.inherits df ds'.
Proof.
  destruct row as [[patient note] label]. intros Hin Hds H.
  unfold Bert.encode_row in H.
  apply bind_inr in H as (ids & _ & H). apply bind_inr in H as (mask & _ & H).
  match type of H with
  | match _ with Some _ => _ | None => _ end = _ =>
      set (ds1 := {| Bert.input_ids := Bert.input_ids ds ++ [ids];
                     Bert.attn_masks := Bert.attn_masks ds ++ [mask];
                     Bert.labels := Bert.labels ds ++ [label];
                     Bert.patient_ids := Bert.patient_ids ds ++ [patient] |}) in *
  end.
  assert (H1 : Shape.inherits df ds1)
    by (apply (inherits_snoc df ds ds1 patient note label); auto).
  destruct (Bert.overflowing_tokens (encode_plus note seq_len)) as [overflow|].
  - apply bind_inr in H as (n & _ & H).
    apply (for_each_invariant (Shape.inherits df)
             (Bert.overflow_step seq_len overflow patient label))
      with (xs := seq 0 n) (s := ds1); auto.
    intros s i s' Hs Hstep.
    destruct (overflow_step_unit _ _ _ _ _ _ _ Hstep) as (rows & _ & _ & Hl & Hp).
    apply (inherits_snoc df s s' patient note label); auto.
  - now injection H as <-.
Qed.

Lemma encode_row_grows encode_plus seq_len ds row ds' :
  Bert.encode_row encode_plus seq_len ds row = inr ds' ->
  S (Bert.__len__ ds) <= Bert.__len__ ds'.
Proof.
  destruct row as [[patient note] label]. intros H.
  unfold Bert.encode_row in H.
  apply bind_inr in H as (ids & _ & H). apply bind_inr in H as (mask & _ & H).
  match type of H with
  | match _ with Some _ => _ | None => _ end = _ =>
      set (ds1 := {| Bert.input_ids := Bert.input_ids ds ++ [ids];
                     Bert.attn_masks := Bert.attn_masks ds ++ [mask];
                     Bert.labels := Bert.labels ds ++ [label];
                     Bert.patient_ids := Bert.patient_ids ds ++ [patient] |}) in *
  end.
  assert (H1 : S (Bert.__len__ ds) <= Bert.__len__ ds1).
  { unfold Bert.__len__, ds1. simpl. rewrite length_app. simpl. lia. }
  destruct (Bert.overflowing_tokens (encode_plus note seq_len)) as [overflow|].
  - apply bind_inr in H as (n & _ & H).
    apply (for_each_invariant (fun s => S (Bert.__len__ ds) <= Bert.__len__ s)
             (Bert.overflow_step seq_len overflow patient label))
      with (xs := seq 0 n) (s := ds1); auto.
    intros s i s' Hs Hstep.
    destruct (overflow_step_unit _ _ _ _ _ _ _ Hstep) as (rows & _ & _ & _ & Hp).
    unfold Bert.__len__ in *. rewrite Hp, length_app. simpl. lia.
  - now injection H as <-.
Qed.

Lemma init_grows encode_plus seq_len df : forall ds0 ds,
  for_each (Bert.encode_row encode_plus seq_len) df ds0 = inr ds ->
  Bert.__len__ ds0 + length df <= Bert.__len__ ds.
Proof.
  induction df as [|row df IH]; simpl; intros ds0 ds H.
  - injection H as <-. lia.
  - apply bind_inr in H as (ds1 & H1 & H).
    apply encode_row_grows in H1. apply IH in H. lia.
Qed.

(** X11. Whenever the constructor completes, every Unit of the dataset,
    primary or overflow, carries the patient id and the label of one row
    of the dataframe, and there are at least as many Units as rows. *)
Theorem units_inherit_patient_and_label
    (encode_plus : string -> nat -> Bert.encoding) (seq_len : nat)
    (df : list Bert.df_row) (ds : Bert.EncodedDataset) :
  Bert.init encode_plus seq_len df = inr ds ->
  length df <= Bert.__len__ ds /\
  forall idx p l,
    nth_error (Bert.patient_ids ds) idx = Some p ->
    nth_error (Bert.labels ds) idx = Some l ->
    exists note, In (p, note, l) df.
Proof.
  intros H. unfold Bert.init in H. split.
  - apply init_grows in H. unfold Bert.__len__ in *. simpl in H. lia.
  - assert (Hinh : Shape.inherits df ds).
    { apply (for_each_invariant_in (Shape.inherits df)
               (Bert.encode_row encode_plus seq_len) df) with (3 := H).
      - intros s x s' Hin Hs Hstep. eauto using encode_row_inherits.
      - split; [reflexivity | constructor]. }
    destruct Hinh as [Hlen Hall]. intros idx p l Hp Hl.
    rewrite Forall_forall in Hall.
    apply (Hall (p, l)).
    clear Hall. revert idx Hp Hl Hlen.
    generalize (Bert.patient_ids ds) (Bert.labels ds).
    induction l0 as [|p0 ps IH]; intros [|l0 ls] [|idx]; simpl; intros;
      try discriminate.
    + left. congruence.
    + right. eapply IH; eauto.
Qed.

Lemma units_inherit_patient_and_label_witness :
  Bert.init (Examples.window4 (Some Examples.overflow4)) 4 Examples.one_note
  = inr Examples.two_units /\
  (length Examples.one_note <= Bert.__len__ Examples.two_units /\
   forall idx p l,
     nth_error (Bert.patient_ids Examples.two_units) idx = Some p ->
     nth_error (Bert.labels Examples.two_units) idx = Some l ->
     exists note, In (p, note, l) Examples.one_note).
Proof.
  split; [reflexivity|].
  exact (units_inherit_patient_and_label (Examples.window4 (Some Examples.overflow4)) 4
           Examples.one_note Examples.two_units eq_refl).
Defined.

Lemma reshape_ok t seq_len t' :
  Bert.reshape t seq_len = inr t' -> exists v, t' = Bert.T1 v /\ length v = seq_len.
Proof.
  unfold Bert.reshape. destruct (Nat.eqb_spec (length (Bert.numel t)) seq_len) as [E|E];
    [|discriminate].
  intros [= <-]. eauto.
Qed.

Lemma encode_row_shapes encode_plus seq_len ds row ds' :
  Forall (Shape.mask_ok seq_len) (Bert.attn_masks ds) /\
  Forall (Shape.ids_ok seq_len) (Bert.input_ids ds) ->
  Bert.encode_row encode_plus seq_len ds row = inr ds' ->
  Forall (Shape.mask_ok seq_len) (Bert.attn_masks ds') /\
  Forall (Shape.ids_ok seq_len) (Bert.input_ids ds').
Proof.
  destruct row as [[patient note] label]. intros [Hm Hi] H.
  unfold Bert.encode_row in H.
  apply bind_inr in H as (ids & Hids & H). apply bind_inr in H as (mask & Hmask & H).
  apply reshape_ok in Hids as (vi & -> & Li).
  apply reshape_ok in Hmask as (vm & -> & Lm).
  match type of H with
  | match _ with Some _ => _ | None => _ end = _ =>
      set (ds1 := {| Bert.input_ids := Bert.input_ids ds ++ [Bert.T1 vi];
                     Bert.attn_masks := Bert.attn_masks ds ++ [Bert.T1 vm];
                     Bert.labels := Bert.labels ds ++ [label];
                     Bert.patient_ids := Bert.patient_ids ds ++ [patient] |}) in *
  end.
  assert (H1 : Forall (Shape.mask_ok seq_len) (Bert.attn_masks ds1) /\
               Forall (Shape.ids_ok seq_len) (Bert.input_ids ds1)).
  { unfold ds1. simpl. split; apply Forall_app; split; auto;
      repeat constructor; auto. now exists vm. }
  destruct (Bert.overflowing_tokens (encode_plus note seq_len)) as [overflow|].
  - apply bind_inr in H as (n & _ & H).
    apply (for_each_invariant
             (fun s => Forall (Shape.mask_ok seq_len) (Bert.attn_masks s) /\
                       Forall (Shape.ids_ok seq_len) (Bert.input_ids s))
             (Bert.overflow_step seq_len overflow patient label))
      with (xs := seq 0 n) (s := ds1); auto.
    intros s i s' [Hsm Hsi] Hstep.
    destruct (overflow_step_unit _ _ _ _ _ _ _ Hstep) as (rows & Ei & Em & _ & _).
    rewrite Ei, Em. split; apply Forall_app; split; auto; repeat constructor.
    exists (repeat 1%Z seq_len). split; auto. apply repeat_length.
  - now injection H as <-.
Qed.

(** X12. Whenever the constructor completes, every attention mask of the
    dataset is a 1-D tensor of exactly [seq_len] entries, and every
    token-id tensor has [seq_len] entries (primary Units) or rows of
    [seq_len] columns (overflow Units). *)
Theorem encoded_dataset_shapes
    (encode_plus : string -> nat -> Bert.encoding) (seq_len : nat)
    (df : list Bert.df_row) (ds : Bert.EncodedDataset) :
  Bert.init encode_plus seq_len df = inr ds ->
  Forall (Shape.mask_ok seq_len) (Bert.attn_masks ds) /\
  Forall (Shape.ids_ok seq_len) (Bert.input_ids ds).
Proof.
  intros H. unfold Bert.init in H.
  apply (for_each_invariant
           (fun s => Forall (Shape.mask_ok seq_len) (Bert.attn_masks s) /\
                     Forall (Shape.ids_ok seq_len) (Bert.input_ids s))
           (Bert.encode_row encode_plus seq_len)) with (3 := H).
  - intros s x s' Hs Hstep. eauto using encode_row_shapes.
  - split; constructor.
Qed.

Lemma encoded_dataset_shapes_witness :
  Bert.init (Examples.window4 (Some Examples.overflow4)) 4 Examples.one_note
  = inr Examples.two_units /\
  (Forall (Shape.mask_ok 4) (Bert.attn_masks Examples.two_units) /\
   Forall (Shape.ids_ok 4) (Bert.input_ids Examples.two_units)).
Proof.
  split; [reflexivity|].
  exact (encoded_dataset_shapes (Examples.window4 (Some Examples.overflow4)) 4
           Examples.one_note Examples.two_units eq_refl).
Defined.

(** X13. On a constructed dataset, [__getitem__] at an index equal to or
    beyond [__len__] raises [IndexError]. *)
Theorem getitem_out_of_range
    (encode_plus : string -> nat -> Bert.encoding) (seq_len : nat)
    (df : list Bert.df_row) (ds : Bert.EncodedDataset) (idx : nat) :
  Bert.init encode_plus seq_len df = inr ds ->
  Bert.__len__ ds <= idx ->
  Bert.__getitem__ ds idx = inl IndexError.
Proof.
  intros H Hidx. apply init_aligned in H as (H1 & _ & _).
  unfold Bert.__getitem__, Bert.list_get, Bert.__len__ in *.
  replace (nth_error (Bert.input_ids ds) idx) with (@None Bert.tensor); [reflexivity|].
  symmetry. apply nth_error_None. lia.
Qed.

Lemma getitem_out_of_range_witness :
  Bert.init (Examples.window4 (Some Examples.overflow4)) 4 Examples.one_note
  = inr Examples.two_units /\
  Bert.__len__ Examples.two_units <= 2 /\
  Bert.__getitem__ Examples.two_units 2 = inl IndexError.
Proof.
  split; [reflexivity|]. split; [apply Nat.le_refl|].
  exact (getitem_out_of_range (Examples.window4 (Some Examples.overflow4)) 4
           Examples.one_note Examples.two_units 2 eq_refl (Nat.le_refl 2)).
Defined.

(** ** [validation_epoch_end]: epochs with both classes *)

Lemma binary_sum labels :
  Shape.binary labels ->
  (0 <= Bert.zsum labels <= Z.of_nat (length labels))%Z /\
  (Bert.zsum labels = Z.of_nat (length labels) -> ~ In 0%Z labels) /\
  (Bert.zsum labels = 0%Z -> ~ In 1%Z labels).
Proof.
  induction 1 as [|l labels Hl _ (Hb & H1 & H0)].
  - simpl. repeat split; auto; lia.
  - cbn [Bert.zsum fold_right length]. fold (Bert.zsum labels).
    rewrite Nat2Z.inj_succ. repeat split; try (destruct Hl; subst; lia).
    + intros E [->|Hin]; [lia|]. apply H1; auto. destruct Hl; subst; lia.
    + intros E [->|Hin]; [lia|]. apply H0; auto. destruct Hl; subst; lia.
Qed.

(** Setting keys that are new and distinct appends them in order. *)
Lemma fold_set_fresh {V A} (key : A -> string) (g : A -> V) (ms : list A) :
  forall d : dict (K:=string) (V:=V),
  NoDup (map key ms) ->
  (forall k, In k (map key ms) -> ~ In k (dict_keys d)) ->
  fold_left (fun d x => dict_set String.eqb d (key x) (g x)) ms d
  = d ++ map (fun x => (key x, g x)) ms.
Proof.
  induction ms as [|x ms IH]; intros d Hnd Hfresh; cbn [fold_left map].
  - now rewrite app_nil_r.
  - inversion Hnd as [|? ? Hx Hnd']; subst.
    rewrite dict_set_absent by (apply dict_get_not_in, Hfresh; now left).
    rewrite IH; auto.
    + now rewrite <- app_assoc.
    + intros k Hk. unfold dict_keys. rewrite map_app, in_app_iff. cbn [map fst In].
      intros [Hin | [<- | []]]; [|contradiction].
      apply (Hfresh k); [now right | exact Hin].
Qed.

(** With distinct metric names, none of them [loss], the updates of
    [out] append one entry per metric after the loss. *)
Lemma epoch_out_entries (metrics : list (string * (list Z -> list Z -> Q)))
    loss predictions labels :
  NoDup (map fst metrics) ->
  ~ In "loss"%string (map fst metrics) ->
  Bert.epoch_out metrics loss predictions labels
  = ("loss"%string, Bert.OutLoss loss)
    :: map (fun nm => (fst nm, Bert.OutMetric (snd nm predictions labels))) metrics.
Proof.
  intros Hnd Hloss. unfold Bert.epoch_out.
  rewrite (fold_set_fresh fst (fun nm => Bert.OutMetric (snd nm predictions labels))); auto.
  intros k Hk [<- | []]. contradiction.
Qed.

(** X14. For a non-empty validation epoch whose labels are 0 or 1 with
    both classes present, and distinct metric names other than [loss]
    and [log] (as the five names of the constructor are),
    [validation_epoch_end] does not raise the one-class warning.  If
    [write_dev_results_to] was passed to the constructor it returns the
    dictionary with the key [loss], one entry per metric in the order of
    the metric names, and last the key [log], which holds the dictionary
    of the entries before it; those entries are what it writes when a
    file is configured.  If the attribute was never set (it has no
    default) it raises [AttributeError]. *)
Theorem validation_epoch_end_two_classes
    (metrics : list (string * (list Z -> list Z -> Q)))
    (outputs : list Bert.val_output) :
  outputs <> [] ->
  Shape.binary (concat (map Bert.vo_labels outputs)) ->
  In 0%Z (concat (map Bert.vo_labels outputs)) ->
  In 1%Z (concat (map Bert.vo_labels outputs)) ->
  NoDup (map fst metrics) ->
  ~ In "loss"%string (map fst metrics) ->
  ~ In "log"%string (map fst metrics) ->
  Bert.validation_epoch_end metrics None outputs = inl AttributeError /\
  forall file,
    exists out,
      out = ("loss"%string, Bert.OutLoss (concat (map Bert.vo_loss outputs)))
            :: map (fun nm => (fst nm,
                               Bert.OutMetric
                                 (snd nm (concat (map Bert.vo_predictions outputs))
                                         (concat (map Bert.vo_labels outputs)))))
                   metrics /\
      Bert.validation_epoch_end metrics (Some file) outputs
      = inr (out ++ [("log"%string, Bert.OutLog out)],
             match file with Some _ => Some out | None => None end).
Proof.
  intros Hne Hbin H0 H1 Hnd Hloss Hlog.
  destruct (binary_sum _ Hbin) as (_ & Hall1 & Hall0).
  unfold Bert.validation_epoch_end.
  rewrite !cat_all_nonempty by auto. cbn [bind].
  rewrite epoch_out_entries by assumption.
  set (out := _ :: map _ metrics).
  assert (Hset : dict_set String.eqb out "log"%string (Bert.OutLog out)
                 = out ++ [("log"%string, Bert.OutLog out)]).
  { apply dict_set_absent, dict_get_not_in. unfold dict_keys, out.
    cbn [map fst]. rewrite map_map. cbn [fst].
    intros [E | Hin]; [discriminate E | exact (Hlog Hin)]. }
  rewrite Hset. clearbody out.
  destruct (concat (map Bert.vo_labels outputs)) as [|l labels] eqn:El; [destruct H0|].
  destruct (Z.eqb_spec (Bert.zsum (l :: labels)) (Z.of_nat (length (l :: labels))))
    as [E|_]; [now apply Hall1 in E|].
  destruct (Z.eqb_spec (Bert.zsum (l :: labels)) 0) as [E|_]; [now apply Hall0 in E|].
  cbn [orb]. split; [reflexivity|].
  intros file. exists out. split; [|destruct file; reflexivity].
  reflexivity.
Qed.

Lemma validation_epoch_end_two_classes_witness :
  Fixtures.mixed_epoch <> [] /\
  Shape.binary (concat (map Bert.vo_labels Fixtures.mixed_epoch)) /\
  In 0%Z (concat (map Bert.vo_labels Fixtures.mixed_epoch)) /\
  In 1%Z (concat (map Bert.vo_labels Fixtures.mixed_epoch)) /\
  NoDup (map fst Fixtures.two_metrics) /\
  ~ In "loss"%string (map fst Fixtures.two_metrics) /\
  ~ In "log"%string (map fst Fixtures.two_metrics) /\
  (Bert.validation_epoch_end Fixtures.two_metrics None Fixtures.mixed_epoch
   = inl AttributeError /\
   forall file,
     exists out,
       out = ("loss"%string, Bert.OutLoss (concat (map Bert.vo_loss Fixtures.mixed_epoch)))
             :: map (fun nm => (fst nm,
                                Bert.OutMetric
                                  (snd nm
                                     (concat (map Bert.vo_predictions Fixtures.mixed_epoch))
                                     (concat (map Bert.vo_labels Fixtures.mixed_epoch)))))
                    Fixtures.two_metrics /\
       Bert.validation_epoch_end Fixtures.two_metrics (Some file) Fixtures.mixed_epoch
       = inr (out ++ [("log"%string, Bert.OutLog out)],
              match file with Some _ => Some out | None => None end)).
Proof.
  assert (A : Fixtures.mixed_epoch <> []) by discriminate.
  assert (B : Shape.binary (concat (map Bert.vo_labels Fixtures.mixed_epoch)))
    by (simpl; repeat constructor; auto).
  assert (C : In 0%Z (concat (map Bert.vo_labels Fixtures.mixed_epoch)))
    by (simpl; auto).
  assert (D : In 1%Z (concat (map Bert.vo_labels Fixtures.mixed_epoch)))
    by (simpl; auto).
  assert (E : NoDup (map fst Fixtures.two_metrics)).
  { simpl. repeat constructor; simpl; intuition discriminate. }
  assert (F : ~ In "loss"%string (map fst Fixtures.two_metrics))
    by (simpl; intuition discriminate).
  assert (G : ~ In "log"%string (map fst Fixtures.two_metrics))
    by (simpl; intuition discriminate).
  repeat (split; [assumption|]).
  exact (validation_epoch_end_two_classes Fixtures.two_metrics Fixtures.mixed_epoch
           A B C D E F G).
Defined.

(** ** [setup]: the join and the patient split *)

Lemma zmem_true_iff z l : Bert.zmem z l = true <-> In z l.
Proof.
  unfold Bert.zmem. rewrite existsb_exists. split.
  - intros (x & Hin & E). apply Z.eqb_eq in E. now subst.
  - intros H. exists z. split; auto. apply Z.eqb_refl.
Qed.

Lemma readm_of_int frame df :
  existsb (fun r => Bert.is_nan (Bert.lr_readm r)) frame = false ->
  incl df frame ->
  exists ys, Bert.readm_of frame df = Bert.IntValues ys /\ length ys = length df.
Proof.
  intros Hno Hincl. unfold Bert.readm_of. rewrite Hno. eexists. split; [reflexivity|].
  induction df as [|r df IH]; simpl; auto.
  assert (Hr : In r frame) by (apply Hincl; now left).
  assert (Hnan : Bert.is_nan (Bert.lr_readm r) = false).
  { destruct (Bert.is_nan (Bert.lr_readm r)) eqn:E; auto.
    assert (existsb (fun r => Bert.is_nan (Bert.lr_readm r)) frame = true)
      by (apply existsb_exists; eauto).
    congruence. }
  destruct (Bert.lr_readm r); [|discriminate]. simpl. f_equal.
  apply IH. intros x Hx. apply Hincl. now right.
Qed.

Lemma make_sample_weights_length ys w :
  Bert._make_sample_weights (Bert.IntValues ys) = inr w -> length w = length ys.
Proof.
  unfold Bert._make_sample_weights. destruct (existsb _ ys); [discriminate|].
  intros [= <-]. apply length_map.
Qed.

(** X15. Whenever the fit-stage setup returns, the training and the
    validation frame split the labelled notes by patient: every note is
    in exactly one of the two frames, no patient has notes in both, and
    there is one sample weight per validation note.  This holds whatever
    [random.sample] returns. *)
Theorem setup_fit_splits_by_patient (st_aug : bool) (sample : list Z -> nat -> list Z)
    (val_frac : Q) (text_df : list Bert.text_row) (readm : list (Z * Z))
    (train_df val_df : list Bert.labelled_row) (w : list (option Q)) :
  Bert.dataframe_setup_fit st_aug sample val_frac text_df readm
  = inr (train_df, val_df, w) ->
  (forall r, In r (Bert.labelled_text st_aug text_df readm) <->
             (In r train_df /\ ~ In r val_df) \/ (In r val_df /\ ~ In r train_df)) /\
  (forall r1 r2, In r1 train_df -> In r2 val_df ->
                 Bert.lr_subject_id r1 <> Bert.lr_subject_id r2) /\
  length w = length val_df.
Proof.
  unfold Bert.dataframe_setup_fit.
  set (lt := Bert.labelled_text st_aug text_df readm).
  set (all_patients := Bert.drop_duplicates (map Bert.lr_subject_id lt)).
  destruct (_ || _)%bool; [discriminate|].
  set (val_patients := sample all_patients _).
  set (val := filter (fun r => Bert.zmem (Bert.lr_subject_id r) val_patients) lt).
  set (train := filter (fun r => negb (Bert.zmem (Bert.lr_subject_id r)
                                         (map Bert.lr_subject_id val))) lt).
  intros H. apply bind_inr in H as (w' & Hw & H). injection H as <- <- <-.
  assert (Hsep : forall r1 r2, In r1 train -> In r2 val ->
                   Bert.lr_subject_id r1 <> Bert.lr_subject_id r2).
  { intros r1 r2 H1 H2 E. apply filter_In in H1 as [_ H1].
    apply negb_true_iff in H1.
    assert (Bert.zmem (Bert.lr_subject_id r1) (map Bert.lr_subject_id val) = true).
    { apply zmem_true_iff. rewrite E. now apply in_map. }
    congruence. }
  split; [|split; [exact Hsep|]].
  - intros r. split.
    + intros Hr.
      destruct (Bert.zmem (Bert.lr_subject_id r) val_patients) eqn:Ev.
      * right. assert (Hv : In r val) by (apply filter_In; auto).
        split; auto. intros Ht. now apply (Hsep r r Ht Hv).
      * left. assert (Hnv : ~ In r val).
        { intros Hv. apply filter_In in Hv as [_ Hv]. congruence. }
        split; auto. apply filter_In. split; auto.
        apply negb_true_iff.
        destruct (Bert.zmem (Bert.lr_subject_id r) (map Bert.lr_subject_id val)) eqn:Em;
          auto.
        apply zmem_true_iff in Em. apply in_map_iff in Em as (r' & Eid & Hr').
        apply filter_In in Hr' as [_ Hr']. rewrite Eid in Hr'. congruence.
    + intros [[Ht _]|[Hv _]]; [apply filter_In in Ht | apply filter_In in Hv]; tauto.
  - destruct (existsb (fun r => Bert.is_nan (Bert.lr_readm r)) lt) eqn:Enan.
    + unfold Bert.readm_of in Hw. rewrite Enan in Hw. discriminate.
    + destruct (readm_of_int lt val Enan) as (ys & Hys & Hlen).
      { intros x Hx. now apply filter_In in Hx. }
      rewrite Hys in Hw. apply make_sample_weights_length in Hw. congruence.
Qed.

Lemma setup_fit_splits_by_patient_witness :
  exists train_df val_df w,
    Bert.dataframe_setup_fit false Examples.first_patients (1 # 2)
      Fixtures.three_notes Fixtures.labels_for_both
    = inr (train_df, val_df, w) /\
    ((forall r, In r (Bert.labelled_text false Fixtures.three_notes
                        Fixtures.labels_for_both) <->
                (In r train_df /\ ~ In r val_df) \/ (In r val_df /\ ~ In r train_df)) /\
     (forall r1 r2, In r1 train_df -> In r2 val_df ->
                    Bert.lr_subject_id r1 <> Bert.lr_subject_id r2) /\
     length w = length val_df).
Proof.
  eexists _, _, _. split; [reflexivity|].
  apply (setup_fit_splits_by_patient false Examples.first_patients (1 # 2)
           Fixtures.three_notes Fixtures.labels_for_both).
  reflexivity.
Defined.

Lemma filter_unique_row (readm : list (Z * Z)) k v :
  NoDup (map fst readm) -> In (k, v) readm ->
  filter (fun e => (fst e =? k)%Z) readm = [(k, v)].
Proof.
  induction readm as [|[k0 v0] t IH]; simpl; intros Hnd Hin; [contradiction|].
  inversion Hnd as [|? ? Hnotin Hnd']; subst.
  destruct Hin as [E|Hin].
  - injection E as -> ->. rewrite Z.eqb_refl. f_equal.
    clear IH Hnd Hnd'. induction t as [|[k1 v1] t IH]; simpl; auto.
    destruct (Z.eqb_spec k1 k) as [->|_].
    + exfalso. apply Hnotin. now left.
    + apply IH. intros H. apply Hnotin. now right.
  - destruct (Z.eqb_spec k0 k) as [->|_].
    + exfalso. apply Hnotin. apply in_map_iff. now exists (k, v).
    + now apply IH.
Qed.

(** X16. If the label table lists every patient once and holds a row for
    every patient of the corpus, the left join keeps the notes as they
    are: the joined frame has one row per note, in corpus order, and each
    row carries the label the table gives for its patient. *)
Theorem labelled_text_alignment (st_aug : bool) (text_df : list Bert.text_row)
    (readm : list (Z * Z)) :
  NoDup (map fst readm) ->
  Forall (fun r => In (Bert.tr_subject_id r) (map fst readm)) text_df ->
  map Bert.lr_subject_id (Bert.labelled_text st_aug text_df readm)
  = map Bert.tr_subject_id text_df /\
  map Bert.lr_text (Bert.labelled_text st_aug text_df readm)
  = map (Bert.note_text st_aug) text_df /\
  Forall (fun r => exists l, Bert.lr_readm r = Some l /\
                             In (Bert.lr_subject_id r, l) readm)
         (Bert.labelled_text st_aug text_df readm).
Proof.
  intros Hnd Hall.
  induction Hall as [|r text_df Hr _ (IH1 & IH2 & IH3)].
  - repeat split; constructor.
  - apply in_map_iff in Hr as ([k v] & Ek & Hin). simpl in Ek. subst k.
    assert (E : Bert.labelled_text st_aug (r :: text_df) readm
                = {| Bert.lr_subject_id := Bert.tr_subject_id r;
                     Bert.lr_text := Bert.note_text st_aug r;
                     Bert.lr_readm := Some v |}
                  :: Bert.labelled_text st_aug text_df readm).
    { unfold Bert.labelled_text, Bert.merge_left. cbn [flat_map].
      rewrite (filter_unique_row readm _ v Hnd Hin). reflexivity. }
    rewrite E. cbn [map Bert.lr_subject_id Bert.lr_text].
    rewrite IH1, IH2. repeat split; auto.
    constructor; auto. cbn [Bert.lr_readm Bert.lr_subject_id]. eauto.
Qed.

Lemma labelled_text_alignment_witness :
  NoDup (map fst Fixtures.labels_for_both) /\
  Forall (fun r => In (Bert.tr_subject_id r) (map fst Fixtures.labels_for_both))
         Fixtures.three_notes /\
  (map Bert.lr_subject_id
     (Bert.labelled_text false Fixtures.three_notes Fixtures.labels_for_both)
   = map Bert.tr_subject_id Fixtures.three_notes /\
   map Bert.lr_text
     (Bert.labelled_text false Fixtures.three_notes Fixtures.labels_for_both)
   = map (Bert.note_text false) Fixtures.three_notes /\
   Forall (fun r => exists l, Bert.lr_readm r = Some l /\
                              In (Bert.lr_subject_id r, l) Fixtures.labels_for_both)
          (Bert.labelled_text false Fixtures.three_notes Fixtures.labels_for_both)).
Proof.
  assert (A : NoDup (map fst Fixtures.labels_for_both)).
  { simpl. repeat constructor; simpl; intuition discriminate. }
  assert (B : Forall (fun r => In (Bert.tr_subject_id r)
                                  (map fst Fixtures.labels_for_both))
                     Fixtures.three_notes).
  { unfold Fixtures.three_notes.
    repeat (apply Forall_cons; [simpl; tauto|]). apply Forall_nil. }
  split; [exact A|]. split; [exact B|].
  exact (labelled_text_alignment false Fixtures.three_notes Fixtures.labels_for_both A B).
Defined.

(** ** [test_epoch_end] *)

Lemma cat_vectors_test_step outs :
  Forall (fun o => exists l g b, o = Bert.test_step_output l g b) outs ->
  exists losses v,
    Bert.project "loss" outs = inr losses /\ Predictor.cat_vectors losses = inr v.
Proof.
  induction 1 as [|o outs (l & g & b & ->) _ (losses & v & Hp & Hc)].
  - exists [], []. split; reflexivity.
  - exists (Bert.VTensor (Bert.TVec l) :: losses), (l ++ v).
    cbn [Bert.project]. rewrite Hp. split; [reflexivity|].
    cbn [Predictor.cat_vectors]. now rewrite Hc.
Qed.

(** X19. [test_epoch_end] never returns: whatever the outputs of the test
    steps, the scale factor and the code that follows the aggregation, it
    raises.  On the dictionaries that [test_step] returns (at least one
    batch) the exception is [KeyError], from the missing key
    [patient_ids]. *)
Theorem test_epoch_end_raises {Report : Type} (scale_factor : Q)
    (score_and_report : Q -> list (list Q) * list Bert.pval -> res Report)
    (outputs : list (list (string * Bert.pval))) :
  raises (Predictor.test_epoch_end scale_factor score_and_report outputs) /\
  forall loss logits labels rest,
    outputs = Bert.test_step_output loss logits labels :: rest ->
    Forall (fun o => exists l g b, o = Bert.test_step_output l g b) rest ->
    Predictor.test_epoch_end scale_factor score_and_report outputs = inl KeyError.
Proof.
  split.
  - unfold Predictor.test_epoch_end, raises.
    destruct (Bert.project "loss" outputs) as [e|losses]; cbn [bind]; eauto.
    destruct (Predictor.cat_mean losses) as [e|loss]; cbn [bind]; eauto.
    destruct (aggreg_subseq_logits_raises scale_factor outputs) as [-> | ->];
      cbn [bind]; eauto.
  - intros loss logits labels rest -> Hrest.
    unfold Predictor.test_epoch_end.
    destruct (cat_vectors_test_step
                (Bert.test_step_output loss logits labels :: rest))
      as (losses & v & Hp & Hc).
    { constructor; eauto. }
    rewrite Hp. cbn [bind].
    assert (Hm : Predictor.cat_mean losses = inr (Np.mean v)).
    { unfold Predictor.cat_mean. cbn [Bert.project] in Hp.
      destruct losses as [|t ts].
      - apply bind_inr in Hp as (? & _ & Hp). apply bind_inr in Hp as (? & _ & Hp).
        discriminate.
      - now rewrite Hc. }
    rewrite Hm. cbn [bind].
    now rewrite aggreg_test_step_outputs_raise.
Qed.

(** ** The predictor's constructor and [configure_optimizers] *)

Lemma fold_set_get_cases {V} (l : list (string * V)) :
  forall (d : dict (K:=string) (V:=V)) k v,
  dict_get String.eqb
    (fold_left (fun d e => dict_set String.eqb d (fst e) (snd e)) l d) k = Some v ->
  In (k, v) l \/ dict_get String.eqb d k = Some v.
Proof.
  induction l as [|[k0 x] l IH]; intros d k v H; simpl in *; auto.
  apply IH in H as [H|H]; auto.
  destruct (String.eqb_spec k0 k) as [->|Hne].
  - rewrite dict_get_set_same in H. injection H as ->. auto.
  - rewrite dict_get_set_other in H by auto. auto.
Qed.

Lemma load_kwargs_get (d : Predictor.attrs) kwargs k v :
  dict_get String.eqb (Predictor.load_kwargs d kwargs) k = Some v ->
  (existsb (String.eqb k) Predictor.params = true /\ In (k, v) kwargs) \/
  dict_get String.eqb d k = Some v.
Proof.
  unfold Predictor.load_kwargs. intros H.
  apply fold_set_get_cases in H as [H|H]; auto.
  apply filter_In in H as [Hin Hp]. left. split; auto.
Qed.

Lemma dict_get_params_filter (kwargs : list (string * Predictor.pyv)) k :
  dict_get String.eqb
    (filter (fun kv => existsb (String.eqb (fst kv)) Predictor.params) kwargs) k
  = if existsb (String.eqb k) Predictor.params
    then dict_get String.eqb kwargs k else None.
Proof. exact (dict_get_filter (fun k => existsb (String.eqb k) Predictor.params) kwargs k). Qed.

(** X20. After a successful construction, an attribute named in [params]
    holds the value passed for it as a keyword argument, or else its
    default, or does not exist when it has neither.  [bert_model] was
    passed, and the model's parameters are those of the model loaded for
    it after the freezing loop, which runs unless [update_all_params] is
    true. *)
Theorem init_attributes (pl_version : list nat) (num_threads : Z)
    (from_pretrained : Predictor.pyv -> res (list Bert.named_parameter))
    (save_hyperparameters : list (string * Predictor.pyv) -> res unit)
    (kwargs : list (string * Predictor.pyv)) (p : Predictor.predictor) :
  NoDup (map fst kwargs) ->
  Predictor.__init__ pl_version num_threads from_pretrained save_hyperparameters kwargs
  = inr p ->
  (forall k,
      existsb (String.eqb k) Predictor.params = true ->
      dict_get String.eqb (Predictor.self_attrs p) k
      = match dict_get String.eqb kwargs k with
        | Some v => Some v
        | None => dict_get String.eqb (Predictor.defaults num_threads) k
        end) /\
  exists bert_model loaded flag,
    dict_get String.eqb kwargs "bert_model"%string = Some bert_model /\
    from_pretrained bert_model = inr loaded /\
    Predictor.getattr (Predictor.self_attrs p) "update_all_params"%string = inr flag /\
    Predictor.model_parameters p
    = Bert.freeze_embeddings (Predictor.truthy flag) loaded.
Proof.
  intros Hnd H. unfold Predictor.__init__ in H.
  destruct (Predictor.version_lt pl_version [0; 8; 1]); [discriminate|].
  apply bind_inr in H as (bm & Hbm & H).
  apply bind_inr in H as (loaded & Hload & H).
  apply bind_inr in H as (flag & Hflag & H).
  apply bind_inr in H as (u & _ & H). injection H as <-.
  cbn [Predictor.self_attrs Predictor.model_parameters].
  assert (Hget : forall k,
             dict_get String.eqb
               (Predictor.load_kwargs (Predictor.defaults num_threads) kwargs) k
             = match (if existsb (String.eqb k) Predictor.params
                      then dict_get String.eqb kwargs k else None) with
               | Some v => Some v
               | None => dict_get String.eqb (Predictor.defaults num_threads) k
               end).
  { intros k. unfold Predictor.load_kwargs.
    rewrite dict_get_fold_set by now apply filter_keys_nodup.
    now rewrite dict_get_params_filter. }
  split; [intros k Hk; rewrite Hget, Hk; reflexivity|].
  exists bm, loaded, flag. repeat split; auto.
  unfold Predictor.getattr in Hbm. rewrite Hget in Hbm.
  change (existsb (String.eqb "bert_model"%string) Predictor.params) with true in Hbm.
  destruct (dict_get String.eqb kwargs "bert_model"%string) as [v|]; [|discriminate].
  now injection Hbm as ->.
Qed.

Lemma predictor_kwargs_nodup : NoDup (map fst Fixtures.predictor_kwargs).
Proof.
  unfold Fixtures.predictor_kwargs. cbn [map fst].
  repeat (apply NoDup_cons;
          [cbn [In]; intros H;
           repeat (destruct H as [H|H]; [discriminate H|]); exact H|]).
  apply NoDup_nil.
Defined.

Lemma init_attributes_witness :
  NoDup (map fst Fixtures.predictor_kwargs) /\
  exists p,
    Predictor.__init__ [0; 8; 5] 4 Fixtures.load_bert Fixtures.save_ok
      Fixtures.predictor_kwargs = inr p /\
    ((forall k,
         existsb (String.eqb k) Predictor.params = true ->
         dict_get String.eqb (Predictor.self_attrs p) k
         = match dict_get String.eqb Fixtures.predictor_kwargs k with
           | Some v => Some v
           | None => dict_get String.eqb (Predictor.defaults 4) k
           end) /\
     exists bert_model loaded flag,
       dict_get String.eqb Fixtures.predictor_kwargs "bert_model"%string = Some bert_model /\
       Fixtures.load_bert bert_model = inr loaded /\
       Predictor.getattr (Predictor.self_attrs p) "update_all_params"%string = inr flag /\
       Predictor.model_parameters p
       = Bert.freeze_embeddings (Predictor.truthy flag) loaded).
Proof.
  split; [exact predictor_kwargs_nodup|].
  eexists. split; [reflexivity|].
  apply (init_attributes [0; 8; 5] 4 Fixtures.load_bert Fixtures.save_ok
           Fixtures.predictor_kwargs _ predictor_kwargs_nodup).
  reflexivity.
Defined.

Lemma load_kwargs_absent (d : Predictor.attrs) kwargs k :
  ~ In k (map fst kwargs) ->
  dict_get String.eqb (Predictor.load_kwargs d kwargs) k = dict_get String.eqb d k.
Proof.
  intros Hno.
  destruct (dict_get String.eqb (Predictor.load_kwargs d kwargs) k) as [v|] eqn:E.
  - apply load_kwargs_get in E as [[_ Hin]|E]; auto.
    exfalso. apply Hno. apply in_map_iff. now exists (k, v).
  - destruct (dict_get String.eqb d k) as [v|] eqn:Ed; auto.
    exfalso. unfold Predictor.load_kwargs in E.
    assert (G : forall (l : list (string * Predictor.pyv)) (d0 : Predictor.attrs),
               (exists v, dict_get String.eqb d0 k = Some v) ->
               exists v, dict_get String.eqb
                           (fold_left (fun d e => dict_set String.eqb d (fst e) (snd e))
                                      l d0) k = Some v).
    { induction l as [|[k0 x] l IH]; intros d0 [v0 H0]; simpl; eauto.
      apply IH. destruct (String.eqb_spec k0 k) as [->|Hne].
      - exists x. apply dict_get_set_same.
      - exists v0. now rewrite dict_get_set_other. }
    destruct (G (filter (fun kv => existsb (String.eqb (fst kv)) Predictor.params) kwargs)
                d (ex_intro _ v Ed)) as [v' Hv'].
    congruence.
Qed.

(** X21. Without the keyword argument [bert_model], which has no default,
    the constructor raises [AttributeError] (on a supported library
    version), before any model is loaded. *)
Theorem init_without_bert_model (pl_version : list nat) (num_threads : Z)
    (from_pretrained : Predictor.pyv -> res (list Bert.named_parameter))
    (save_hyperparameters : list (string * Predictor.pyv) -> res unit)
    (kwargs : list (string * Predictor.pyv)) :
  Predictor.version_lt pl_version [0; 8; 1] = false ->
  ~ In "bert_model"%string (map fst kwargs) ->
  Predictor.__init__ pl_version num_threads from_pretrained save_hyperparameters kwargs
  = inl AttributeError.
Proof.
  intros Hv Hno. unfold Predictor.__init__. rewrite Hv.
  unfold Predictor.getattr at 1. rewrite load_kwargs_absent by auto. reflexivity.
Qed.

Lemma init_without_bert_model_witness :
  Predictor.version_lt [0; 9; 0] [0; 8; 1] = false /\
  ~ In "bert_model"%string (map fst [("txtvar"%string, Predictor.PVStr "TEXT")]) /\
  Predictor.__init__ [0; 9; 0] 4 Fixtures.load_bert Fixtures.save_ok
    [("txtvar"%string, Predictor.PVStr "TEXT")]
  = inl AttributeError.
Proof.
  assert (A : Predictor.version_lt [0; 9; 0] [0; 8; 1] = false) by reflexivity.
  assert (B : ~ In "bert_model"%string
                  (map fst [("txtvar"%string, Predictor.PVStr "TEXT")])).
  { cbn [map fst In]. intros [H|H]; [discriminate H | exact H]. }
  split; [exact A|]. split; [exact B|].
  exact (init_without_bert_model [0; 9; 0] 4 Fixtures.load_bert Fixtures.save_ok
           [("txtvar"%string, Predictor.PVStr "TEXT")] A B).
Defined.

Lemma no_lr_attribute num_threads kwargs :
  Predictor.getattr (Predictor.load_kwargs (Predictor.defaults num_threads) kwargs)
    "lr"%string = inl AttributeError.
Proof.
  unfold Predictor.getattr.
  destruct (dict_get String.eqb _ "lr"%string) as [v|] eqn:E; [|reflexivity].
  apply load_kwargs_get in E as [[Hp _]|E]; discriminate.
Qed.

(** X22. On a constructed predictor, [configure_optimizers] returns only
    for the optimiser name [sgd], with the SGD optimiser and a cyclic
    schedule between 1e-8 and the learning rate of the hyperparameters.
    For the name [adam] it raises [AttributeError]: it reads [self.lr],
    and the constructor never assigns that attribute, whatever keyword
    arguments it is given.  Any other name raises [NameError], at this
    call and not at construction. *)
Theorem configure_optimizers_cases (pl_version : list nat) (num_threads : Z)
    (from_pretrained : Predictor.pyv -> res (list Bert.named_parameter))
    (save_hyperparameters : list (string * Predictor.pyv) -> res unit)
    (kwargs : list (string * Predictor.pyv)) (p : Predictor.predictor)
    (hparams : Predictor.attrs) :
  Predictor.__init__ pl_version num_threads from_pretrained save_hyperparameters kwargs
  = inr p ->
  exists optimiser,
    Predictor.getattr (Predictor.self_attrs p) "optimiser"%string = inr optimiser /\
    (Predictor.is_str optimiser "adam"%string = true ->
     Predictor.configure_optimizers (Predictor.self_attrs p) hparams
     = inl AttributeError) /\
    (Predictor.is_str optimiser "sgd"%string = false ->
     Predictor.is_str optimiser "adam"%string = false ->
     Predictor.configure_optimizers (Predictor.self_attrs p) hparams = inl NameError) /\
    (forall r,
        Predictor.configure_optimizers (Predictor.self_attrs p) hparams = inr r ->
        Predictor.is_str optimiser "sgd"%string = true /\
        exists lr momentum,
          dict_get String.eqb hparams "lr"%string = Some lr /\
          dict_get String.eqb hparams "momentum"%string = Some momentum /\
          r = Predictor.SGD_CyclicLR lr momentum (1 # 100000000) lr).
Proof.
  intros H. unfold Predictor.__init__ in H.
  destruct (Predictor.version_lt pl_version [0; 8; 1]); [discriminate|].
  apply bind_inr in H as (bm & _ & H). apply bind_inr in H as (loaded & _ & H).
  apply bind_inr in H as (flag & _ & H). apply bind_inr in H as (u & _ & H).
  injection H as <-. cbn [Predictor.self_attrs].
  set (self := Predictor.load_kwargs (Predictor.defaults num_threads) kwargs).
  assert (Hopt : exists o, Predictor.getattr self "optimiser"%string = inr o).
  { unfold Predictor.getattr.
    destruct (dict_get String.eqb self "optimiser"%string) as [o|] eqn:E; eauto.
    exfalso. unfold self, Predictor.load_kwargs in E.
    assert (G : forall (l : list (string * Predictor.pyv)) (d0 : Predictor.attrs),
               (exists v, dict_get String.eqb d0 "optimiser"%string = Some v) ->
               exists v, dict_get String.eqb
                           (fold_left (fun d e => dict_set String.eqb d (fst e) (snd e))
                                      l d0) "optimiser"%string = Some v).
    { induction l as [|[k0 x] l IH]; intros d0 [v0 H0]; cbn [fold_left fst snd]; eauto.
      apply IH. destruct (String.eqb_spec k0 "optimiser"%string) as [->|Hne].
      - exists x. apply dict_get_set_same.
      - exists v0. now rewrite dict_get_set_other. }
    destruct (G (filter (fun kv => existsb (String.eqb (fst kv)) Predictor.params) kwargs)
                (Predictor.defaults num_threads)) as [v' Hv']; [|congruence].
    eexists. reflexivity. }
  destruct Hopt as [o Ho]. exists o. split; [exact Ho|].
  unfold Predictor.configure_optimizers. rewrite Ho. cbn [bind].
  pose proof (no_lr_attribute num_threads kwargs) as Hlr. fold self in Hlr.
  split; [|split].
  - intros Ha. destruct (Predictor.is_str o "sgd"%string) eqn:Es.
    + destruct o as [s| | | |]; try discriminate. simpl in Ha, Es.
      apply String.eqb_eq in Ha, Es. congruence.
    + rewrite Ha, Hlr. reflexivity.
  - intros -> ->. reflexivity.
  - intros r Hr. destruct (Predictor.is_str o "sgd"%string).
    + split; auto.
      apply bind_inr in Hr as (lr & Hl & Hr). apply bind_inr in Hr as (mo & Hm & Hr).
      apply bind_inr in Hr as (lr' & Hl' & Hr). injection Hr as <-.
      unfold Predictor.getattr in Hl, Hm, Hl'.
      destruct (dict_get String.eqb hparams "lr"%string) as [x|]; [|discriminate].
      destruct (dict_get String.eqb hparams "momentum"%string) as [y|]; [|discriminate].
      injection Hl as <-. injection Hm as <-. injection Hl' as <-.
      exists x, y. auto.
    + destruct (Predictor.is_str o "adam"%string); [|discriminate].
      rewrite Hlr in Hr. discriminate.
Qed.

Lemma configure_optimizers_cases_witness :
  exists p,
    Predictor.__init__ [0; 8; 5] 4 Fixtures.load_bert Fixtures.save_ok
      Fixtures.predictor_kwargs = inr p /\
    exists optimiser,
      Predictor.getattr (Predictor.self_attrs p) "optimiser"%string = inr optimiser /\
      (Predictor.is_str optimiser "adam"%string = true ->
       Predictor.configure_optimizers (Predictor.self_attrs p) []
       = inl AttributeError) /\
      (Predictor.is_str optimiser "sgd"%string = false ->
       Predictor.is_str optimiser "adam"%string = false ->
       Predictor.configure_optimizers (Predictor.self_attrs p) [] = inl NameError) /\
      (forall r,
          Predictor.configure_optimizers (Predictor.self_attrs p) [] = inr r ->
          Predictor.is_str optimiser "sgd"%string = true /\
          exists lr momentum,
            dict_get String.eqb (@nil (string * Predictor.pyv)) "lr"%string = Some lr /\
            dict_get String.eqb (@nil (string * Predictor.pyv)) "momentum"%string
            = Some momentum /\
            r = Predictor.SGD_CyclicLR lr momentum (1 # 100000000) lr).
Proof.
  eexists. split; [reflexivity|].
  apply (configure_optimizers_cases [0; 8; 5] 4 Fixtures.load_bert Fixtures.save_ok
           Fixtures.predictor_kwargs _ []).
  reflexivity.
Defined.

(** ** Partial fine-tuning: what the freezing loop leaves alone *)

(** X23. The freezing loop never renames, adds or drops a parameter and
    never makes a parameter trainable: the parameter names stay as they
    are, the trainable parameters afterwards are among those trainable
    before, and every trainable parameter whose name does not start with
    [embeddings] stays trainable.  Running the loop twice changes nothing
    more. *)
Theorem freeze_embeddings_frame (update_all_params : bool)
    (ps : list Bert.named_parameter) :
  map fst (Bert.freeze_embeddings update_all_params ps) = map fst ps /\
  incl (Bert.trainable (Bert.freeze_embeddings update_all_params ps)) (Bert.trainable ps) /\
  (forall n, In n (Bert.trainable ps) ->
             Bert.startswith n "embeddings" = false ->
             In n (Bert.trainable (Bert.freeze_embeddings update_all_params ps))) /\
  Bert.freeze_embeddings update_all_params
    (Bert.freeze_embeddings update_all_params ps)
  = Bert.freeze_embeddings update_all_params ps.
Proof.
  destruct update_all_params; [repeat split; auto; apply incl_refl|].
  rewrite !freeze_embeddings_spec. unfold Bert.trainable.
  split; [|split; [|split]].
  - rewrite map_map. reflexivity.
  - intros n Hn. apply in_map_iff in Hn as ([n' g] & <- & Hin).
    apply filter_In in Hin as [Hin Hg]. simpl in Hg.
    apply in_map_iff in Hin as ([n0 g0] & E & Hin). simpl in E.
    injection E as <- <-. apply andb_true_iff in Hg as [Hg0 _]. simpl in *.
    apply in_map_iff. exists (n0, g0). split; auto. apply filter_In. auto.
  - intros n Hn Hpre. apply in_map_iff in Hn as ([n' g] & <- & Hin).
    apply filter_In in Hin as [Hin Hg]. simpl in *.
    apply in_map_iff.
    exists (n', g && negb (Bert.startswith n' "embeddings")). split; auto.
    apply filter_In. split.
    + apply in_map_iff. exists (n', g). auto.
    + simpl. now rewrite Hg, Hpre.
  - rewrite map_map. apply map_ext. intros [n g]. simpl.
    now rewrite <- andb_assoc, andb_diag.
Qed.

(** ** [EncodedDataset]: an overflow handed over as a list *)

(** X24. When the tokenizer hands the overflow over as a plain Python
    list (and the primary window has [seq_len] entries), the row yields
    only its primary Unit if the list is empty, and raises
    [AttributeError] as soon as the list holds a token. *)
Theorem encode_row_list_overflow (encode_plus : string -> nat -> Bert.encoding)
    (seq_len : nat) (ds : Bert.EncodedDataset) (row : Bert.df_row) (l : list Z) :
  0 < seq_len ->
  Bert.overflowing_tokens (encode_plus (snd (fst row)) seq_len) = Some (Bert.OvList l) ->
  length (Bert.numel (Bert.enc_input_ids (encode_plus (snd (fst row)) seq_len))) = seq_len ->
  length (Bert.numel (Bert.enc_attention_mask (encode_plus (snd (fst row)) seq_len)))
  = seq_len ->
  Bert.encode_row encode_plus seq_len ds row
  = match l with
    | [] =>
        inr {| Bert.input_ids :=
                 Bert.input_ids ds
                 ++ [Bert.T1 (Bert.numel (Bert.enc_input_ids
                                            (encode_plus (snd (fst row)) seq_len)))];
               Bert.attn_masks :=
                 Bert.attn_masks ds
                 ++ [Bert.T1 (Bert.numel (Bert.enc_attention_mask
                                            (encode_plus (snd (fst row)) seq_len)))];
               Bert.labels := Bert.labels ds ++ [snd row];
               Bert.patient_ids := Bert.patient_ids ds ++ [fst (fst row)] |}
    | _ :: _ => inl AttributeError
    end.
Proof.
  destruct row as [[patient note] label]. cbn [fst snd].
  intros HL Hov Hids Hmask. unfold Bert.encode_row, Bert.reshape.
  rewrite Hids, Hmask, Nat.eqb_refl. cbn [bind ret]. rewrite Hov.
  unfold Bert.ceil_div. destruct (Nat.eqb_spec seq_len 0) as [|_]; [lia|].
  cbn [Bert.ov_len bind ret].
  destruct l as [|z l].
  - cbn [length]. replace ((0 + seq_len - 1) / seq_len) with 0
      by (symmetry; apply Nat.div_small; lia).
    reflexivity.
  - cbn [length].
    assert (Hpos : 0 < (S (length l) + seq_len - 1) / seq_len)
      by (apply Nat.div_str_pos; lia).
    destruct ((S (length l) + seq_len - 1) / seq_len) as [|k]; [lia|].
    cbn [seq for_each]. unfold Bert.overflow_step at 1.
    cbn [Bert.ov_slice Bert.ov_shape1 bind raise]. reflexivity.
Qed.

Lemma encode_row_list_overflow_witness :
  0 < 4 /\
  Bert.overflowing_tokens (Fixtures.list_overflow "long note" 4)
  = Some (Bert.OvList [13; 14; 15]%Z) /\
  length (Bert.numel (Bert.enc_input_ids (Fixtures.list_overflow "long note" 4))) = 4 /\
  length (Bert.numel (Bert.enc_attention_mask (Fixtures.list_overflow "long note" 4)))
  = 4 /\
  Bert.encode_row Fixtures.list_overflow 4
    {| Bert.input_ids := []; Bert.attn_masks := [];
       Bert.labels := []; Bert.patient_ids := [] |}
    (7%Z, "long note"%string, 1%Z)
  = inl AttributeError.
Proof.
  assert (A : 0 < 4) by (repeat constructor).
  repeat (split; [first [exact A | reflexivity]|]).
  exact (encode_row_list_overflow Fixtures.list_overflow 4
           {| Bert.input_ids := []; Bert.attn_masks := [];
              Bert.labels := []; Bert.patient_ids := [] |}
           (7%Z, "long note"%string, 1%Z) [13; 14; 15]%Z A eq_refl eq_refl eq_refl).
Defined.
